(** * Timing-Error-Detector simulation: a shallow embedding

    The development follows the two numerical classes of the repository.

    - [TimingErrorDetector.py] only uses the basic IEEE-754 operations
      (+, -, *, /, %, comparisons, conversions to and from integers), so it is
      embedded over Rocq's primitive binary64 floats, where these operations
      are the ones the Python interpreter performs.  Two library calls of
      the Early-Late Gate metric are not: the complex modulus and the
      square [x**2] of a numpy scalar go through C's [hypot] and [pow],
      which are parameters.
    - [PulseShaper.py] builds its kernels from transcendental functions
      (sin, cos), which have no executable binary64 model; its kernels,
      convolutions and delays are embedded over the real numbers, i.e. in
      exact arithmetic, and only what does not depend on the arithmetic
      (lengths, index positions, symmetry, which exception is raised) is
      stated of them.  Its method [noise] divides by a power that can
      underflow or overflow: it is embedded over binary64, in [Noise].

    Python exceptions are values of the [result] type; third-party routines
    (scipy's [resample_poly], commpy's [rcosfilter], C's [hypot] and [pow],
    numpy's mean and random draws) are parameters of the definitions that
    call them. *)

From Stdlib Require Import ZArith List Lia Bool String.
From Stdlib Require Import Floats.
From Stdlib Require Import Reals Lra.
Import ListNotations.

Local Open Scope Z_scope.

(* ===================================================================== *)
(** * The Python run-time layer *)
(* ===================================================================== *)

(** The exceptions the modelled code can raise.  [NonFinite] is not a Python
    exception: it marks, in the exact-arithmetic model of [PulseShaper], the
    division of a kernel by a zero sum, which numpy answers with [inf] or
    [nan] and a warning; no real number continues the run. *)
Inductive exn : Set :=
| IndexError
| ValueError
| ZeroDivisionError
| OverflowError
| AttributeError
| TypeError
| NonFinite.

(** Outcome of a Python computation.  [OutOfFuel] is only produced by the
    fuel-bounded loop of [main] when its fuel runs out; lemma
    [main_enough_fuel] shows that this never happens for [sps > 0]. *)
Inductive result (A : Type) : Type :=
| Ok (a : A)
| Raise (e : exn)
| OutOfFuel.

Arguments Ok {A} a.
Arguments Raise {A} e.
Arguments OutOfFuel {A}.

Definition bind {A B : Type} (c : result A) (k : A -> result B) : result B :=
  match c with
  | Ok a => k a
  | Raise e => Raise e
  | OutOfFuel => OutOfFuel
  end.

Declare Scope py_scope.
Delimit Scope py_scope with py.
Notation "x <- c ;; k" := (bind c (fun x => k))
  (at level 61, c at next level, right associativity) : py_scope.
Notation "' pat <- c ;; k" := (bind c (fun x => match x with pat => k end))
  (at level 61, pat pattern, c at next level, right associativity) : py_scope.
Local Open Scope py_scope.

(** Reading an attribute that no method has assigned yet. *)
Definition attr {A : Type} (a : option A) : result A :=
  match a with
  | Some x => Ok x
  | None => Raise AttributeError
  end.

(** [len(l)] *)
Definition len {A : Type} (l : list A) : Z := Z.of_nat (List.length l).

(** [l[i]] for a list or a one-dimensional array: a negative index counts
    from the end, anything outside [-len, len) raises [IndexError]. *)
Definition py_index {A : Type} (l : list A) (i : Z) : result A :=
  let j := if i <? 0 then i + len l else i in
  if (0 <=? j) && (j <? len l) then
    match nth_error l (Z.to_nat j) with
    | Some x => Ok x
    | None => Raise IndexError
    end
  else Raise IndexError.

(** Normalisation of one slice bound: negative bounds count from the end and
    everything is clamped into [0, len]. *)
Definition slice_bound (n i : Z) : Z :=
  if i <? 0 then Z.max (i + n) 0 else Z.min i n.

(** [l[start:stop]] with unit step; [None] is an omitted bound. *)
Definition py_slice {A : Type} (l : list A) (start stop : option Z) : list A :=
  let n := len l in
  let a := match start with None => 0 | Some i => slice_bound n i end in
  let b := match stop with None => n | Some i => slice_bound n i end in
  firstn (Z.to_nat (b - a)) (skipn (Z.to_nat a) l).

(** [l.append(x)] *)
Definition append {A : Type} (l : list A) (x : A) : list A := l ++ [x].

(** [np.arange(start, stop, step)] on integers. *)
Definition np_arange (start stop step : Z) : result (list Z) :=
  if step =? 0 then Raise ZeroDivisionError
  else
    let n := if 0 <? step then (stop - start + step - 1) / step
             else (start - stop - step - 1) / (- step) in
    Ok (map (fun k => start + Z.of_nat k * step) (seq 0 (Z.to_nat n))).

(* ===================================================================== *)
(** * binary64 helpers *)
(* ===================================================================== *)

Module F64.

(** Nearest binary64 value of an integer (ties to even); used where numpy
    converts an [int64] operand. *)
Definition of_Z (z : Z) : float :=
  SF2Prim (binary_normalize prec emax z 0 false).

(** Conversion of a Python [int] operand in mixed arithmetic:
    [OverflowError] when the integer is beyond the binary64 range. *)
Definition of_int (z : Z) : result float :=
  let f := of_Z z in
  if is_infinity f then Raise OverflowError else Ok f.

(** [int(f)]: truncation towards zero. *)
Definition to_int (f : float) : result Z :=
  match Prim2SF f with
  | S754_nan => Raise ValueError
  | S754_infinity _ => Raise OverflowError
  | S754_zero _ => Ok 0
  | S754_finite s m e =>
      let a := if 0 <=? e then Zpos m * 2 ^ e else Zpos m / 2 ^ (- e) in
      Ok (if s then - a else a)
  end.

(** [a / b] on Python integers: the correctly rounded quotient.  The
    quotient is computed with at least 56 significant bits and a sticky
    bit, which [binary_normalize] rounds to nearest even. *)
Definition int_truediv (a b : Z) : result float :=
  if b =? 0 then Raise ZeroDivisionError
  else
    let negate := xorb (a <? 0) (b <? 0) in
    let A := Z.abs a in
    let B := Z.abs b in
    if A =? 0 then Ok (if negate then neg_zero else zero)
    else
      let k := Z.max 0 (Z.log2 B - Z.log2 A + 56) in
      let q := (A * 2 ^ k) / B in
      let r := (A * 2 ^ k) mod B in
      let m := 2 * q + (if r =? 0 then 0 else 1) in
      let f := SF2Prim (binary_normalize prec emax
                          (if negate then - m else m) (- k - 1) negate) in
      if is_infinity f then Raise OverflowError else Ok f.

(** C's [fmod]: the exact remainder [x - n*y], [n] the quotient truncated
    towards zero; the result has the sign of [x]. *)
Definition fmod (x y : float) : float :=
  match Prim2SF x, Prim2SF y with
  | S754_nan, _ | _, S754_nan => nan
  | S754_infinity _, _ => nan
  | _, S754_zero _ => nan
  | S754_zero _, _ => x
  | _, S754_infinity _ => x
  | S754_finite sx mx ex, S754_finite _ my ey =>
      let e := Z.min ex ey in
      let X := Zpos mx * 2 ^ (ex - e) in
      let Y := Zpos my * 2 ^ (ey - e) in
      let r := X mod Y in
      SF2Prim (binary_normalize prec emax (if sx then - r else r) e sx)
  end.

(** [a % b] on floats (numpy's [npy_remainder], the same steps as
    CPython's [float_rem] for a non-zero divisor). *)
Definition remainder (a b : float) : float :=
  let m := fmod a b in
  if (b =? 0)%float then m
  else if negb (m =? 0)%float then
    if negb (Bool.eqb (b <? 0)%float (m <? 0)%float) then (m + b)%float else m
  else if get_sign b then neg_zero else zero.

(** [np.sign] on a real number. *)
Definition sign (x : float) : float :=
  if (0 <? x)%float then 1%float
  else if (x <? 0)%float then (-1)%float
  else if (x =? 0)%float then 0%float
  else x.

End F64.

(* ===================================================================== *)
(** * Samples: [np.float64 | np.complex128] *)
(* ===================================================================== *)

Inductive scalar : Set :=
| F64 (x : float)
| C128 (re im : float).

Module Scalar.

Definition np_real (s : scalar) : float :=
  match s with F64 x => x | C128 re _ => re end.

Definition np_conj (s : scalar) : scalar :=
  match s with F64 x => F64 x | C128 re im => C128 re (- im)%float end.

(** numpy promotes a real operand of a mixed operation to [x + 0j]. *)
Definition parts (s : scalar) : float * float :=
  match s with F64 x => (x, 0%float) | C128 re im => (re, im) end.

Definition mul (a b : scalar) : scalar :=
  match a, b with
  | F64 x, F64 y => F64 (x * y)%float
  | _, _ =>
      let '(ar, ai) := parts a in
      let '(br, bi) := parts b in
      C128 (ar * br - ai * bi)%float (ar * bi + ai * br)%float
  end.

Definition sub (a b : scalar) : scalar :=
  match a, b with
  | F64 x, F64 y => F64 (x - y)%float
  | _, _ =>
      let '(ar, ai) := parts a in
      let '(br, bi) := parts b in
      C128 (ar - br)%float (ai - bi)%float
  end.

Definition add (a b : scalar) : scalar :=
  match a, b with
  | F64 x, F64 y => F64 (x + y)%float
  | _, _ =>
      let '(ar, ai) := parts a in
      let '(br, bi) := parts b in
      C128 (ar + br)%float (ai + bi)%float
  end.

(** [np.abs]; the modulus of a complex number is C's [hypot]. *)
Definition np_abs (hypot : float -> float -> float) (s : scalar) : float :=
  match s with F64 x => abs x | C128 re im => hypot re im end.

End Scalar.

(* ===================================================================== *)
(** * TimingErrorDetector.py *)
(* ===================================================================== *)

(** The attributes of a [TimingErrorDetector] object; those assigned by
    [interpolator] and [main] are absent until these methods have run. *)
Record TED : Set := mkTED {
  upsample : Z;
  interpolated_pulse : option (list scalar);
  offset : option (list float);
  error : option (list float);
  symbols_pred : option (list float);
  out_signal : option (list scalar)
}.

(** [TimingErrorDetector(upsample)] *)
Definition TED_init (upsample : Z) : TED :=
  mkTED upsample None None None None None.

(** [self.interpolated_pulse = r] *)
Definition set_interpolated_pulse (self : TED) (r : list scalar) : TED :=
  mkTED self.(upsample) (Some r) self.(offset) self.(error)
        self.(symbols_pred) self.(out_signal).

(** Lines 99-102: the four trace attributes assigned at the end of [main]. *)
Definition set_traces (self : TED) (offset error symbols_pred : list float)
    (out_signal : list scalar) : TED :=
  mkTED self.(upsample) self.(interpolated_pulse) (Some offset) (Some error)
        (Some symbols_pred) (Some out_signal).

(** The state the [while] loop of [main] carries from one iteration to the
    next: the local variables of lines 56-63. *)
Record loop_state : Set := mkLoop {
  i_cur : Z;
  tau : float;
  v : float;
  symbol_prev : float;
  error_l : list float;
  offset_l : list float;
  symbols_pred_l : list float;
  out_signal_l : list scalar
}.

Section TimingErrorDetector.

(** [scipy.signal.resample_poly(x, up, down)] and C's [hypot] and [pow]. *)
Variable resample_poly : list scalar -> Z -> Z -> list scalar.
Variable hypot : float -> float -> float.
Variable pow : float -> float -> float.

(** Lines 10-15.  The polyphase resampler is called with the local
    [upsample = 32], not with [self.upsample]. *)
Definition interpolator (self : TED) (signal : list scalar)
  : TED * list scalar :=
  let upsample := 32 in
  let r := resample_poly signal upsample 1 in
  (set_interpolated_pulse self r, r).

(** Lines 18-25. *)
Definition mueller_muller (val_cur val_prev : scalar) (symbol_prev : float)
  : float :=
  let symbol_cur := F64.sign (Scalar.np_real val_cur) in
  Scalar.np_real
    (Scalar.sub (Scalar.mul val_cur (Scalar.np_conj (F64 symbol_prev)))
                (Scalar.mul (F64 symbol_cur) (Scalar.np_conj val_prev))).

(** Lines 28-34. *)
Definition gardner (val_cur val_prev val_middle : scalar) : float :=
  Scalar.np_real
    (Scalar.mul (Scalar.np_conj val_middle) (Scalar.sub val_cur val_prev)).

(** Lines 37-42: [np.abs(val_early)**2 - np.abs(val_late)].  The power of
    a numpy scalar is C's [pow] with the exponent converted to [2.0]. *)
Definition earlylategate (val_early val_late : scalar) : float :=
  (pow (Scalar.np_abs hypot val_early) 2 - Scalar.np_abs hypot val_late)%float.

(** Line 66: the index of the current sample in the interpolated buffer,
    [i_cur*self.upsample + int(tau*self.upsample)]. *)
Definition offset_index (self : TED) (i_cur : Z) (tau : float) : result Z :=
  up <- F64.of_int self.(upsample) ;;
  k <- F64.to_int (tau * up)%float ;;
  Ok (i_cur * self.(upsample) + k).

(** Lines 70-82: the error list after the selected detector has run. *)
Definition append_error (self : TED) (buf : list scalar) (sps : Z)
    (error_eq : string) (delta : Z) (offset_cur : Z)
    (val_cur val_prev : scalar) (st : loop_state) : result (list float) :=
  if String.eqb error_eq "mueller" then
    Ok (append st.(error_l)
          (mueller_muller val_cur val_prev st.(symbol_prev)))
  else if String.eqb error_eq "gardner" then
    h <- F64.int_truediv (sps * self.(upsample)) 2 ;;
    hi <- F64.to_int h ;;
    val_middle <- py_index buf (offset_cur - hi) ;;
    Ok (append st.(error_l) (- gardner val_cur val_prev val_middle)%float)
  else if String.eqb error_eq "earlylategate" then
    q <- F64.int_truediv sps delta ;;
    up <- F64.of_int self.(upsample) ;;
    shift <- F64.to_int (q * up)%float ;;
    if offset_cur + shift >? len buf then
      last_error <- py_index st.(error_l) (-1) ;;
      Ok (append st.(error_l) last_error)
    else
      val_early <- py_index buf (offset_cur - shift) ;;
      val_late <- py_index buf (offset_cur + shift) ;;
      Ok (append st.(error_l) (- earlylategate val_early val_late)%float)
  else Ok st.(error_l).

(** Lines 66-97: one iteration of the loop. *)
Definition main_body (self : TED) (buf : list scalar) (sps : Z)
    (error_eq : string) (gain Kp Ki : float) (delta : Z) (use_pi : bool)
    (st : loop_state) : result loop_state :=
  offset_cur <- offset_index self st.(i_cur) st.(tau) ;;
  val_cur <- py_index buf offset_cur ;;
  val_prev <- py_index buf (offset_cur - sps * self.(upsample)) ;;
  error' <- append_error self buf sps error_eq delta offset_cur
                         val_cur val_prev st ;;
  let symbol_prev' := F64.sign (Scalar.np_real val_cur) in
  let symbols_pred' := append st.(symbols_pred_l) symbol_prev' in
  e <- py_index error' (-1) ;;
  let v' := if use_pi then (st.(v) + Ki * e)%float else st.(v) in
  let tau' := if use_pi then (st.(tau) + (v' + Kp * e))%float
              else (st.(tau) + gain * e)%float in
  sps_f <- F64.of_int sps ;;
  let tau'' := F64.remainder tau' sps_f in
  Ok (mkLoop (st.(i_cur) + sps) tau'' v' symbol_prev' error'
             (append st.(offset_l) tau'') symbols_pred'
             (append st.(out_signal_l) val_cur)).

(** Lines 65-97: [while i_cur < num_samples]. *)
Fixpoint main_loop (fuel : nat) (self : TED) (buf : list scalar)
    (num_samples sps : Z) (error_eq : string) (gain Kp Ki : float)
    (delta : Z) (use_pi : bool) (st : loop_state) : result loop_state :=
  if st.(i_cur) <? num_samples then
    match fuel with
    | O => OutOfFuel
    | S fuel' =>
        st' <- main_body self buf sps error_eq gain Kp Ki delta use_pi st ;;
        main_loop fuel' self buf num_samples sps error_eq gain Kp Ki
                  delta use_pi st'
    end
  else Ok st.

(** Lines 44-104.  The value is the updated object together with the
    returned tuple [(offset, error, symbols_pred, out_signal)]. *)
Definition main (self : TED) (num_samples sps : Z) (error_eq : string)
    (tau gain Kp Ki : float) (delta : Z) (symbol_prev : float)
    (use_pi : bool)
  : result (TED * (list float * list float * list float * list scalar)) :=
  buf <- attr self.(interpolated_pulse) ;;
  first <- py_index buf 0 ;;
  let st0 := mkLoop sps tau 0%float symbol_prev [] [] [symbol_prev] [first] in
  st <- main_loop (Z.to_nat num_samples) self buf num_samples sps error_eq
                  gain Kp Ki delta use_pi st0 ;;
  Ok (set_traces self st.(offset_l) st.(error_l) st.(symbols_pred_l)
                 st.(out_signal_l),
      (st.(offset_l), st.(error_l), st.(symbols_pred_l), st.(out_signal_l))).

End TimingErrorDetector.

(** The default arguments of [main]. *)
Definition default_tau : float := 0%float.
Definition default_gain : float := 0x1.999999999999ap-4%float.   (* 0.1 *)
Definition default_Kp : float := 0x1.47ae147ae147bp-7%float.     (* 0.01 *)
Definition default_Ki : float := 0x1.a36e2eb1c432dp-14%float.    (* 0.0001 *)
Definition default_delta : Z := 4.
Definition default_symbol_prev : float := 0%float.

(** [np.sum(np.array(pred) == symbols)]: element-wise comparison of a float
    array with an [int64] array.  Arrays of one element broadcast; other
    shape mismatches raise [ValueError] (NumPy 1.25 and later). *)
Fixpoint count_eq (pred : list float) (symbols : list Z) : Z :=
  match pred, symbols with
  | p :: pred', s :: symbols' =>
      (if (p =? F64.of_Z s)%float then 1 else 0) + count_eq pred' symbols'
  | _, _ => 0
  end.

Definition np_sum_eq (pred : list float) (symbols : list Z) : result Z :=
  if len pred =? len symbols then Ok (count_eq pred symbols)
  else if len pred =? 1 then
    Ok (count_eq (repeat (hd 0%float pred) (List.length symbols)) symbols)
  else if len symbols =? 1 then
    Ok (count_eq pred (repeat (hd 0 symbols) (List.length pred)))
  else Raise ValueError.

(** Lines 106-127; the printing of line 122-125 has no effect on the value. *)
Definition results (self : TED) (symbols : list Z) (keep_all : bool)
  : result (float * float * float) :=
  pred <- attr self.(symbols_pred) ;;
  '(num_correct, num_symbols) <-
     (if keep_all then
        c <- np_sum_eq pred symbols ;;
        Ok (c, len symbols)
      else
        c <- np_sum_eq (py_slice pred (Some 30) None)
                       (py_slice symbols (Some 30) None) ;;
        Ok (c, len (py_slice symbols (Some 30) None))) ;;
  let perc_correct :=
    (F64.of_Z num_correct / F64.of_Z num_symbols * 100)%float in
  let ber :=
    (F64.of_Z (num_symbols - num_correct) / F64.of_Z num_symbols * 100)%float in
  off <- attr self.(offset) ;;
  final_offset <- py_index off (-1) ;;
  Ok (perc_correct, ber, final_offset).

(* ===================================================================== *)
(** * numpy on real arrays (exact arithmetic) *)
(* ===================================================================== *)

Module NP.

(** [arr / b] on a whole array; nothing is divided in an empty one. *)
Definition div_all (l : list R) (b : R) : result (list R) :=
  match l with
  | [] => Ok []
  | _ => if Req_dec_T b 0%R then Raise NonFinite
         else Ok (map (fun x => (x / b)%R) l)
  end.

(** [np.zeros(n)] *)
Definition zeros (n : Z) : result (list R) :=
  if n <? 0 then Raise ValueError else Ok (repeat 0%R (Z.to_nat n)).

(** [np.sum] *)
Definition sum (l : list R) : R := fold_right Rplus 0%R l.

(** [np.sinc]: the normalised sinc, with its limit value 1 at 0. *)
Definition sinc (x : R) : R :=
  if Req_dec_T x 0%R then 1%R else (sin (PI * x) / (PI * x))%R.

(** Tap [k] of the Hamming window of [M > 1] taps:
    [0.54 + 0.46*cos(pi*n/(M-1))] at [n = 1 - M + 2*k]. *)
Definition hamming_tap (M : Z) (k : nat) : R :=
  (54 / 100
   + 46 / 100 * cos (PI * IZR (1 - M + 2 * Z.of_nat k) / IZR (M - 1)))%R.

(** [np.hamming(M)]:
    [n = arange(1-M, M, 2); 0.54 + 0.46*cos(pi*n/(M-1))],
    with the special cases of the library for [M < 1] and [M == 1]. *)
Definition hamming (M : Z) : list R :=
  if M <? 1 then []
  else if M =? 1 then [1%R]
  else map (hamming_tap M) (seq 0 (Z.to_nat M)).

(** Element-wise operation on two arrays with numpy's broadcasting of
    one-element arrays. *)
Definition zip_with (f : R -> R -> R) (a b : list R) : result (list R) :=
  if len a =? len b then Ok (map (fun p => f (fst p) (snd p)) (combine a b))
  else if len a =? 1 then Ok (map (f (hd 0%R a)) b)
  else if len b =? 1 then Ok (map (fun x => f x (hd 0%R b)) a)
  else Raise ValueError.

(** Coefficient [n] of the full discrete convolution,
    [sum_m a[m] * v[n - m]], entries outside an array counting as zero. *)
Definition conv_at (a v : list R) (n : nat) : R :=
  sum (map (fun m => (nth m a 0 * nth (n - m) v 0)%R) (seq 0 (S n))).

(** [np.convolve(a, v)] in its default mode ['full']: the operands are
    swapped so that the first is the longer, empty operands are refused. *)
Definition convolve (a v : list R) : result (list R) :=
  let '(a, v) := if len a <? len v then (v, a) else (a, v) in
  match a, v with
  | [], _ | _, [] => Raise ValueError
  | _, _ => Ok (map (conv_at a v) (seq 0 (List.length a + List.length v - 1)))
  end.

(** [np.delete(arr, i)] for one index. *)
Definition delete {A : Type} (l : list A) (i : Z) : result (list A) :=
  let j := if i <? 0 then i + len l else i in
  if (0 <=? j) && (j <? len l) then
    Ok (firstn (Z.to_nat j) l ++ skipn (S (Z.to_nat j)) l)
  else Raise IndexError.

End NP.

(* ===================================================================== *)
(** * PulseShaper.py *)
(* ===================================================================== *)

Module PulseShaper.

(** A sample of the noisy signal: real, or complex for complex AWGN. *)
Inductive sample : Type :=
| Re (x : R)
| Cx (re im : R).

(** The attributes of a [PulseShaper] object. *)
Record t : Type := mk {
  rc_taps : Z;
  rolloff : R;
  sps : Z;
  raised_cosine : option (list R);
  zero_crossings : option (list Z);
  int_delay : option Z;
  frac_delay : option R;
  sinc_taps : option Z;
  snr : option R;
  pulse_shaped : option (list R);
  pulse_shaped_delayed : option (list R);
  pulse_shaped_delayed_noise : option (list sample)
}.

Definition set_kernel (self : t) (rc : list R) (zc : list Z) : t :=
  mk self.(rc_taps) self.(rolloff) self.(sps) (Some rc) (Some zc)
     self.(int_delay) self.(frac_delay) self.(sinc_taps) self.(snr)
     self.(pulse_shaped) self.(pulse_shaped_delayed)
     self.(pulse_shaped_delayed_noise).

Definition set_pulse_shaped (self : t) (x : list R) : t :=
  mk self.(rc_taps) self.(rolloff) self.(sps) self.(raised_cosine)
     self.(zero_crossings) self.(int_delay) self.(frac_delay)
     self.(sinc_taps) self.(snr) (Some x) self.(pulse_shaped_delayed)
     self.(pulse_shaped_delayed_noise).

Definition set_pulse_shaped_delayed (self : t) (x : list R) : t :=
  mk self.(rc_taps) self.(rolloff) self.(sps) self.(raised_cosine)
     self.(zero_crossings) self.(int_delay) self.(frac_delay)
     self.(sinc_taps) self.(snr) self.(pulse_shaped) (Some x)
     self.(pulse_shaped_delayed_noise).

(** Python truth value of an optional integer and of an optional float. *)
Definition truthy_int (o : option Z) : option Z :=
  match o with
  | Some d => if d =? 0 then None else Some d
  | None => None
  end.

Definition truthy_float (o : option R) : option R :=
  match o with
  | Some d => if Req_dec_T d 0%R then None else Some d
  | None => None
  end.

Section WithLibraries.

(** [commpy.rcosfilter(N, alpha, Ts, Fs)], returning [(time_idx, h_rc)]. *)
Variable rcosfilter : Z -> R -> R -> R -> list R * list R.

(** Lines 23-30. *)
Definition createrc (self : t) : result (t * list R) :=
  let '(_, raised_cosine) :=
    rcosfilter (self.(rc_taps) + 1) self.(rolloff) (IZR self.(sps)) 1%R in
  let rc := py_slice raised_cosine (Some 1) None in
  left <- np_arange (self.(rc_taps) / 2 - self.(sps)) (-1) (- self.(sps)) ;;
  right <- np_arange (self.(rc_taps) / 2) self.(rc_taps) self.(sps) ;;
  let zero_crossings := rev left ++ right in
  zc <- NP.delete zero_crossings (len zero_crossings / 2) ;;
  Ok (set_kernel self rc zc, rc).

(** Lines 6-21. *)
Definition init (rc_taps : Z) (rolloff : R) (sps : Z)
    (int_delay : option Z) (frac_delay : option R) (sinc_taps : option Z)
    (snr : option R) : result t :=
  let self := mk rc_taps rolloff sps None None None None None None
                 None None None in
  '(self, _) <- createrc self ;;
  Ok (mk self.(PulseShaper.rc_taps) self.(PulseShaper.rolloff)
         self.(PulseShaper.sps) self.(raised_cosine)
         self.(zero_crossings) int_delay frac_delay sinc_taps snr
         None None None).

(** Lines 32-42. *)
Definition pulseshaping (self : t) (pulses : list R) (keep_edges : bool)
  : result (t * list R) :=
  rc <- attr self.(raised_cosine) ;;
  full <- NP.convolve pulses rc ;;
  let shaped :=
    if negb keep_edges then
      py_slice full (Some ((self.(rc_taps) - 1) / 2))
                    (Some ((- (self.(rc_taps) - 1)) / 2))
    else full in
  Ok (set_pulse_shaped self shaped, shaped).

(** Lines 48-51: the integer-delay stage. *)
Definition integer_delay (self : t) : result (list R) :=
  match truthy_int self.(int_delay) with
  | Some d =>
      z <- NP.zeros d ;;
      x <- attr self.(pulse_shaped) ;;
      Ok (z ++ py_slice x None (Some (- d)))
  | None => attr self.(pulse_shaped)
  end.

(** Lines 54-56: the windowed and normalised sinc kernel. *)
Definition sinc_kernel (sinc_taps : Z) (frac_delay : R)
  : result (list R) :=
  n <- np_arange ((- (sinc_taps - 1)) / 2) (sinc_taps / 2 + 1) 1 ;;
  sinc_delay <- NP.zip_with Rmult
                  (map (fun k => NP.sinc (IZR k - frac_delay)) n)
                  (NP.hamming sinc_taps) ;;
  NP.div_all sinc_delay (NP.sum sinc_delay).

(** Lines 44-65. *)
Definition fractionaldelay (self : t) (keep_edges : bool)
  : result (t * list R) :=
  pulse_shaped_int_delayed <- integer_delay self ;;
  delayed <-
    (match truthy_float self.(frac_delay) with
     | Some d =>
         taps <- (match self.(sinc_taps) with
                  | Some m => Ok m
                  | None => Raise TypeError
                  end) ;;
         sinc_delay <- sinc_kernel taps d ;;
         full <- NP.convolve pulse_shaped_int_delayed sinc_delay ;;
         Ok (if negb keep_edges then
               py_slice full (Some ((taps - 1) / 2))
                             (Some ((- (taps - 1)) / 2))
             else full)
     | None => Ok pulse_shaped_int_delayed
     end) ;;
  Ok (set_pulse_shaped_delayed self delayed, delayed).

End WithLibraries.

End PulseShaper.

(* ===================================================================== *)
(** * PulseShaper.py: [noise] in binary64 *)
(* ===================================================================== *)

Module Noise.

(** [noise] reads [self.pulse_shaped_delayed] and [self.snr] and writes
    [self.pulse_shaped_delayed_noise]: the object is reduced to these three
    attributes, with the signal in binary64 and [snr] a Python float. *)
Record t : Type := mk {
  snr : option float;
  pulse_shaped_delayed : option (list float);
  pulse_shaped_delayed_noise : option (list scalar)
}.

Definition set_noise (self : t) (x : list scalar) : t :=
  mk self.(snr) self.(pulse_shaped_delayed) (Some x).

Section WithLibraries.

(** C's [pow]; numpy's [np.mean(x**2)] of a one-dimensional array (its
    element-wise square and its pairwise-summed mean, [nan] on an empty
    array); the standard normal draws of [np.random] in the order they
    are taken. *)
Variable pow : float -> float -> float.
Variable mean_square : list float -> float.
Variable gauss : nat -> float.

(** [10**y] for a Python float [y]: CPython's [float_pow] with the base
    [10.0].  It settles a zero, NaN or infinite exponent itself, calls
    [pow] otherwise and raises [OverflowError] on an infinite result; a
    result that underflows to zero is returned as it is. *)
Definition pow10 (y : float) : result float :=
  if (y =? 0)%float then Ok 1%float
  else if is_nan y then Ok y
  else if is_infinity y then Ok (if (0 <? y)%float then infinity else 0%float)
  else
    let r := pow 10 y in
    if is_infinity r then Raise OverflowError else Ok r.

(** [np.random.normal(0, scale, n)]: a scale with the sign bit set that is
    not a NaN is refused; draw [k] is [0.0 + scale * gauss k]. *)
Definition normal (scale : float) (n : nat) : result (list scalar) :=
  if negb (is_nan scale) && get_sign scale then Raise ValueError
  else Ok (map (fun k => F64 (0 + scale * gauss k)%float) (seq 0 n)).

(** [np.random.randn(n) + 1j * np.random.randn(n)]: entry [k] takes draw
    [k] of the first call and draw [k] of the second, which is draw
    [n + k] of the source. *)
Definition complex_draws (n : nat) : list scalar :=
  map (fun k => Scalar.add (F64 (gauss k))
                  (Scalar.mul (C128 0 1) (F64 (gauss (n + k)))))
      (seq 0 n).

(** Lines 67-80. *)
Definition noise (self : t) (is_complex : bool)
  : result (t * list scalar) :=
  x <- attr self.(pulse_shaped_delayed) ;;
  let pulse_power := mean_square x in
  snr <- (match self.(snr) with
          | Some s => Ok s
          | None => Raise TypeError
          end) ;;
  p <- pow10 (snr / 10)%float ;;
  let variance := (pulse_power / p)%float in
  let n := List.length x in
  s <- (if is_complex then
          Ok (map (Scalar.mul (F64 (PrimFloat.sqrt (variance / 2)%float)))
                  (complex_draws n))
        else normal (PrimFloat.sqrt variance) n) ;;
  let noisy := map (fun p => Scalar.add (F64 (fst p)) (snd p)) (combine x s) in
  Ok (set_noise self noisy, noisy).

End WithLibraries.

End Noise.

(** A binary64 zero of either sign. *)
Definition is_a_zero (z : float) : Prop := exists s, Prim2SF z = S754_zero s.

(** Both parts of a sample are finite numbers. *)
Definition finite_scalar (s : scalar) : bool :=
  let '(re, im) := Scalar.parts s in is_finite re && is_finite im.

(** The returned sample [o] carries the signal sample [a] unchanged: as a
    real number in the real branch, with imaginary part [+0.0] in the
    complex one.  Adding a zero of the other sign turns [-0.0] into [+0.0],
    the one change of representation an added zero makes. *)
Definition carries (is_complex : bool) (a : float) (o : scalar) : Prop :=
  exists a', (a' = a \/ (a = neg_zero /\ a' = 0%float))
             /\ o = if is_complex then C128 a' 0 else F64 a'.

(* ===================================================================== *)
(** * Concrete objects used by the examples *)
(* ===================================================================== *)

(** Stand-ins for the library parameters in the examples.  [pow] on
    integer-valued arguments is the correctly rounded power, computed in
    integers (it overflows to infinity and underflows to zero as the C
    function does); on other arguments the stand-in gives NaN. *)
Definition pow_on_integers (x y : float) : float :=
  match F64.to_int x, F64.to_int y with
  | Ok b, Ok k =>
      if ((F64.of_Z b =? x) && (F64.of_Z k =? y))%float then
        if 0 <=? k then F64.of_Z (b ^ k)
        else match F64.int_truediv 1 (b ^ (- k)) with
             | Ok f => f
             | _ => infinity
             end
      else nan
  | _, _ => nan
  end.

(** The mean of the squares summed from left to right; numpy's summation
    order differs, with the same result wherever no sum is rounded. *)
Definition mean_square_in_order (x : list float) : float :=
  (fold_left (fun s a => s + a * a) x 0 / F64.of_Z (len x))%float.

(** A shaper whose delayed signal is two samples of silence. *)
Definition noise_silent (snr : float) : Noise.t :=
  Noise.mk (Some snr) (Some [0%float; 0%float]) None.

(** A detector whose interpolated buffer holds [n] samples per configured
    factor 32, all equal to 1. *)
Definition ted_ones (n : nat) : TED :=
  set_interpolated_pulse (TED_init 32) (repeat (F64 1) (32 * n)).

(** The same buffer with a first sample of [2^-53]. *)
Definition ted_tiny_head (n : nat) : TED :=
  set_interpolated_pulse (TED_init 32)
    (F64 0x1p-53 :: repeat (F64 1) (32 * n - 1)).

(** A detector with factor 1 over six samples. *)
Definition ted_small : TED :=
  set_interpolated_pulse (TED_init 1) (repeat (F64 1) 6).

(** A resampler that repeats every sample [up] times: it has the output
    length of [resample_poly(x, up, 1)]. *)
Definition hold_resampler (x : list scalar) (up down : Z) : list scalar :=
  flat_map (fun s => repeat s (Z.to_nat up)) x.

(** A detector after a run of 29 iterations. *)
Definition ted_after_short_run : TED :=
  set_traces (TED_init 32) (repeat 0%float 29) (repeat 0%float 29)
             (repeat 1%float 30) (repeat (F64 1) 30).

(** The number of positive multiples of [sps] strictly below [n]: the values
    [sps, 2*sps, ...] that [i_cur] takes in the loop of [main]. *)
Definition multiples_below (sps n : Z) : nat :=
  List.length
    (filter (fun j => j mod sps =? 0)
            (map Z.of_nat (seq 1 (Z.to_nat (n - 1))))).

(** The three detector names [main] knows. *)
Definition known_eq (error_eq : string) : bool :=
  String.eqb error_eq "mueller" || String.eqb error_eq "gardner"
  || String.eqb error_eq "earlylategate".

(** The shape of the loop state of [main] after [k] iterations. *)
Record trace_inv (sps num_samples : Z) (error_eq : string) (sp0 : float)
    (st : loop_state) (k : nat) : Prop := mkInv {
  inv_i : st.(i_cur) = sps * (Z.of_nat k + 1);
  inv_below : sps * Z.of_nat k < num_samples;
  inv_known : k <> O -> known_eq error_eq = true;
  inv_error : List.length st.(error_l) = k;
  inv_offset : List.length st.(offset_l) = k;
  inv_symbols : List.length st.(symbols_pred_l) = S k;
  inv_out : List.length st.(out_signal_l) = S k;
  inv_first : nth 0 st.(symbols_pred_l) 0%float = sp0
}.

(** A computation that did not stop for lack of fuel. *)
Definition finished {A : Type} (c : result A) : Prop := c <> OutOfFuel.

(** [0 <= t < sps], the range the phase estimate is meant to stay in. *)
Definition in_phase_range (sps : Z) (t : float) : bool :=
  (0 <=? t)%float && (t <? F64.of_Z sps)%float.

(** A shaper with a single raised-cosine tap. *)
Definition ps_one_tap : PulseShaper.t :=
  PulseShaper.mk 1 (3 / 10)%R 8 (Some [1%R]) (Some []) None None None None
                 None None None.

(** A shaper with three taps. *)
Definition ps_three_taps : PulseShaper.t :=
  PulseShaper.mk 3 (3 / 10)%R 8 (Some [0%R; 1%R; 0%R]) (Some []) None None
                 None None None None None.

(** A shaper holding a three-sample shaped signal and an integer delay. *)
Definition ps_delay (d : Z) : PulseShaper.t :=
  PulseShaper.mk 1 (3 / 10)%R 8 (Some [1%R]) (Some []) (Some d) None None None
                 (Some [1%R; 2%R; 3%R]) None None.

(** A shaper holding the constant signal [1, 1, 1], a half-sample delay and
    a three-tap sinc. *)
Definition ps_constant : PulseShaper.t :=
  PulseShaper.mk 1 (3 / 10)%R 8 (Some [1%R]) (Some []) None (Some (1 / 2)%R)
                 (Some 3) None (Some [1%R; 1%R; 1%R]) None None.

(** [x == y] on reals. *)
Definition Reqb (x y : R) : bool := if Req_dec_T x y then true else false.

(** The impulse response [commpy.filters.rcosfilter] samples, in exact
    arithmetic: the raised cosine with its two removable singularities. *)
Definition rc_response (alpha Ts t : R) : R :=
  if Reqb t 0 then 1%R
  else if negb (Reqb alpha 0) && Reqb t (Ts / (2 * alpha)) then
    (PI / 4 * (sin (PI * t / Ts) / (PI * t / Ts)))%R
  else if negb (Reqb alpha 0) && Reqb t (- Ts / (2 * alpha)) then
    (PI / 4 * (sin (PI * t / Ts) / (PI * t / Ts)))%R
  else
    (sin (PI * t / Ts) / (PI * t / Ts)
     * (cos (PI * alpha * t / Ts)
        / (1 - 2 * alpha * t / Ts * (2 * alpha * t / Ts))))%R.

(** [commpy.filters.rcosfilter(N, alpha, Ts, Fs)]: sample [x] is taken at
    time [(x - N/2) / Fs]. *)
Definition commpy_rcosfilter (N : Z) (alpha Ts Fs : R) : list R * list R :=
  let T_delta := (1 / Fs)%R in
  let sample_num := map Z.of_nat (seq 0 (Z.to_nat N)) in
  (map (fun x => ((IZR x - IZR N / 2) * T_delta)%R) sample_num,
   map (fun x => rc_response alpha Ts ((IZR x - IZR N / 2) * T_delta)%R)
       sample_num).

(** What the development assumes of the raised-cosine routine: it returns
    the samples of an even impulse response on the grid [(x - N/2) / Fs]. *)
Definition samples_even_response
    (rcosfilter : Z -> R -> R -> R -> list R * list R) : Prop :=
  forall N alpha Ts Fs,
  exists h : R -> R,
    (forall t, h (- t)%R = h t)
    /\ snd (rcosfilter N alpha Ts Fs)
       = map (fun x => h ((IZR x - IZR N / 2) * (1 / Fs))%R)
             (map Z.of_nat (seq 0 (Z.to_nat N))).

(** A shaper with three taps before [createrc] has run. *)
Definition ps_fresh : PulseShaper.t :=
  PulseShaper.mk 3 (3 / 10)%R 8 None None None None None None None None None.

(** The alternating sum [c 0 - c 1 + c 2 - ...] of [n + 1] terms. *)
Definition alt_sum (c : nat -> R) (n : nat) : R :=
  NP.sum (map (fun m => ((-1) ^ m * c m)%R) (seq 0 (S n))).

(** The Hamming weight at distance [m] from the centre of a window of
    [2k + 1] taps. *)
Definition hamming_weight (k m : nat) : R :=
  (54 / 100 + 46 / 100 * cos (PI * INR m / INR k))%R.

(** Tap [i] of the windowed sinc of [2k + 1] taps before normalisation:
    [sinc(n - d) * hamming] at [n = -k + i]. *)
Definition sinc_tap (k : nat) (d : R) (i : nat) : R :=
  (NP.sinc (IZR (- Z.of_nat k + Z.of_nat i * 1) - d)
   * NP.hamming_tap (2 * Z.of_nat k + 1) i)%R.

(** Magnitudes of the windowed sinc taps of [2k + 1] taps at distance [m]
    to the left of the centre (the centre included) and at distance [m + 1]
    to its right, without the common factor [sin(pi*d) / pi]. *)
Definition left_tap (k : nat) (d : R) (m : nat) : R :=
  (hamming_weight k m / (INR m + d))%R.

Definition right_tap (k : nat) (d : R) (m : nat) : R :=
  (hamming_weight k (S m) / (INR (S m) - d))%R.

Definition sinc_gain (d : R) : R := (sin (PI * d) / PI)%R.

(* ===================================================================== *)
(** * SymbolGenerator.py *)
(* ===================================================================== *)

(** [SymbolGenerator.py] works on integers: the symbols and bits are
    [int64] arrays.  Its pulse train is a [float64] array holding these
    integers and zeros; as it feeds [PulseShaper], it is a list of reals.
    The random choice of [np.random.choice] is a parameter. *)

(** [arr[::step] = values] on a one-dimensional array: the positions
    [0, step, 2*step, ...] for a positive step, [len-1, len-1+step, ...] for
    a negative one, receive the values in this order.  A single value
    broadcasts, any other length mismatch raises [ValueError], as does a
    zero step. *)
Definition strided_count (n step : Z) : Z :=
  if 0 <? step then (n + step - 1) / step else (n - step - 1) / (- step).

Definition set_strided (arr : list R) (step : Z) (values : list R)
  : result (list R) :=
  if step =? 0 then Raise ValueError
  else
    let n := len arr in
    if (len values =? strided_count n step) || (len values =? 1) then
      let value_at (slot : Z) : R :=
        if len values =? strided_count n step
        then nth (Z.to_nat slot) values 0%R else hd 0%R values in
      Ok (map (fun i : nat =>
                 let p := if 0 <? step then Z.of_nat i
                          else n - 1 - Z.of_nat i in
                 if p mod Z.abs step =? 0 then value_at (p / Z.abs step)
                 else nth i arr 0%R)
              (seq 0 (List.length arr)))
    else Raise ValueError.

(** The points of a marker plot over a window [start_idx, end_idx) of a
    signal with one marker every [step] samples (lines 39-41 of
    [SymbolGenerator.py], lines 142-143 and 158 of [TimingErrorDetector.py]):
    the positions [arange(0-check, end_idx-start_idx, step)] that are not
    negative, and the marker values
    [data[-(-start_idx//step):(end_idx-1)//step + 1]]. *)
Definition marker_points {A : Type} (data : list A) (step start_idx end_idx : Z)
  : result (list Z * list A) :=
  if step =? 0 then Raise ZeroDivisionError
  else
    let check := start_idx mod step in
    indexes <- np_arange (0 - check) (end_idx - start_idx) step ;;
    Ok (filter (fun z => 0 <=? z) indexes,
        py_slice data (Some (- ((- start_idx) / step)))
                      (Some ((end_idx - 1) / step + 1))).

Module SymbolGenerator.

(** The attributes of a [SymbolGenerator] object. *)
Record t : Type := mk {
  num_symbols : Z;
  sps : Z;
  symbol_stream : option (list Z);
  bit_stream : option (list Z);
  pulse_stream : option (list R)
}.

Section WithRandom.

(** The random source: draw [k] of [np.random.choice([-1, 1], size=n)]
    picks the entry of index 1 when [choice k] holds, of index 0 otherwise. *)
Variable choice : nat -> bool.

Definition np_random_choice (size : Z) : result (list Z) :=
  if size <? 0 then Raise ValueError
  else Ok (map (fun k => if choice k then 1 else -1)
               (seq 0 (Z.to_nat size))).

(** Lines 13-18. *)
Definition symbolstream (self : t) : result (t * list Z) :=
  symbol_stream <- np_random_choice self.(num_symbols) ;;
  let bit_stream := map (fun s => if 0 <? s then 1 else 0) symbol_stream in
  Ok (mk self.(num_symbols) self.(sps) (Some symbol_stream) (Some bit_stream)
         self.(pulse_stream), symbol_stream).

(** Lines 20-25. *)
Definition pulsestream (self : t) : result (t * list R) :=
  pulses <- NP.zeros (self.(num_symbols) * self.(sps)) ;;
  symbol_stream <- attr self.(symbol_stream) ;;
  pulses <- set_strided pulses self.(sps) (map IZR symbol_stream) ;;
  Ok (mk self.(num_symbols) self.(sps) self.(SymbolGenerator.symbol_stream)
         self.(bit_stream) (Some pulses), pulses).

(** Lines 5-11. *)
Definition init (num_symbols sps : Z) : result t :=
  let self := mk num_symbols sps None None None in
  '(self, _) <- symbolstream self ;;
  '(self, _) <- pulsestream self ;;
  Ok self.

End WithRandom.

(** Lines 32-41: the ['Bits'] markers of [plot_symbols]. *)
Definition plot_symbols_bits (self : t) (start_idx end_idx : option Z)
  : result (list Z * list Z) :=
  let start_idx := match start_idx with Some s => s | None => 0 end in
  end_idx <- (match end_idx with
              | Some e => Ok e
              | None => p <- attr self.(pulse_stream) ;; Ok (len p)
              end) ;;
  pulses <- attr self.(pulse_stream) ;;
  if self.(sps) =? 0 then Raise ZeroDivisionError
  else
    bits <- attr self.(bit_stream) ;;
    marker_points bits self.(sps) start_idx end_idx.

End SymbolGenerator.

(** Lines 136-158 of [TimingErrorDetector.py]: the ['Original Pulses']
    markers of [plot_interpolated] when [original] is given.  The window
    position is computed first, then the interpolated buffer is read for
    its own curve, then the markers are cut out of [original]. *)
Definition plot_interpolated_original (self : TED)
    (start_idx end_idx : option Z) (original : list scalar)
  : result (list Z * list scalar) :=
  let start_idx := match start_idx with Some s => s | None => 0 end in
  end_idx <- (match end_idx with
              | Some e => Ok e
              | None => p <- attr self.(interpolated_pulse) ;; Ok (len p)
              end) ;;
  if self.(upsample) =? 0 then Raise ZeroDivisionError
  else
    _ <- attr self.(interpolated_pulse) ;;
    marker_points original self.(upsample) start_idx end_idx.

(** Line 85: the symbol decision taken on a sample. *)
Definition decision (s : scalar) : float := F64.sign (Scalar.np_real s).

(** The relation [main] keeps between its traces: apart from the initial
    entries, every recorded sample is a sample of the buffer and every
    recorded symbol is the decision taken on the recorded sample. *)
Definition decisions_inv (buf : list scalar) (st : loop_state) : Prop :=
  tl st.(symbols_pred_l) = map decision (tl st.(out_signal_l))
  /\ (forall s, In s st.(out_signal_l) -> In s buf)
  /\ st.(out_signal_l) <> [] /\ st.(symbols_pred_l) <> [].


(** Entry [j] of the error trace [err], for the iteration that read [cur]
    at index [idx] of the buffer and [prev] one symbol period before it,
    with [symbol_prev] the decision of the iteration before: the value the
    selected detector gives (lines 70-82). *)
Definition error_entry (hypot pow : float -> float -> float) (self : TED)
    (buf : list scalar) (sps : Z) (error_eq : string) (delta : Z) (idx : Z)
    (cur prev : scalar) (symbol_prev : float) (j : nat) (err : list float)
  : Prop :=
  (error_eq = "mueller"%string ->
     nth j err 0%float = mueller_muller cur prev symbol_prev)
  /\ (error_eq = "gardner"%string ->
        exists h hi mid,
          F64.int_truediv (sps * self.(upsample)) 2 = Ok h
          /\ F64.to_int h = Ok hi
          /\ py_index buf (idx - hi) = Ok mid
          /\ nth j err 0%float = (- gardner cur prev mid)%float)
  /\ (error_eq = "earlylategate"%string ->
        exists q up shift,
          F64.int_truediv sps delta = Ok q
          /\ F64.of_int self.(upsample) = Ok up
          /\ F64.to_int (q * up)%float = Ok shift
          /\ if idx + shift >? len buf
             then (0 < j)%nat /\ nth j err 0%float = nth (j - 1) err 0%float
             else exists early late,
                    py_index buf (idx - shift) = Ok early
                    /\ py_index buf (idx + shift) = Ok late
                    /\ nth j err 0%float
                       = (- earlylategate hypot pow early late)%float).

(** The relation [main] keeps between its four traces. *)
Definition metric_inv (hypot pow : float -> float -> float) (self : TED)
    (buf : list scalar) (sps : Z) (error_eq : string) (delta : Z)
    (tau0 : float) (st : loop_state) : Prop :=
  exists k : nat,
    st.(i_cur) = sps * (Z.of_nat k + 1)
    /\ List.length st.(offset_l) = k
    /\ List.length st.(out_signal_l) = S k
    /\ List.length st.(symbols_pred_l) = S k
    /\ List.length st.(error_l) = k
    /\ st.(tau) = nth k (tau0 :: st.(offset_l)) 0%float
    /\ st.(symbol_prev) = nth k st.(symbols_pred_l) 0%float
    /\ (k <> O -> known_eq error_eq = true)
    /\ forall j, (j < k)%nat ->
         exists idx prev,
           offset_index self (sps * (Z.of_nat j + 1))
                        (nth j (tau0 :: st.(offset_l)) 0%float) = Ok idx
           /\ py_index buf idx = Ok (nth (S j) st.(out_signal_l) (F64 0))
           /\ py_index buf (idx - sps * self.(upsample)) = Ok prev
           /\ error_entry hypot pow self buf sps error_eq delta idx
                (nth (S j) st.(out_signal_l) (F64 0)) prev
                (nth j st.(symbols_pred_l) 0%float) j st.(error_l).
(* ===================================================================== *)
(** * Facts about the run-time layer *)
(* ===================================================================== *)

Lemma len_nonneg {A : Type} (l : list A) : 0 <= len l.
Proof. unfold len. lia. Qed.

Lemma len_app {A : Type} (l1 l2 : list A) : len (l1 ++ l2) = len l1 + len l2.
Proof. unfold len. rewrite length_app. lia. Qed.

Lemma length_append {A : Type} (l : list A) (x : A) :
  List.length (append l x) = S (List.length l).
Proof. unfold append. rewrite length_app. simpl. lia. Qed.

Lemma py_index_nonempty {A : Type} (l : list A) (i : Z) (x : A) :
  py_index l i = Ok x -> l <> [].
Proof.
  intros H Hnil. subst l. unfold py_index, len in H. simpl in H.
  destruct (i <? 0) eqn:Hi.
  - rewrite Z.add_0_r in H.
    assert (Hneg : (0 <=? i) = false) by (apply Z.leb_gt; apply Z.ltb_lt; exact Hi).
    rewrite Hneg in H. discriminate.
  - destruct (0 <=? i); simpl in H.
    + assert (Hlt : (i <? 0) = false) by exact Hi.
      rewrite Hlt in H. discriminate.
    + discriminate.
Qed.

Lemma nth_length_pred {A : Type} (l : list A) (d : A) :
  nth (List.length l - 1) l d = last l d.
Proof.
  induction l as [|a l IH]; [reflexivity|].
  destruct l as [|b l]; [reflexivity|].
  change (last (a :: b :: l) d) with (last (b :: l) d).
  rewrite <- IH. simpl. rewrite Nat.sub_0_r. reflexivity.
Qed.

Lemma py_index_last {A : Type} (l : list A) (d : A) :
  l <> [] -> py_index l (-1) = Ok (last l d).
Proof.
  intros Hne. unfold py_index.
  assert (Hlen : 0 < len l).
  { unfold len. destruct l; [congruence | simpl; lia]. }
  replace (-1 <? 0) with true by reflexivity.
  assert (H0 : (0 <=? -1 + len l) = true) by (apply Z.leb_le; lia).
  assert (H1 : (-1 + len l <? len l) = true) by (apply Z.ltb_lt; lia).
  rewrite H0, H1. cbn [andb].
  assert (Hn : Z.to_nat (-1 + len l) = (List.length l - 1)%nat)
    by (unfold len; lia).
  rewrite Hn.
  destruct (nth_error l (List.length l - 1)) eqn:E.
  - f_equal. rewrite <- (nth_error_nth _ _ d E).
    apply nth_length_pred.
  - apply nth_error_None in E. unfold len in Hlen. lia.
Qed.

Lemma bind_ok {A B : Type} (c : result A) (k : A -> result B) (b : B) :
  bind c k = Ok b -> exists a, c = Ok a /\ k a = Ok b.
Proof. destruct c; simpl; intros H; try discriminate. eauto. Qed.

Lemma py_index_0 {A : Type} (l : list A) (d : A) :
  l <> [] -> py_index l 0 = Ok (nth 0 l d).
Proof.
  destruct l as [|a l]; [congruence|]. intros _.
  unfold py_index, len. simpl List.length.
  replace (0 <? 0) with false by reflexivity.
  replace (0 <=? 0) with true by reflexivity.
  assert (H : (0 <? Z.of_nat (S (List.length l))) = true) by (apply Z.ltb_lt; lia).
  rewrite H. reflexivity.
Qed.

Lemma py_slice_beyond {A : Type} (l : list A) (a : Z) :
  0 <= a -> len l <= a -> py_slice l (Some a) None = [].
Proof.
  intros Ha Hl. unfold py_slice, slice_bound.
  assert (E : (a <? 0) = false) by (apply Z.ltb_ge; exact Ha).
  rewrite E. rewrite Z.min_r by exact Hl.
  rewrite Z.sub_diag. reflexivity.
Qed.

(** A few values of the run-time layer, as the Python interpreter gives
    them. *)
Example py_index_negative : py_index [10; 20; 30] (-1) = Ok 30.
Proof. reflexivity. Qed.

Example py_index_out_of_range : py_index [10; 20; 30] 3 = Raise IndexError.
Proof. reflexivity. Qed.

Example py_slice_minus_zero : py_slice [10; 20; 30] (Some 0) (Some (- 0)) = [].
Proof. reflexivity. Qed.

Example py_slice_inner : py_slice [10; 20; 30; 40; 50] (Some 1) (Some (-1)) = [20; 30; 40].
Proof. reflexivity. Qed.

Example np_arange_down : np_arange 42 (-1) (-8) = Ok [42; 34; 26; 18; 10; 2].
Proof. reflexivity. Qed.

Example to_int_truncates : F64.to_int (-3.75)%float = Ok (-3).
Proof. reflexivity. Qed.

Example int_truediv_third : F64.int_truediv 1 3 = Ok (1 / 3)%float.
Proof. reflexivity. Qed.

Example remainder_negative : F64.remainder (-0.5)%float 8 = 7.5%float.
Proof. reflexivity. Qed.

Example remainder_positive : F64.remainder 17.25%float 8 = 1.25%float.
Proof. reflexivity. Qed.

(** The remainder of a small negative number by 8 is 8 itself. *)
Example remainder_rounds_up : F64.remainder (-0x1p-60)%float 8 = 8%float.
Proof. reflexivity. Qed.

Ltac bind_inv H :=
  let a := fresh "a" in
  let Ha := fresh "Hstep" in
  apply bind_ok in H; destruct H as [a [Ha H]].

(* ===================================================================== *)
(** * The timing loop always stops *)
(* ===================================================================== *)

Lemma finished_bind {A B : Type} (c : result A) (k : A -> result B) :
  finished c -> (forall a, c = Ok a -> finished (k a)) -> finished (bind c k).
Proof.
  unfold finished. destruct c; simpl; intros Hc Hk; try congruence.
  apply Hk. reflexivity.
Qed.

Lemma finished_py_index {A : Type} (l : list A) (i : Z) : finished (py_index l i).
Proof.
  unfold finished, py_index.
  destruct ((0 <=? (if i <? 0 then i + len l else i)) &&
            ((if i <? 0 then i + len l else i) <? len l)); [|discriminate].
  destruct (nth_error l _); discriminate.
Qed.

Lemma finished_of_int z : finished (F64.of_int z).
Proof. unfold finished, F64.of_int. destruct (is_infinity _); discriminate. Qed.

Lemma finished_to_int f : finished (F64.to_int f).
Proof. unfold finished, F64.to_int. destruct (Prim2SF f); discriminate. Qed.

Lemma finished_int_truediv a b : finished (F64.int_truediv a b).
Proof.
  unfold finished, F64.int_truediv.
  destruct (b =? 0); [discriminate|].
  destruct (Z.abs a =? 0); [discriminate|].
  destruct (is_infinity _); discriminate.
Qed.

Create HintDb finished.
#[local] Hint Resolve finished_py_index finished_of_int finished_to_int
  finished_int_truediv : finished.

Ltac finished_step :=
  match goal with
  | |- finished (bind _ _) =>
      apply finished_bind; [auto with finished | intros ? _]
  | |- finished (Ok _) => discriminate
  | |- finished (Raise _) => discriminate
  | |- finished (if ?c then _ else _) => destruct c
  | |- finished _ => solve [auto with finished]
  end.

Section TimingLoop.

Variable hypot : float -> float -> float.
Variable pow : float -> float -> float.
Variables (self : TED) (buf : list scalar) (num_samples sps : Z).
Variables (error_eq : string) (gain Kp Ki : float) (delta : Z).
Variable use_pi : bool.

Lemma finished_append_error offset_cur val_cur val_prev st :
  finished (append_error hypot pow self buf sps error_eq delta offset_cur
                         val_cur val_prev st).
Proof. unfold append_error. repeat finished_step. Qed.

Lemma finished_main_body st :
  finished (main_body hypot pow self buf sps error_eq gain Kp Ki delta use_pi st).
Proof.
  unfold main_body, offset_index.
  apply finished_bind; [repeat finished_step | intros ? _].
  apply finished_bind; [repeat finished_step | intros ? _].
  apply finished_bind; [repeat finished_step | intros ? _].
  apply finished_bind; [apply finished_append_error | intros ? _].
  repeat finished_step.
Qed.

Lemma main_body_i_cur st st' :
  main_body hypot pow self buf sps error_eq gain Kp Ki delta use_pi st = Ok st' ->
  st'.(i_cur) = st.(i_cur) + sps.
Proof.
  unfold main_body. intros H. repeat bind_inv H. inversion H. reflexivity.
Qed.

(** Each iteration moves [i_cur] forward by [sps >= 1], so
    [num_samples - i_cur] bounds the number of iterations left. *)
Lemma main_loop_enough_fuel :
  0 < sps ->
  forall fuel st,
    num_samples - st.(i_cur) <= Z.of_nat fuel ->
    finished (main_loop hypot pow fuel self buf num_samples sps error_eq
                        gain Kp Ki delta use_pi st).
Proof.
  intros Hsps. induction fuel as [|fuel IH]; intros st Hfuel; simpl.
  - destruct (i_cur st <? num_samples) eqn:E; [|discriminate].
    apply Z.ltb_lt in E. lia.
  - destruct (i_cur st <? num_samples) eqn:E; [|discriminate].
    apply finished_bind; [apply finished_main_body|].
    intros st' Hst'. apply IH. rewrite (main_body_i_cur _ _ Hst'). lia.
Qed.

(* ------------------------------------------------------------------- *)
(** ** The traces grow by one entry per iteration *)
(* ------------------------------------------------------------------- *)

Lemma append_error_length offset_cur val_cur val_prev st e' :
  append_error hypot pow self buf sps error_eq delta offset_cur val_cur val_prev st
    = Ok e' ->
  (known_eq error_eq = true /\ List.length e' = S (List.length st.(error_l)))
  \/ (known_eq error_eq = false /\ e' = st.(error_l)).
Proof.
  unfold append_error, known_eq. intros H.
  destruct (String.eqb error_eq "mueller").
  { inversion H; subst. left. split; [reflexivity | apply length_append]. }
  destruct (String.eqb error_eq "gardner").
  { repeat bind_inv H. inversion H; subst. left.
    split; [reflexivity | apply length_append]. }
  destruct (String.eqb error_eq "earlylategate").
  { left. split; [reflexivity|]. repeat bind_inv H.
    destruct (offset_cur + a1 >? len buf).
    - repeat bind_inv H. inversion H; subst. apply length_append.
    - repeat bind_inv H. inversion H; subst. apply length_append. }
  inversion H. right. split; reflexivity.
Qed.

Lemma main_body_inv sp0 st st' k :
  main_body hypot pow self buf sps error_eq gain Kp Ki delta use_pi st = Ok st' ->
  st.(i_cur) < num_samples ->
  trace_inv sps num_samples error_eq sp0 st k ->
  trace_inv sps num_samples error_eq sp0 st' (S k).
Proof.
  unfold main_body. intros H Hlt [Hi Hb Hk He Ho Hs Hout Hf].
  repeat bind_inv H. inversion H; subst st'; clear H.
  assert (Hlen : known_eq error_eq = true /\ List.length a2 = S k).
  { destruct (append_error_length _ _ _ _ _ Hstep2) as [[E1 E2]|[E1 E2]].
    - split; [exact E1 | lia].
    - subst a2. apply py_index_nonempty in Hstep3.
      assert (Hk0 : k <> O)
        by (destruct (error_l st); [congruence | simpl in He; lia]).
      rewrite (Hk Hk0) in E1. discriminate. }
  destruct Hlen as [Hknown Hlen].
  constructor; simpl.
  - rewrite Hi. lia.
  - rewrite Hi in Hlt. lia.
  - intros _. exact Hknown.
  - exact Hlen.
  - rewrite length_append. lia.
  - rewrite length_append. lia.
  - rewrite length_append. lia.
  - unfold append. destruct (symbols_pred_l st); [simpl in Hs; lia | exact Hf].
Qed.

Lemma main_loop_inv sp0 :
  forall fuel st st' k,
    main_loop hypot pow fuel self buf num_samples sps error_eq gain Kp Ki delta
              use_pi st = Ok st' ->
    trace_inv sps num_samples error_eq sp0 st k ->
    exists k', trace_inv sps num_samples error_eq sp0 st' k'
               /\ num_samples <= st'.(i_cur).
Proof.
  induction fuel as [|fuel IH]; intros st st' k H Hinv; simpl in H.
  - destruct (i_cur st <? num_samples) eqn:E; [discriminate|].
    inversion H; subst. exists k.
    split; [exact Hinv | apply Z.ltb_ge; exact E].
  - destruct (i_cur st <? num_samples) eqn:E.
    + bind_inv H. apply Z.ltb_lt in E.
      eapply IH; [exact H|]. eapply main_body_inv; eauto.
    + inversion H; subst. exists k.
      split; [exact Hinv | apply Z.ltb_ge; exact E].
Qed.

End TimingLoop.

(** With [sps > 0] the fuel [main] gives its loop is never exhausted: the
    model of [main] returns or raises, as the Python loop does. *)
Lemma main_enough_fuel hypot pow self num_samples sps error_eq tau gain Kp Ki
    delta symbol_prev use_pi :
  0 < sps ->
  main hypot pow self num_samples sps error_eq tau gain Kp Ki delta symbol_prev
       use_pi <> OutOfFuel.
Proof.
  intros Hsps.
  change (finished (main hypot pow self num_samples sps error_eq tau gain Kp Ki
                         delta symbol_prev use_pi)).
  unfold main.
  apply finished_bind;
    [destruct (interpolated_pulse self); discriminate | intros buf _].
  apply finished_bind; [apply finished_py_index | intros first _].
  apply finished_bind; [|intros; discriminate].
  apply main_loop_enough_fuel; [exact Hsps | simpl; lia].
Qed.

(** The positive multiples of [sps] below [n] are [sps, ..., q*sps] with
    [q = (n-1) / sps]. *)
Lemma multiples_below_div sps n :
  0 < sps -> 0 < n -> Z.of_nat (multiples_below sps n) = (n - 1) / sps.
Proof.
  intros Hsps Hn. unfold multiples_below.
  assert (G : forall m : nat,
    Z.of_nat (List.length (filter (fun j => j mod sps =? 0)
                                  (map Z.of_nat (seq 1 m))))
    = Z.of_nat m / sps).
  { induction m as [|m IH].
    - simpl. rewrite Z.div_0_l by lia. reflexivity.
    - rewrite seq_S, map_app, filter_app, length_app, Nat2Z.inj_add, IH.
      simpl. replace (Z.of_nat (S m)) with (Z.of_nat m + 1) by lia.
      replace (Z.pos (Pos.of_succ_nat m)) with (Z.of_nat m + 1) by lia.
      pose proof (Z.div_mod (Z.of_nat m) sps ltac:(lia)) as D1.
      pose proof (Z.mod_pos_bound (Z.of_nat m) sps Hsps) as B1.
      pose proof (Z.div_mod (Z.of_nat m + 1) sps ltac:(lia)) as D2.
      pose proof (Z.mod_pos_bound (Z.of_nat m + 1) sps Hsps) as B2.
      destruct ((Z.of_nat m + 1) mod sps =? 0) eqn:E.
      + apply Z.eqb_eq in E. simpl. nia.
      + apply Z.eqb_neq in E. simpl. nia. }
  rewrite G. f_equal. lia.
Qed.

(* ===================================================================== *)
(** * TimingErrorDetector: the claims *)
(* ===================================================================== *)

Lemma hold_resampler_length (x : list scalar) (up : Z) :
  0 < up -> len (hold_resampler x up 1) = len x * up.
Proof.
  intros Hup. unfold hold_resampler, len.
  induction x as [|s x IH]; [reflexivity|].
  simpl flat_map. rewrite length_app, repeat_length.
  rewrite Nat2Z.inj_add, IH. simpl List.length. lia.
Qed.

(** C1.  [interpolator] does not resample by the configured factor: it calls
    the resampler with the constant 32, so for every resampler with the
    output length of [resample_poly], every non-empty signal and every
    configured factor other than 32 the buffer has [32 * len(signal)]
    samples and not [upsample * len(signal)].  The index of the current
    sample is [upsample * i_cur + int(tau * upsample)], a truncation: with
    [upsample = 32], [i_cur = 8] and [tau = 0.0234375], where
    [tau * upsample = 0.75], the loop reads index 256 and not 257. *)
Theorem interpolator_ignores_configured_factor
    (resample_poly : list scalar -> Z -> Z -> list scalar)
    (self : TED) (signal : list scalar) :
  (forall x up, 0 < up -> len (resample_poly x up 1) = len x * up) ->
  signal <> [] ->
  self.(upsample) <> 32 ->
  len (snd (interpolator resample_poly self signal)) = 32 * len signal
  /\ len (snd (interpolator resample_poly self signal))
     <> self.(upsample) * len signal
  /\ offset_index (TED_init 32) 8 0x1.8p-6%float = Ok 256.
Proof.
  intros Hlen Hne Hup. unfold interpolator. simpl snd.
  rewrite Hlen by lia.
  assert (Hpos : 0 < len signal).
  { unfold len. destruct signal; [congruence | simpl; lia]. }
  split; [lia|]. split; [nia|]. vm_compute. reflexivity.
Qed.

Lemma interpolator_ignores_configured_factor_witness :
  len (snd (interpolator hold_resampler (TED_init 16)
              [F64 1; F64 2; F64 3; F64 4])) = 32 * 4
  /\ len (snd (interpolator hold_resampler (TED_init 16)
                 [F64 1; F64 2; F64 3; F64 4])) <> 16 * 4
  /\ offset_index (TED_init 32) 8 0x1.8p-6%float = Ok 256.
Proof.
  apply (interpolator_ignores_configured_factor hold_resampler (TED_init 16)
           [F64 1; F64 2; F64 3; F64 4]).
  - intros x up Hup. apply hold_resampler_length. exact Hup.
  - discriminate.
  - simpl. lia.
Defined.

Lemma py_index_raises {A : Type} (l : list A) (i : Z) (e : exn) :
  py_index l i = Raise e -> e = IndexError.
Proof.
  unfold py_index.
  destruct ((0 <=? (if i <? 0 then i + len l else i)) &&
            ((if i <? 0 then i + len l else i) <? len l)).
  - destruct (nth_error l _); [discriminate | congruence].
  - congruence.
Qed.

Lemma py_index_len {A : Type} (l : list A) : py_index l (len l) = Raise IndexError.
Proof.
  unfold py_index. pose proof (len_nonneg l) as H.
  assert (E : (len l <? 0) = false) by (apply Z.ltb_ge; exact H).
  rewrite E. rewrite Z.ltb_irrefl, andb_false_r. reflexivity.
Qed.

(** The guard of the Early-Late Gate branch is off by one: whenever the
    late sample lies exactly one past the end of the buffer, the branch
    raises [IndexError]. *)
Lemma earlylategate_guard_off_by_one hypot pow self buf sps delta offset_cur
    val_cur val_prev st q up shift :
  F64.int_truediv sps delta = Ok q ->
  F64.of_int self.(upsample) = Ok up ->
  F64.to_int (q * up)%float = Ok shift ->
  offset_cur + shift = len buf ->
  append_error hypot pow self buf sps "earlylategate" delta offset_cur
               val_cur val_prev st = Raise IndexError.
Proof.
  intros Hq Hup Hshift Hlen. unfold append_error.
  change (String.eqb "earlylategate" "mueller") with false.
  change (String.eqb "earlylategate" "gardner") with false.
  change (String.eqb "earlylategate" "earlylategate") with true.
  cbn iota. rewrite Hq. cbn [bind]. rewrite Hup. cbn [bind].
  rewrite Hshift. cbn [bind].
  assert (E : (offset_cur + shift >? len buf) = false).
  { rewrite Hlen, Z.gtb_ltb. apply Z.ltb_irrefl. }
  rewrite E. rewrite Hlen, py_index_len.
  destruct (py_index buf (offset_cur - shift)) as [x|e|] eqn:Ei.
  - reflexivity.
  - simpl. f_equal. eapply py_index_raises. exact Ei.
  - exfalso. apply (finished_py_index buf (offset_cur - shift)). exact Ei.
Qed.

(** On the first iteration the error list is empty: when the guard of the
    Early-Late Gate branch holds there, [error[-1]] raises [IndexError]. *)
Lemma earlylategate_first_iteration hypot pow self buf sps delta offset_cur
    val_cur val_prev st q up shift :
  F64.int_truediv sps delta = Ok q ->
  F64.of_int self.(upsample) = Ok up ->
  F64.to_int (q * up)%float = Ok shift ->
  len buf < offset_cur + shift ->
  st.(error_l) = [] ->
  append_error hypot pow self buf sps "earlylategate" delta offset_cur
               val_cur val_prev st = Raise IndexError.
Proof.
  intros Hq Hup Hshift Hlen Hnil. unfold append_error.
  change (String.eqb "earlylategate" "mueller") with false.
  change (String.eqb "earlylategate" "gardner") with false.
  change (String.eqb "earlylategate" "earlylategate") with true.
  cbn iota. rewrite Hq. cbn [bind]. rewrite Hup. cbn [bind].
  rewrite Hshift. cbn [bind].
  assert (E : (offset_cur + shift >? len buf) = true).
  { apply Z.gtb_lt. exact Hlen. }
  rewrite E, Hnil. reflexivity.
Qed.

(** C2.  The Early-Late Gate branch fails at both boundary cases of the
    claim.  With [sps = 8], [delta = 4] and factor 32 the forward shift is
    64 and the first iteration reads at offset 256.  On a buffer of 320
    samples [offset_cur + shift] equals the buffer length: the guard
    [offset_cur + shift > len] is false and [buffer[320]] raises
    [IndexError].  On a buffer of 288 samples the guard is true on the first
    iteration, when the error list is still empty, and [error[-1]] raises
    [IndexError]. *)
Theorem earlylategate_boundary_raises (hypot pow : float -> float -> float) :
  main hypot pow (ted_ones 10) 10 8 "earlylategate" default_tau default_gain
       default_Kp default_Ki default_delta default_symbol_prev false
    = Raise IndexError
  /\ main hypot pow (ted_ones 9) 9 8 "earlylategate" default_tau default_gain
          default_Kp default_Ki default_delta default_symbol_prev false
    = Raise IndexError.
Proof. split; vm_compute; reflexivity. Qed.

(** C3.  [results] has no check of the run length.  When the true symbols
    and the recorded decisions both have at most 30 entries, discarding the
    preamble leaves two empty arrays, the statistics are [0/0] and the call
    returns [(nan, nan, offset[-1])] instead of raising. *)
Theorem results_short_run_returns_nan (self : TED) (symbols : list Z)
    (pred off : list float) :
  self.(symbols_pred) = Some pred ->
  self.(offset) = Some off ->
  off <> [] ->
  len symbols <= 30 ->
  len pred <= 30 ->
  results self symbols false = Ok (nan, nan, last off 0%float).
Proof.
  intros Hp Ho Hne Hs Hl. unfold results. rewrite Hp, Ho. simpl attr.
  cbn [bind].
  rewrite (py_slice_beyond pred 30) by (assumption || lia).
  rewrite (py_slice_beyond symbols 30) by (assumption || lia).
  cbn [np_sum_eq len List.length Z.of_nat Z.eqb bind count_eq].
  rewrite (py_index_last off 0%float Hne). reflexivity.
Qed.

Lemma results_short_run_returns_nan_witness :
  results ted_after_short_run (repeat 1 30) false = Ok (nan, nan, 0%float).
Proof.
  apply (results_short_run_returns_nan ted_after_short_run (repeat 1 30)
           (repeat 1%float 30) (repeat 0%float 29)).
  - reflexivity.
  - reflexivity.
  - discriminate.
  - vm_compute. discriminate.
  - vm_compute. discriminate.
Defined.

(** C4.  The wrap [tau %= sps] is a binary64 remainder: for a slightly
    negative [tau] the exact result [tau + sps] rounds to [sps] itself.  On
    a buffer whose first sample is [2^-53] the first Mueller-Muller error
    is [-2^-53], [tau] becomes [0.1 * -2^-53] and the recorded offset is
    [8.0 = sps], outside [0, sps).  With one more symbol in the buffer the
    next iteration reads at [16*32 + int(8.0*32) = 768], the buffer length,
    and raises [IndexError]. *)
Theorem tau_wrap_reaches_sps (hypot pow : float -> float -> float) :
  (exists self' off err syms out,
     main hypot pow (ted_tiny_head 16) 16 8 "mueller" default_tau default_gain
          default_Kp default_Ki default_delta default_symbol_prev false
       = Ok (self', (off, err, syms, out))
     /\ off = [8%float]
     /\ forallb (in_phase_range 8) off = false)
  /\ main hypot pow (ted_tiny_head 24) 24 8 "mueller" default_tau default_gain
          default_Kp default_Ki default_delta default_symbol_prev false
     = Raise IndexError.
Proof.
  split.
  - eexists; eexists; eexists; eexists; eexists.
    split; [vm_compute; reflexivity|]. split; reflexivity.
  - vm_compute. reflexivity.
Qed.

(** C10.  When [main] returns on a run with [num_samples > sps > 0], the
    error and offset traces have [N] entries, [N] the number of values
    [sps, 2*sps, ...] below [num_samples] (one per iteration), the
    [symbols_pred] and [out_signal] traces have [N + 1] entries and
    [symbols_pred[0]] is the initial [symbol_prev] of the caller. *)
Theorem main_trace_lengths hypot pow self num_samples sps error_eq tau gain Kp Ki
    delta symbol_prev use_pi self' off err syms out :
  0 < sps < num_samples ->
  main hypot pow self num_samples sps error_eq tau gain Kp Ki delta symbol_prev
       use_pi = Ok (self', (off, err, syms, out)) ->
  let N := multiples_below sps num_samples in
  List.length err = N /\ List.length off = N /\
  List.length syms = S N /\ List.length out = S N /\
  py_index syms 0 = Ok symbol_prev.
Proof.
  intros Hs H N. unfold main in H.
  bind_inv H. bind_inv H. bind_inv H. inversion H; subst; clear H.
  assert (Hinv0 : trace_inv sps num_samples error_eq symbol_prev
            (mkLoop sps tau 0%float symbol_prev [] [] [symbol_prev] [a0]) O).
  { constructor; simpl; try reflexivity; try lia. }
  destruct (main_loop_inv _ _ _ _ _ _ _ _ _ _ _ _ _ _ _ _ _ Hstep1 Hinv0)
    as [k [[Hi Hb Hk He Ho Hsy Hout Hf] Hexit]].
  assert (HN : N = k).
  { apply Nat2Z.inj. unfold N. rewrite multiples_below_div by lia.
    symmetry.
    apply Z.div_unique with (r := num_samples - 1 - sps * Z.of_nat k); lia. }
  rewrite HN. repeat split; try assumption.
  rewrite <- Hf. apply py_index_0.
  destruct (symbols_pred_l a1); [discriminate | congruence].
Qed.

Lemma main_trace_lengths_witness :
  exists self' off err syms out,
    main (fun _ _ => 0%float) pow_on_integers ted_small 6 2 "mueller" default_tau default_gain
         default_Kp default_Ki default_delta default_symbol_prev false
      = Ok (self', (off, err, syms, out)) /\
    List.length err = 2%nat /\ List.length off = 2%nat /\
    List.length syms = 3%nat /\ List.length out = 3%nat /\
    py_index syms 0 = Ok default_symbol_prev.
Proof.
  eexists; eexists; eexists; eexists; eexists.
  split; [vm_compute; reflexivity|].
  eapply (main_trace_lengths (fun _ _ => 0%float) pow_on_integers ted_small 6 2 "mueller"
            default_tau default_gain default_Kp default_Ki default_delta
            default_symbol_prev false).
  - lia.
  - vm_compute; reflexivity.
Defined.

(* ===================================================================== *)
(** * Lists, slices and convolution lengths *)
(* ===================================================================== *)

Lemma len_pos {A : Type} (l : list A) : l <> [] -> 0 < len l.
Proof. unfold len. destruct l; [congruence | simpl; lia]. Qed.

Lemma nth_firstn_lt {A : Type} (l : list A) (d : A) :
  forall n i, (i < n)%nat -> nth i (firstn n l) d = nth i l d.
Proof.
  induction l as [|a l IH]; intros n i Hi.
  - rewrite firstn_nil. reflexivity.
  - destruct n; [lia|]. destruct i; [reflexivity|]. simpl. apply IH. lia.
Qed.

Lemma convolve_length (a v : list R) :
  a <> [] -> v <> [] ->
  exists out, NP.convolve a v = Ok out /\ len out = len a + len v - 1.
Proof.
  intros Ha Hv. unfold NP.convolve.
  destruct (len a <? len v).
  - destruct v as [|y v]; [congruence|]. destruct a as [|x a]; [congruence|].
    eexists. split; [reflexivity|].
    unfold len. rewrite length_map, length_seq. simpl List.length. lia.
  - destruct a as [|x a]; [congruence|]. destruct v as [|y v]; [congruence|].
    eexists. split; [reflexivity|].
    unfold len. rewrite length_map, length_seq. simpl List.length. lia.
Qed.

(** [l[k:-k]] for [k >= 1]. *)
Lemma py_slice_trim {A : Type} (l : list A) (k : Z) :
  0 < k -> 2 * k <= len l ->
  py_slice l (Some k) (Some (- k))
  = firstn (Z.to_nat (len l - 2 * k)) (skipn (Z.to_nat k) l).
Proof.
  intros Hk Hl. unfold py_slice, slice_bound.
  assert (E1 : (k <? 0) = false) by (apply Z.ltb_ge; lia).
  assert (E2 : (- k <? 0) = true) by (apply Z.ltb_lt; lia).
  rewrite E1, E2. rewrite Z.min_l by lia. rewrite Z.max_l by lia.
  f_equal. lia.
Qed.

Lemma trim_decompose {A : Type} (l : list A) (k : Z) :
  0 <= k -> 2 * k <= len l ->
  let mid := firstn (Z.to_nat (len l - 2 * k)) (skipn (Z.to_nat k) l) in
  exists pre post,
    l = pre ++ mid ++ post /\ len pre = k /\ len post = k
    /\ len mid = len l - 2 * k.
Proof.
  intros Hk Hl mid.
  exists (firstn (Z.to_nat k) l),
         (skipn (Z.to_nat (len l - 2 * k)) (skipn (Z.to_nat k) l)).
  unfold mid. rewrite firstn_skipn, firstn_skipn.
  unfold len in *. rewrite !length_firstn, !length_skipn.
  repeat split; lia.
Qed.

(** [l[:-d]] for [1 <= d <= len(l)]. *)
Lemma py_slice_drop_last {A : Type} (l : list A) (d : Z) :
  0 < d -> d <= len l ->
  py_slice l None (Some (- d)) = firstn (Z.to_nat (len l - d)) l.
Proof.
  intros Hd Hl. unfold py_slice, slice_bound.
  assert (E : (- d <? 0) = true) by (apply Z.ltb_lt; lia).
  rewrite E. rewrite Z.max_l by lia. rewrite Z.sub_0_r.
  change (Z.to_nat 0) with O. rewrite skipn_O. f_equal. lia.
Qed.

Lemma odd_half (N : Z) :
  Z.odd N = true ->
  exists k, N = 2 * k + 1 /\ (N - 1) / 2 = k /\ (- (N - 1)) / 2 = - k.
Proof.
  intros Hodd. rewrite Z.odd_spec in Hodd. destruct Hodd as [k Hk].
  exists k. split; [exact Hk|]. subst N. split.
  - replace (2 * k + 1 - 1) with (k * 2) by lia. apply Z.div_mul. lia.
  - replace (- (2 * k + 1 - 1)) with ((- k) * 2) by lia. apply Z.div_mul. lia.
Qed.

(* ===================================================================== *)
(** * PulseShaper: pulse shaping and the integer delay *)
(* ===================================================================== *)

(** C6, as stated, fails twice: an empty pulse train is refused by
    [np.convolve], and with one tap the default trimming slice is [[0:-0]],
    which is empty. *)
Lemma pulseshaping_length_counterexample :
  PulseShaper.pulseshaping ps_one_tap [] true = Raise ValueError
  /\ PulseShaper.pulseshaping ps_one_tap [1%R; (-1)%R] false
     = Ok (PulseShaper.set_pulse_shaped ps_one_tap [], [])
  /\ len (@nil R) <> len [1%R; (-1)%R].
Proof. split; [reflexivity | split; [reflexivity | discriminate]]. Qed.

(** C6, amended.  For a non-empty pulse train and an odd tap count,
    [pulseshaping] with [keep_edges=True] returns the full convolution, of
    length [len(input) + tap_count - 1]; with [keep_edges=False] and at least
    three taps it returns that convolution without its first and last
    [(tap_count-1)/2] samples, so [len(input)] samples. *)
Theorem pulseshaping_lengths (self : PulseShaper.t) (pulses rc : list R) :
  PulseShaper.raised_cosine self = Some rc ->
  len rc = PulseShaper.rc_taps self ->
  Z.odd (PulseShaper.rc_taps self) = true ->
  pulses <> [] ->
  exists full,
    PulseShaper.pulseshaping self pulses true
      = Ok (PulseShaper.set_pulse_shaped self full, full)
    /\ len full = len pulses + PulseShaper.rc_taps self - 1
    /\ (3 <= PulseShaper.rc_taps self ->
        exists pre shaped post,
          PulseShaper.pulseshaping self pulses false
            = Ok (PulseShaper.set_pulse_shaped self shaped, shaped)
          /\ full = pre ++ shaped ++ post
          /\ len pre = (PulseShaper.rc_taps self - 1) / 2
          /\ len post = (PulseShaper.rc_taps self - 1) / 2
          /\ len shaped = len pulses).
Proof.
  intros Hrc Hlen Hodd Hp.
  set (N := PulseShaper.rc_taps self) in *.
  destruct (odd_half N Hodd) as [k [HN [Hk1 Hk2]]].
  pose proof (len_nonneg rc) as Hrc0.
  pose proof (len_pos pulses Hp) as Hpp.
  assert (Hrcne : rc <> []).
  { intros E. subst rc. unfold len in Hlen. simpl in Hlen. lia. }
  destruct (convolve_length pulses rc Hp Hrcne) as [full [Hconv Hfull]].
  exists full. unfold PulseShaper.pulseshaping. rewrite Hrc. cbn [attr bind].
  rewrite Hconv. cbn [bind negb].
  split; [reflexivity|]. split; [lia|].
  intros H3. fold N in H3. fold N. rewrite Hk1, Hk2.
  rewrite py_slice_trim by lia.
  destruct (trim_decompose full k ltac:(lia) ltac:(lia))
    as [pre [post [E1 [E2 [E3 E4]]]]].
  exists pre, (firstn (Z.to_nat (len full - 2 * k)) (skipn (Z.to_nat k) full)),
         post.
  repeat split; try assumption. lia.
Qed.

Lemma pulseshaping_lengths_witness :
  exists full,
    PulseShaper.pulseshaping ps_three_taps [1%R; (-1)%R] true
      = Ok (PulseShaper.set_pulse_shaped ps_three_taps full, full)
    /\ len full = len [1%R; (-1)%R] + 3 - 1
    /\ (3 <= 3 ->
        exists pre shaped post,
          PulseShaper.pulseshaping ps_three_taps [1%R; (-1)%R] false
            = Ok (PulseShaper.set_pulse_shaped ps_three_taps shaped, shaped)
          /\ full = pre ++ shaped ++ post
          /\ len pre = (3 - 1) / 2
          /\ len post = (3 - 1) / 2
          /\ len shaped = len [1%R; (-1)%R]).
Proof.
  apply (pulseshaping_lengths ps_three_taps [1%R; (-1)%R] [0%R; 1%R; 0%R]).
  - reflexivity.
  - reflexivity.
  - reflexivity.
  - discriminate.
Defined.

(** C7, as stated, fails for a delay longer than the signal: three samples
    delayed by five come back as five zeros. *)
Lemma integer_delay_counterexample :
  PulseShaper.integer_delay (ps_delay 5) = Ok (repeat 0%R 5)
  /\ len (repeat 0%R 5) <> len [1%R; 2%R; 3%R].
Proof. split; [reflexivity | discriminate]. Qed.

(** C7, amended.  For a delay [0 <= d <= len(signal)] the integer-delay
    stage returns a buffer of the same length whose first [d] entries are
    zero and whose entry [i >= d] is the input entry [i - d]; when no
    fractional delay is requested [fractionaldelay] returns that buffer
    unchanged. *)
Theorem integer_delay_shift (self : PulseShaper.t) (x : list R) (d : Z) :
  PulseShaper.pulse_shaped self = Some x ->
  PulseShaper.int_delay self = Some d ->
  0 <= d <= len x ->
  exists y,
    PulseShaper.integer_delay self = Ok y
    /\ len y = len x
    /\ (forall i, (i < Z.to_nat d)%nat -> nth i y 0%R = 0%R)
    /\ (forall i, (Z.to_nat d <= i < List.length x)%nat ->
                  nth i y 0%R = nth (i - Z.to_nat d) x 0%R)
    /\ (PulseShaper.truthy_float (PulseShaper.frac_delay self) = None ->
        forall keep_edges,
          PulseShaper.fractionaldelay self keep_edges
          = Ok (PulseShaper.set_pulse_shaped_delayed self y, y)).
Proof.
  intros Hx Hd Hr.
  assert (Hfrac : forall y, PulseShaper.integer_delay self = Ok y ->
            PulseShaper.truthy_float (PulseShaper.frac_delay self) = None ->
            forall keep_edges, PulseShaper.fractionaldelay self keep_edges
              = Ok (PulseShaper.set_pulse_shaped_delayed self y, y)).
  { intros y Hy Hnone keep. unfold PulseShaper.fractionaldelay.
    rewrite Hy, Hnone. reflexivity. }
  unfold PulseShaper.integer_delay in *. rewrite Hd, Hx in *.
  unfold PulseShaper.truthy_int in *.
  destruct (d =? 0) eqn:E.
  - apply Z.eqb_eq in E. subst d. exists x. simpl attr in *.
    split; [reflexivity|]. split; [reflexivity|].
    split; [intros i Hi; simpl in Hi; lia|].
    split; [intros i Hi; simpl; rewrite Nat.sub_0_r; reflexivity|].
    apply Hfrac. reflexivity.
  - apply Z.eqb_neq in E. unfold NP.zeros in *.
    assert (E0 : (d <? 0) = false) by (apply Z.ltb_ge; lia).
    rewrite E0 in *. cbn [bind attr] in *.
    rewrite py_slice_drop_last in * by lia.
    eexists. split; [reflexivity|].
    split.
    { rewrite len_app. unfold len. rewrite repeat_length, length_firstn.
      unfold len in Hr. lia. }
    split.
    { intros i Hi. rewrite app_nth1 by (rewrite repeat_length; exact Hi).
      apply nth_repeat. }
    split.
    { intros i Hi. rewrite app_nth2 by (rewrite repeat_length; lia).
      rewrite repeat_length. apply nth_firstn_lt. unfold len. lia. }
    apply Hfrac. reflexivity.
Qed.

Lemma integer_delay_shift_witness :
  exists y,
    PulseShaper.integer_delay (ps_delay 2) = Ok y
    /\ len y = len [1%R; 2%R; 3%R]
    /\ (forall i, (i < Z.to_nat 2)%nat -> nth i y 0%R = 0%R)
    /\ (forall i, (Z.to_nat 2 <= i < List.length [1%R; 2%R; 3%R])%nat ->
                  nth i y 0%R = nth (i - Z.to_nat 2) [1%R; 2%R; 3%R] 0%R)
    /\ (PulseShaper.truthy_float (PulseShaper.frac_delay (ps_delay 2)) = None ->
        forall keep_edges,
          PulseShaper.fractionaldelay (ps_delay 2) keep_edges
          = Ok (PulseShaper.set_pulse_shaped_delayed (ps_delay 2) y, y)).
Proof.
  apply (integer_delay_shift (ps_delay 2) [1%R; 2%R; 3%R] 2).
  - reflexivity.
  - reflexivity.
  - vm_compute. split; discriminate.
Defined.

(* ===================================================================== *)
(** * PulseShaper: noise on a silent signal *)
(* ===================================================================== *)

(** ** Zeros in binary64 *)

(** What the IEEE-754 operations do on zeros, read off their specification
    in [SpecFloat]. *)

Lemma zero_is_a_zero : is_a_zero 0.
Proof. exists false. reflexivity. Qed.

(** A finite number is a zero or has a sign, a mantissa and an exponent. *)
Lemma is_finite_shape (x : float) :
  is_finite x = true ->
  (exists s, Prim2SF x = S754_zero s)
  \/ (exists s m e, Prim2SF x = S754_finite s m e).
Proof.
  unfold is_finite, is_nan, is_infinity. rewrite !eqb_spec, abs_spec.
  change (Prim2SF infinity) with (S754_infinity false).
  destruct (Prim2SF x) as [s|s| |s m e]; intros H.
  - left. exists s. reflexivity.
  - destruct s; cbv in H; discriminate H.
  - cbv in H. discriminate H.
  - right. do 3 eexists. reflexivity.
Qed.

Lemma mul_zero_finite (z c : float) :
  is_a_zero z -> is_finite c = true -> is_a_zero (z * c).
Proof.
  intros [sz Hz] Hc. unfold is_a_zero. rewrite mul_spec, Hz.
  destruct (is_finite_shape c Hc) as [[s E]|[s [m [e E]]]]; rewrite E;
    eexists; reflexivity.
Qed.

Lemma sub_zeros (a b : float) : is_a_zero a -> is_a_zero b -> is_a_zero (a - b).
Proof.
  intros [sa Ha] [sb Hb]. unfold is_a_zero. rewrite sub_spec, Ha, Hb.
  destruct sa, sb; eexists; reflexivity.
Qed.

Lemma add_zeros (a b : float) : is_a_zero a -> is_a_zero b -> is_a_zero (a + b).
Proof.
  intros [sa Ha] [sb Hb]. unfold is_a_zero. rewrite add_spec, Ha, Hb.
  destruct sa, sb; eexists; reflexivity.
Qed.

(** [+0.0] plus a zero of either sign is [+0.0]. *)
Lemma pos_zero_add_zero (z : float) : is_a_zero z -> (0 + z)%float = 0%float.
Proof.
  intros [s Hz]. apply Prim2SF_inj. rewrite add_spec, Hz.
  destruct s; reflexivity.
Qed.

(** Adding a zero gives the number back, except that [-0.0 + (+0.0)] is
    [+0.0]. *)
Lemma add_zero_carries (a z : float) :
  is_a_zero z ->
  (a + z)%float = a \/ (a = neg_zero /\ (a + z)%float = 0%float).
Proof.
  intros [s Hz].
  destruct (Prim2SF a) as [sa|sa| |sa m e] eqn:Ha.
  - destruct sa, s.
    + left. apply Prim2SF_inj. rewrite add_spec, Ha, Hz. reflexivity.
    + right. split; apply Prim2SF_inj; [exact Ha|].
      rewrite add_spec, Ha, Hz. reflexivity.
    + left. apply Prim2SF_inj. rewrite add_spec, Ha, Hz. reflexivity.
    + left. apply Prim2SF_inj. rewrite add_spec, Ha, Hz. reflexivity.
  - left. apply Prim2SF_inj. rewrite add_spec, Ha, Hz. reflexivity.
  - left. apply Prim2SF_inj. rewrite add_spec, Ha, Hz. reflexivity.
  - left. apply Prim2SF_inj. rewrite add_spec, Ha, Hz. reflexivity.
Qed.

(** Zero divided by a positive number, infinite or not, is [+0.0]. *)
Lemma zero_div_positive (p : float) :
  (0 <? p)%float = true -> (0 / p)%float = 0%float.
Proof.
  intros H. apply Prim2SF_inj. rewrite div_spec.
  rewrite ltb_spec in H. change (Prim2SF 0) with (S754_zero false) in *.
  destruct (Prim2SF p) as [s|s| |s m e]; try discriminate;
    destruct s; try discriminate; reflexivity.
Qed.

(** A property of every pairing of a sample with an indexed draw holds
    between the signal and the combined list. *)
Lemma forall2_indexed {A B C : Type} (P : A -> C -> Prop) (f : A * B -> C)
    (g : nat -> B) (x : list A) :
  forall s,
    (forall k a, (s <= k < s + List.length x)%nat -> P a (f (a, g k))) ->
    Forall2 P x (map f (combine x (map g (seq s (List.length x))))).
Proof.
  induction x as [|a x IH]; intros s H; [constructor|].
  simpl. constructor.
  - apply H. simpl. lia.
  - apply IH. intros k b Hk. apply H. simpl. lia.
Qed.

(** ** The silent signal *)

Section ZeroPower.

Variable pow : float -> float -> float.
Variable mean_square : list float -> float.
Variable gauss : nat -> float.

(** C9 (amended).  For a delayed signal whose mean squared amplitude is
    [0.0] and an SNR at which [10**(snr/10)] is computed as a positive number
    (it neither raises [OverflowError] nor underflows to zero), [noise]
    returns, stores its result in [pulse_shaped_delayed_noise] and divides
    zero by that positive number: the noise added is zero and every returned
    sample is the signal's sample, real in the real branch and with a zero
    imaginary part in the complex one; a sample [-0.0] may come back as
    [+0.0].  The random numbers are finite: the draws of [np.random.normal]
    in the real branch, the numbers [randn + 1j * randn] in the complex
    one. *)
Theorem noise_zero_power (self : Noise.t) (x : list float) (snr p : float)
    (is_complex : bool) :
  Noise.pulse_shaped_delayed self = Some x ->
  Noise.snr self = Some snr ->
  mean_square x = 0%float ->
  Noise.pow10 pow (snr / 10) = Ok p ->
  (0 <? p)%float = true ->
  (if is_complex
   then Forall (fun c => finite_scalar c = true)
               (Noise.complex_draws gauss (List.length x))
   else forall k, (k < List.length x)%nat -> is_finite (gauss k) = true) ->
  exists noisy,
    Noise.noise pow mean_square gauss self is_complex
    = Ok (Noise.set_noise self noisy, noisy)
    /\ Forall2 (carries is_complex) x noisy.
Proof.
  intros Hx Hs Hpower Hp Hpos Hdraws.
  unfold Noise.noise. rewrite Hx. cbn [attr bind]. rewrite Hs. cbn [bind].
  rewrite Hp. cbn [bind]. rewrite Hpower, (zero_div_positive p Hpos).
  destruct is_complex.
  - change (PrimFloat.sqrt (0 / 2)) with 0%float. cbn [bind].
    eexists. split; [reflexivity|].
    unfold Noise.complex_draws. rewrite map_map.
    apply forall2_indexed. intros k a Hk.
    unfold Noise.complex_draws in Hdraws. rewrite Forall_forall in Hdraws.
    assert (Hfin : finite_scalar
              (Scalar.add (F64 (gauss k))
                 (Scalar.mul (C128 0 1)
                    (F64 (gauss (List.length x + k)%nat)))) = true).
    { apply Hdraws. apply in_map_iff. exists k. split; [reflexivity|].
      apply in_seq. lia. }
    cbn [Scalar.add Scalar.mul Scalar.parts fst snd] in *.
    unfold finite_scalar in Hfin. cbn [Scalar.parts] in Hfin.
    apply andb_true_iff in Hfin. destruct Hfin as [Hre Him].
    set (g2 := gauss (List.length x + k)%nat) in *.
    set (cr := (gauss k + (0 * g2 - 1 * 0))%float) in *.
    set (ci := (0 + (0 * 0 + 1 * g2))%float) in *.
    assert (Zr : is_a_zero (0 * cr - 0 * ci)%float).
    { apply sub_zeros; apply mul_zero_finite;
        assumption || apply zero_is_a_zero. }
    assert (Zi : is_a_zero (0 * ci + 0 * cr)%float).
    { apply add_zeros; apply mul_zero_finite;
        assumption || apply zero_is_a_zero. }
    rewrite (pos_zero_add_zero _ Zi).
    eexists. split; [|reflexivity].
    apply add_zero_carries. exact Zr.
  - change (PrimFloat.sqrt 0) with 0%float. unfold Noise.normal.
    change (negb (is_nan 0) && get_sign 0) with false. cbn [bind].
    eexists. split; [reflexivity|].
    apply forall2_indexed. intros k a Hk.
    cbn [Scalar.add fst snd].
    assert (Z0 : is_a_zero (0 * gauss k)%float).
    { apply mul_zero_finite; [apply zero_is_a_zero | apply Hdraws; lia]. }
    rewrite (pos_zero_add_zero _ Z0).
    eexists. split; [|reflexivity].
    apply add_zero_carries. apply zero_is_a_zero.
Qed.

End ZeroPower.

(** At 20 dB, complex noise on two samples of silence. *)
Lemma noise_zero_power_witness :
  exists noisy,
    Noise.noise pow_on_integers mean_square_in_order (fun k => F64.of_Z (Z.of_nat k))
                (noise_silent 20) true
    = Ok (Noise.set_noise (noise_silent 20) noisy, noisy)
    /\ Forall2 (carries true) [0%float; 0%float] noisy.
Proof.
  apply (noise_zero_power pow_on_integers mean_square_in_order
           (fun k => F64.of_Z (Z.of_nat k)) (noise_silent 20)
           [0%float; 0%float] 20%float 100%float true).
  - reflexivity.
  - reflexivity.
  - vm_compute; reflexivity.
  - vm_compute; reflexivity.
  - vm_compute; reflexivity.
  - repeat constructor.
Defined.

(** C9 as stated fails at both ends of the SNR range.  On two samples of
    silence, at -4000 dB the power [10**(-400.0)] underflows to [0.0], the
    variance is [0.0/0.0] and both returned samples are NaN; at 4000 dB the
    power raises [OverflowError]. *)
Lemma noise_zero_power_extreme_snr :
  Noise.noise pow_on_integers mean_square_in_order (fun _ => 1%float)
              (noise_silent (-4000)) false
  = Ok (Noise.set_noise (noise_silent (-4000)) [F64 nan; F64 nan],
        [F64 nan; F64 nan])
  /\ ~ Forall2 (carries false) [0%float; 0%float] [F64 nan; F64 nan]
  /\ Noise.noise pow_on_integers mean_square_in_order (fun _ => 1%float)
                 (noise_silent 4000) false
     = Raise OverflowError.
Proof.
  split; [vm_compute; reflexivity|]. split; [|vm_compute; reflexivity].
  intros H. inversion H as [|a o l l' [a' [Ha Ho]] _]; subst.
  inversion Ho; subst a'.
  destruct Ha as [E|[E _]]; vm_compute in E; discriminate E.
Qed.

(** The change of sign of a zero does occur: at 20 dB the one-sample signal
    [-0.0] comes back as [+0.0]. *)
Example noise_negative_zero :
  Noise.noise pow_on_integers mean_square_in_order (fun _ => 1%float)
              (Noise.mk (Some 20%float) (Some [neg_zero]) None) false
  = Ok (Noise.mk (Some 20%float) (Some [neg_zero]) (Some [F64 0]), [F64 0]).
Proof. vm_compute. reflexivity. Qed.

(* ===================================================================== *)
(** * PulseShaper: the raised-cosine kernel *)
(* ===================================================================== *)

Lemma py_slice_tail {A : Type} (l : list A) :
  py_slice l (Some 1) None = skipn 1 l.
Proof.
  unfold py_slice, slice_bound. replace (1 <? 0) with false by reflexivity.
  destruct l as [|a l].
  - reflexivity.
  - assert (H : Z.min 1 (len (a :: l)) = 1).
    { apply Z.min_l. unfold len. simpl List.length. lia. }
    rewrite H. change (Z.to_nat 1) with 1%nat.
    apply firstn_all2. rewrite length_skipn. unfold len. lia.
Qed.

Lemma skipn_1_map_seq {A : Type} (f : Z -> A) (n : nat) :
  skipn 1 (map f (map Z.of_nat (seq 0 (S n))))
  = map f (map Z.of_nat (seq 1 n)).
Proof. reflexivity. Qed.

Lemma nth_map_seq (f : Z -> R) (s n i : nat) :
  (i < n)%nat ->
  nth i (map f (map Z.of_nat (seq s n))) 0%R = f (Z.of_nat (s + i)).
Proof.
  intros Hi. rewrite map_map.
  rewrite (nth_indep _ 0%R (f (Z.of_nat 0)))
    by (rewrite length_map, length_seq; exact Hi).
  rewrite (map_nth (fun x => f (Z.of_nat x))).
  rewrite seq_nth by exact Hi. reflexivity.
Qed.

Section Createrc.

Variable rcosfilter : Z -> R -> R -> R -> list R * list R.
Hypothesis rcosfilter_even : samples_even_response rcosfilter.

Lemma createrc_kernel (self self' : PulseShaper.t) (rc : list R) :
  PulseShaper.createrc rcosfilter self = Ok (self', rc) ->
  rc = skipn 1 (snd (rcosfilter (PulseShaper.rc_taps self + 1)
                       (PulseShaper.rolloff self)
                       (IZR (PulseShaper.sps self)) 1%R))
  /\ PulseShaper.raised_cosine self' = Some rc.
Proof.
  unfold PulseShaper.createrc. intros H.
  destruct (rcosfilter _ _ _ _) as [time_idx h_rc]. simpl snd.
  apply bind_ok in H. destruct H as [l [_ H]].
  apply bind_ok in H. destruct H as [r [_ H]].
  apply bind_ok in H. destruct H as [zc [_ H]].
  inversion H. subst. rewrite py_slice_tail. split; reflexivity.
Qed.

(** [createrc] returns a kernel whenever [sps] and the tap count are
    positive. *)
Lemma createrc_returns (self : PulseShaper.t) :
  0 < PulseShaper.sps self ->
  0 < PulseShaper.rc_taps self ->
  exists r, PulseShaper.createrc rcosfilter self = Ok r.
Proof.
  intros Hsps Htaps. unfold PulseShaper.createrc.
  destruct (rcosfilter _ _ _ _) as [time_idx h_rc].
  set (N := PulseShaper.rc_taps self) in *.
  set (s := PulseShaper.sps self) in *.
  unfold np_arange.
  assert (E1 : (- s =? 0) = false) by (apply Z.eqb_neq; lia).
  assert (E2 : (s =? 0) = false) by (apply Z.eqb_neq; lia).
  assert (E3 : (0 <? s) = true) by (apply Z.ltb_lt; lia).
  rewrite E1, E2, E3. cbn [bind].
  set (left := map _ _). set (right := map _ (seq 0 (Z.to_nat ((N - N / 2 + s - 1) / s)))).
  assert (Hright : 0 < len right).
  { unfold right, len. rewrite length_map, length_seq.
    assert (N / 2 < N) by (apply Z.div_lt; lia).
    assert (1 <= (N - N / 2 + s - 1) / s).
    { apply Z.div_le_lower_bound; lia. }
    lia. }
  unfold NP.delete.
  assert (Hlen : 0 < len (rev left ++ right)).
  { rewrite len_app. pose proof (len_nonneg (rev left)). lia. }
  assert (E4 : (len (rev left ++ right) / 2 <? 0) = false).
  { apply Z.ltb_ge. apply Z.div_pos; lia. }
  rewrite E4.
  assert (E5 : (0 <=? len (rev left ++ right) / 2) = true).
  { apply Z.leb_le. apply Z.div_pos; lia. }
  assert (E6 : (len (rev left ++ right) / 2 <? len (rev left ++ right)) = true).
  { apply Z.ltb_lt. apply Z.div_lt; lia. }
  rewrite E5, E6. cbn [andb bind]. eexists. reflexivity.
Qed.

(** C5.  Given that the library routine samples an even impulse response on
    its grid [(x - N/2) / Fs], the kernel [createrc] keeps (the [N + 1]
    samples without the first) has [N] taps and is symmetric about its
    centre: [kernel[i] == kernel[N-1-i]] for every [i] in [0, N). *)
Theorem createrc_symmetric (self self' : PulseShaper.t) (rc : list R) :
  PulseShaper.createrc rcosfilter self = Ok (self', rc) ->
  Z.odd (PulseShaper.rc_taps self) = true ->
  0 < PulseShaper.rc_taps self ->
  PulseShaper.raised_cosine self' = Some rc
  /\ len rc = PulseShaper.rc_taps self
  /\ forall i, 0 <= i < PulseShaper.rc_taps self ->
       nth (Z.to_nat i) rc 0%R
       = nth (Z.to_nat (PulseShaper.rc_taps self - 1 - i)) rc 0%R.
Proof.
  intros H _ Hpos. destruct (createrc_kernel _ _ _ H) as [Hrc Hset].
  set (N := PulseShaper.rc_taps self) in *.
  destruct (rcosfilter_even (N + 1) (PulseShaper.rolloff self)
              (IZR (PulseShaper.sps self)) 1%R) as [h [Heven Hsamples]].
  rewrite Hsamples in Hrc.
  replace (Z.to_nat (N + 1)) with (S (Z.to_nat N)) in Hrc by lia.
  rewrite skipn_1_map_seq in Hrc.
  split; [exact Hset|]. split.
  { subst rc. unfold len. rewrite !length_map, length_seq. lia. }
  intros i Hi. subst rc.
  rewrite !nth_map_seq by lia.
  rewrite <- Heven. f_equal.
  rewrite !Nat2Z.inj_add, !Z2Nat.id by lia.
  change (Z.of_nat 1) with 1.
  rewrite !plus_IZR, !minus_IZR. lra.
Qed.

End Createrc.

Lemma Rdiv_opp_opp (a b : R) : (- a / - b = a / b)%R.
Proof. unfold Rdiv. rewrite Rinv_opp. ring. Qed.

Lemma Reqb_opp_0 (t : R) : Reqb (- t) 0 = Reqb t 0.
Proof.
  unfold Reqb.
  destruct (Req_dec_T (- t) 0), (Req_dec_T t 0);
    try reflexivity; exfalso; lra.
Qed.

Lemma Reqb_opp (t u : R) : Reqb (- t) u = Reqb t (- u).
Proof.
  unfold Reqb.
  destruct (Req_dec_T (- t) u), (Req_dec_T t (- u));
    try reflexivity; exfalso; lra.
Qed.

Lemma sinc_term_even (t Ts : R) :
  (sin (PI * - t / Ts) / (PI * - t / Ts)
   = sin (PI * t / Ts) / (PI * t / Ts))%R.
Proof.
  replace (PI * - t / Ts)%R with (- (PI * t / Ts))%R by (unfold Rdiv; ring).
  rewrite sin_neg. apply Rdiv_opp_opp.
Qed.

(** The raised cosine is an even function of time. *)
Lemma rc_response_even (alpha Ts t : R) :
  rc_response alpha Ts (- t) = rc_response alpha Ts t.
Proof.
  unfold rc_response. rewrite Reqb_opp_0.
  destruct (Reqb t 0); [reflexivity|].
  rewrite !Reqb_opp.
  replace (- (Ts / (2 * alpha)))%R with (- Ts / (2 * alpha))%R
    by (unfold Rdiv; ring).
  replace (- (- Ts / (2 * alpha)))%R with (Ts / (2 * alpha))%R
    by (unfold Rdiv; ring).
  rewrite sinc_term_even.
  replace (PI * alpha * - t / Ts)%R with (- (PI * alpha * t / Ts))%R
    by (unfold Rdiv; ring).
  rewrite cos_neg.
  replace (2 * alpha * - t / Ts * (2 * alpha * - t / Ts))%R
    with (2 * alpha * t / Ts * (2 * alpha * t / Ts))%R by (unfold Rdiv; ring).
  destruct (negb (Reqb alpha 0)); simpl;
    destruct (Reqb t (- Ts / (2 * alpha))), (Reqb t (Ts / (2 * alpha)));
    reflexivity.
Qed.

Lemma commpy_rcosfilter_even : samples_even_response commpy_rcosfilter.
Proof.
  intros N alpha Ts Fs. exists (rc_response alpha Ts).
  split; [apply rc_response_even | reflexivity].
Qed.

Lemma createrc_symmetric_witness :
  exists self' rc,
    PulseShaper.createrc commpy_rcosfilter ps_fresh = Ok (self', rc)
    /\ PulseShaper.raised_cosine self' = Some rc
    /\ len rc = 3
    /\ forall i, 0 <= i < 3 ->
         nth (Z.to_nat i) rc 0%R = nth (Z.to_nat (3 - 1 - i)) rc 0%R.
Proof.
  eexists. eexists. split; [reflexivity|].
  eapply (createrc_symmetric commpy_rcosfilter commpy_rcosfilter_even
            ps_fresh).
  - reflexivity.
  - reflexivity.
  - reflexivity.
Defined.

(* ===================================================================== *)
(** * PulseShaper: the fractional-delay kernel *)
(* ===================================================================== *)

Lemma sum_app (l1 l2 : list R) : NP.sum (l1 ++ l2) = (NP.sum l1 + NP.sum l2)%R.
Proof. unfold NP.sum. induction l1 as [|a l IH]; simpl; [lra | rewrite IH; lra]. Qed.

Lemma sum_map_scal {A : Type} (c : R) (f : A -> R) (l : list A) :
  NP.sum (map (fun x => (c * f x)%R) l) = (c * NP.sum (map f l))%R.
Proof. unfold NP.sum. induction l as [|a l IH]; simpl; [lra | rewrite IH; lra]. Qed.

Lemma sum_map_div (s : R) (l : list R) :
  NP.sum (map (fun x => (x / s)%R) l) = (NP.sum l / s)%R.
Proof.
  unfold NP.sum. induction l as [|a l IH]; simpl.
  - unfold Rdiv. rewrite Rmult_0_l. reflexivity.
  - rewrite IH. unfold Rdiv. ring.
Qed.

Lemma sum_map_ext {A : Type} (f g : A -> R) (l : list A) :
  (forall a, In a l -> f a = g a) -> NP.sum (map f l) = NP.sum (map g l).
Proof. intros H. f_equal. apply map_ext_in. exact H. Qed.

Lemma sum_seq_head (f : nat -> R) (n : nat) :
  NP.sum (map f (seq 0 (S n)))
  = (f 0%nat + NP.sum (map (fun m => f (S m)) (seq 0 n)))%R.
Proof.
  change (seq 0 (S n)) with (0%nat :: seq 1 n).
  rewrite <- seq_shift, map_cons, map_map. reflexivity.
Qed.

Lemma sum_seq_last (f : nat -> R) (n : nat) :
  NP.sum (map f (seq 0 (S n))) = (NP.sum (map f (seq 0 n)) + f n)%R.
Proof.
  rewrite seq_S, map_app, sum_app. unfold NP.sum at 2. simpl. lra.
Qed.

(** Summing [f(n), f(n-1), ..., f(0)] is summing [f(0), ..., f(n)]. *)
Lemma sum_reverse (f : nat -> R) :
  forall n, NP.sum (map (fun m => f (n - m)%nat) (seq 0 (S n)))
            = NP.sum (map f (seq 0 (S n))).
Proof.
  induction n as [|n IH]; [reflexivity|].
  rewrite sum_seq_head. rewrite (sum_seq_last f (S n)). rewrite <- IH.
  simpl Nat.sub. lra.
Qed.

Lemma alt_sum_S (c : nat -> R) (n : nat) :
  alt_sum c (S n) = (c 0%nat - alt_sum (fun m => c (S m)) n)%R.
Proof.
  unfold alt_sum. rewrite sum_seq_head.
  rewrite (sum_map_ext _ (fun x => (-1 * ((-1) ^ x * c (S x)))%R))
    by (intros; simpl; ring).
  rewrite sum_map_scal. simpl. lra.
Qed.

Lemma alt_sum_bounds :
  forall n (c : nat -> R),
    (forall m, (m <= n)%nat -> (0 <= c m)%R) ->
    (forall m, (m < n)%nat -> (c (S m) <= c m)%R) ->
    (0 <= alt_sum c n <= c 0%nat)%R.
Proof.
  induction n as [|n IH]; intros c Hpos Hdec.
  - unfold alt_sum, NP.sum. simpl. pose proof (Hpos 0%nat (le_n _)). lra.
  - rewrite alt_sum_S.
    assert (H : (0 <= alt_sum (fun m => c (S m)) n <= c 1%nat)%R).
    { apply IH; intros m Hm; [apply Hpos | apply Hdec]; lia. }
    pose proof (Hdec 0%nat ltac:(lia)). lra.
Qed.

Lemma sin_add_nat_PI (m : nat) (x : R) :
  sin (x + INR m * PI) = ((-1) ^ m * sin x)%R.
Proof.
  induction m as [|m IH].
  - simpl. rewrite Rmult_0_l, Rplus_0_r. lra.
  - rewrite S_INR.
    replace (x + (INR m + 1) * PI)%R with ((x + INR m * PI) + PI)%R by ring.
    rewrite neg_sin, IH. simpl. ring.
Qed.

Lemma sinc_nonzero_arg (x : R) :
  x <> 0%R -> NP.sinc x = (sin (PI * x) / (PI * x))%R.
Proof. intros H. unfold NP.sinc. destruct (Req_dec_T x 0); [contradiction | reflexivity]. Qed.

Section SincTerms.

Variable d : R.
Hypothesis d_pos : (0 < d)%R.
Hypothesis d_lt_1 : (d < 1)%R.

Lemma sinc_left (m : nat) :
  NP.sinc (IZR (- Z.of_nat m) - d)
  = ((-1) ^ m * (sin (PI * d) / (PI * (INR m + d))))%R.
Proof.
  pose proof (pos_INR m) as Hm. pose proof PI_RGT_0 as Hpi.
  rewrite opp_IZR, <- INR_IZR_INZ.
  rewrite sinc_nonzero_arg by lra.
  replace (PI * (- INR m - d))%R with (- (PI * d + INR m * PI))%R by ring.
  rewrite sin_neg, sin_add_nat_PI.
  replace (- (PI * d + INR m * PI))%R with (- (PI * (INR m + d)))%R by ring.
  unfold Rdiv. rewrite Rinv_opp. ring.
Qed.

Lemma sinc_right (m : nat) :
  (1 <= m)%nat ->
  NP.sinc (IZR (Z.of_nat m) - d)
  = ((-1) ^ m * - (sin (PI * d) / (PI * (INR m - d))))%R.
Proof.
  intros H1. pose proof PI_RGT_0 as Hpi.
  assert (Hm : (1 <= INR m)%R) by (change 1%R with (INR 1); apply le_INR; exact H1).
  rewrite <- INR_IZR_INZ.
  rewrite sinc_nonzero_arg by lra.
  replace (PI * (INR m - d))%R with (- (PI * d) + INR m * PI)%R by ring.
  rewrite sin_add_nat_PI, sin_neg.
  replace (- (PI * d) + INR m * PI)%R with (PI * (INR m - d))%R by ring.
  unfold Rdiv. ring.
Qed.

Lemma sin_PI_d_pos : (0 < sin (PI * d))%R.
Proof.
  pose proof PI_RGT_0 as Hpi.
  apply sin_gt_0; nra.
Qed.

End SincTerms.

Lemma combine_map_same {A B C : Type} (f : A -> B) (g : A -> C) (l : list A) :
  combine (map f l) (map g l) = map (fun x => (f x, g x)) l.
Proof. induction l as [|a l IH]; simpl; [reflexivity | rewrite IH; reflexivity]. Qed.

Lemma map_seq_offset {A : Type} (f : nat -> A) (s n : nat) :
  map f (seq s n) = map (fun m => f (s + m)%nat) (seq 0 n).
Proof.
  revert f. induction s as [|s IH]; intros f; [reflexivity|].
  rewrite <- seq_shift, map_map, (IH (fun x => f (S x))). reflexivity.
Qed.

Section KernelSum.

Variable k : nat.
Hypothesis k_pos : (1 <= k)%nat.
Variable d : R.
Hypothesis d_pos : (0 < d)%R.
Hypothesis d_lt_1 : (d < 1)%R.

Local Abbreviation hw := (NP.hamming_tap (2 * Z.of_nat k + 1)).

Lemma INR_k_pos : (1 <= INR k)%R.
Proof. change 1%R with (INR 1). apply le_INR. exact k_pos. Qed.

Lemma hw_left (m : nat) : (m <= k)%nat -> hw (k - m) = hamming_weight k m.
Proof.
  intros Hm. unfold NP.hamming_tap, hamming_weight. pose proof INR_k_pos.
  replace (1 - (2 * Z.of_nat k + 1) + 2 * Z.of_nat (k - m)) with (- (2 * Z.of_nat m)) by lia.
  replace (2 * Z.of_nat k + 1 - 1) with (2 * Z.of_nat k) by lia.
  rewrite opp_IZR, !mult_IZR, <- !INR_IZR_INZ.
  replace (PI * - (2 * INR m) / (2 * INR k))%R with (- (PI * INR m / INR k))%R by (field; lra).
  rewrite cos_neg. reflexivity.
Qed.

Lemma hw_right (m : nat) : hw (k + m) = hamming_weight k m.
Proof.
  unfold NP.hamming_tap, hamming_weight. pose proof INR_k_pos.
  replace (1 - (2 * Z.of_nat k + 1) + 2 * Z.of_nat (k + m)) with (2 * Z.of_nat m) by lia.
  replace (2 * Z.of_nat k + 1 - 1) with (2 * Z.of_nat k) by lia.
  rewrite !mult_IZR, <- !INR_IZR_INZ.
  replace (PI * (2 * INR m) / (2 * INR k))%R with (PI * INR m / INR k)%R by (field; lra).
  reflexivity.
Qed.

Lemma hamming_weight_0 : hamming_weight k 0 = 1%R.
Proof.
  unfold hamming_weight. simpl INR.
  replace (PI * 0 / INR k)%R with 0%R by (unfold Rdiv; ring).
  rewrite cos_0. lra.
Qed.

Lemma hamming_weight_pos (m : nat) : (8 / 100 <= hamming_weight k m)%R.
Proof. unfold hamming_weight. pose proof (COS_bound (PI * INR m / INR k)). lra. Qed.

Lemma hamming_weight_le_1 (m : nat) : (hamming_weight k m <= 1)%R.
Proof. unfold hamming_weight. pose proof (COS_bound (PI * INR m / INR k)). lra. Qed.

Lemma hamming_weight_decr (m : nat) :
  (m < k)%nat -> (hamming_weight k (S m) <= hamming_weight k m)%R.
Proof.
  intros Hm. unfold hamming_weight.
  pose proof INR_k_pos as Hk. pose proof PI_RGT_0 as Hpi. pose proof (pos_INR m) as Hm0.
  assert (Hmk : (INR (S m) <= INR k)%R) by (apply le_INR; lia).
  rewrite S_INR in *.
  assert (Hinv : (0 < / INR k)%R) by (apply Rinv_0_lt_compat; lra).
  assert (H1 : (0 <= PI * INR m / INR k)%R).
  { unfold Rdiv. apply Rmult_le_pos; [apply Rmult_le_pos; lra | lra]. }
  assert (H2 : (PI * INR m / INR k <= PI * (INR m + 1) / INR k)%R).
  { unfold Rdiv. apply Rmult_le_compat_r; [lra | nra]. }
  assert (H3 : (PI * (INR m + 1) / INR k <= PI)%R).
  { unfold Rdiv. replace PI with (PI * INR k * / INR k)%R at 2 by (field; lra).
    apply Rmult_le_compat_r; [lra | nra]. }
  pose proof (cos_decr_1 (PI * INR m / INR k) (PI * (INR m + 1) / INR k)
                ltac:(lra) ltac:(lra) ltac:(lra) ltac:(lra) ltac:(lra)).
  lra.
Qed.

Local Abbreviation b := (left_tap k d).
Local Abbreviation a' := (right_tap k d).
Local Abbreviation C := (sinc_gain d).
Local Abbreviation u := (sinc_tap k d).

Lemma C_pos : (0 < C)%R.
Proof. unfold sinc_gain. apply Rdiv_lt_0_compat; [apply sin_PI_d_pos; assumption | apply PI_RGT_0]. Qed.

Lemma u_left (m : nat) : (m <= k)%nat -> u (k - m) = (C * ((-1) ^ m * b m))%R.
Proof.
  intros Hm. unfold sinc_tap, left_tap, sinc_gain. rewrite hw_left by exact Hm.
  replace (- Z.of_nat k + Z.of_nat (k - m) * 1) with (- Z.of_nat m) by lia.
  rewrite sinc_left by assumption.
  pose proof (pos_INR m). pose proof PI_RGT_0. field. lra.
Qed.

Lemma u_right (m : nat) : u (S k + m) = (C * ((-1) ^ m * a' m))%R.
Proof.
  unfold sinc_tap, right_tap, sinc_gain.
  replace (S k + m)%nat with (k + S m)%nat by lia.
  rewrite hw_right.
  replace (- Z.of_nat k + Z.of_nat (k + S m) * 1) with (Z.of_nat (S m)) by lia.
  rewrite sinc_right by (assumption || lia).
  pose proof (pos_INR m). pose proof PI_RGT_0. rewrite S_INR. simpl pow. field. lra.
Qed.

Lemma b_pos (m : nat) : (0 <= b m)%R.
Proof.
  unfold left_tap. pose proof (hamming_weight_pos m). pose proof (pos_INR m).
  apply Rlt_le. apply Rdiv_lt_0_compat; lra.
Qed.

Lemma frac_decr (w1 w2 x1 x2 : R) :
  (0 <= w2 <= w1)%R -> (0 < x1 <= x2)%R -> (w2 / x2 <= w1 / x1)%R.
Proof.
  intros Hw Hx. unfold Rdiv.
  apply Rmult_le_compat; try lra.
  - apply Rlt_le. apply Rinv_0_lt_compat. lra.
  - apply Rinv_le_contravar; lra.
Qed.

Lemma b_decr (m : nat) : (m < k)%nat -> (b (S m) <= b m)%R.
Proof.
  intros Hm. unfold left_tap. rewrite S_INR. pose proof (pos_INR m).
  pose proof (hamming_weight_pos (S m)). pose proof (hamming_weight_decr m Hm).
  apply frac_decr; lra.
Qed.

Lemma a'_pos (m : nat) : (0 <= a' m)%R.
Proof.
  unfold right_tap. pose proof (hamming_weight_pos (S m)). pose proof (pos_INR m).
  rewrite S_INR. apply Rlt_le. apply Rdiv_lt_0_compat; lra.
Qed.

Lemma a'_decr (m : nat) : (S m < k)%nat -> (a' (S m) <= a' m)%R.
Proof.
  intros Hm. unfold right_tap. rewrite !S_INR. pose proof (pos_INR m).
  pose proof (hamming_weight_pos (S (S m))). pose proof (hamming_weight_decr (S m) Hm).
  apply frac_decr; lra.
Qed.

Lemma b_gap : (0 < b 0%nat - b 1%nat)%R.
Proof.
  unfold left_tap. rewrite hamming_weight_0. simpl INR.
  pose proof (hamming_weight_le_1 1). pose proof (hamming_weight_pos 1).
  assert (H1 : (hamming_weight k 1 / (1 + d) <= 1 / (1 + d))%R).
  { unfold Rdiv. apply Rmult_le_compat_r; [|lra].
    apply Rlt_le. apply Rinv_0_lt_compat. lra. }
  assert (H2 : (1 / (1 + d) < 1 / (0 + d))%R).
  { unfold Rdiv. rewrite !Rmult_1_l. apply Rinv_lt_contravar; nra. }
  lra.
Qed.

Lemma kernel_sum_pos : (0 < NP.sum (map u (seq 0 (S k + k))))%R.
Proof.
  rewrite seq_app, map_app, sum_app. simpl (0 + S k)%nat.
  rewrite <- (sum_reverse u k).
  rewrite (sum_map_ext (fun m => u (k - m)%nat) (fun m => (C * ((-1) ^ m * b m))%R)).
  2:{ intros m Hm. apply in_seq in Hm. apply u_left. lia. }
  rewrite (map_seq_offset u (S k) k).
  rewrite (sum_map_ext (fun m => u (S k + m)%nat) (fun m => (C * ((-1) ^ m * a' m))%R)).
  2:{ intros m _. apply u_right. }
  rewrite !sum_map_scal.
  fold (alt_sum b k).
  assert (Ek : k = S (k - 1)) by lia.
  replace (seq 0 k) with (seq 0 (S (k - 1))) by (f_equal; lia).
  fold (alt_sum a' (k - 1)).
  assert (HA : (0 <= alt_sum a' (k - 1) <= a' 0%nat)%R).
  { apply alt_sum_bounds; intros m Hm; [apply a'_pos | apply a'_decr; lia]. }
  assert (HB : (b 0%nat - b 1%nat <= alt_sum b k)%R).
  { replace (alt_sum b k) with (alt_sum b (S (k - 1))) by (f_equal; lia).
    rewrite alt_sum_S.
    assert (H : (0 <= alt_sum (fun m => b (S m)) (k - 1) <= b 1%nat)%R).
    { apply alt_sum_bounds; intros m Hm; [apply b_pos | apply b_decr; lia]. }
    lra. }
  pose proof b_gap. pose proof C_pos. nra.
Qed.

End KernelSum.

Lemma div_all_ok (l : list R) (s : R) :
  s <> 0%R -> NP.div_all l s = Ok (map (fun x => (x / s)%R) l).
Proof.
  intros Hs. unfold NP.div_all. destruct l; [reflexivity|].
  destruct (Req_dec_T s 0); [contradiction | reflexivity].
Qed.

Lemma sinc_0_taps_sum_pos (d : R) :
  (0 < d < 1)%R -> (0 < NP.sinc (IZR 0 - d))%R.
Proof.
  intros [H0 H1]. pose proof PI_RGT_0 as Hpi.
  pose proof (sinc_left d H0 0) as E. simpl in E. rewrite E.
  pose proof (sin_PI_d_pos d H0 H1).
  assert (0 < sin (PI * d) / (PI * (0 + d)))%R by (apply Rdiv_lt_0_compat; nra).
  lra.
Qed.

(** The three stages of [sinc_kernel] for [2k + 1] taps, [k >= 1]. *)
Lemma sinc_kernel_form (k : nat) (d : R) :
  (1 <= k)%nat -> (0 < d < 1)%R ->
  let U := map (sinc_tap k d) (seq 0 (S k + k)) in
  (0 < NP.sum U)%R
  /\ PulseShaper.sinc_kernel (2 * Z.of_nat k + 1) d
     = Ok (map (fun x => (x / NP.sum U)%R) U).
Proof.
  intros Hk [Hd0 Hd1] U.
  assert (Hpos : (0 < NP.sum U)%R) by (apply kernel_sum_pos; assumption).
  split; [exact Hpos|].
  unfold PulseShaper.sinc_kernel, np_arange.
  replace (1 =? 0) with false by reflexivity.
  replace (0 <? 1) with true by reflexivity.
  set (M := 2 * Z.of_nat k + 1).
  assert (E1 : (- (M - 1)) / 2 = - Z.of_nat k).
  { unfold M. replace (- (2 * Z.of_nat k + 1 - 1)) with ((- Z.of_nat k) * 2) by lia.
    apply Z.div_mul. lia. }
  assert (E2 : M / 2 = Z.of_nat k).
  { unfold M. symmetry. apply Z.div_unique with (r := 1); lia. }
  rewrite E1, E2.
  replace (Z.to_nat ((Z.of_nat k + 1 - - Z.of_nat k + 1 - 1) / 1)) with (S k + k)%nat
    by (rewrite Z.div_1_r; lia).
  cbn [bind]. unfold NP.hamming.
  assert (E3 : (M <? 1) = false) by (apply Z.ltb_ge; unfold M; lia).
  assert (E4 : (M =? 1) = false) by (apply Z.eqb_neq; unfold M; lia).
  rewrite E3, E4.
  replace (Z.to_nat M) with (S k + k)%nat by (unfold M; lia).
  unfold NP.zip_with.
  assert (E5 : (len (map (fun k0 => NP.sinc (IZR k0 - d))
                     (map (fun k0 => - Z.of_nat k + Z.of_nat k0 * 1) (seq 0 (S k + k))))
               =? len (map (NP.hamming_tap M) (seq 0 (S k + k)))) = true).
  { apply Z.eqb_eq. unfold len. rewrite !length_map. reflexivity. }
  rewrite E5. cbn [bind].
  rewrite map_map, combine_map_same, map_map. cbn [fst snd].
  fold M. change (map (fun x => (NP.sinc (IZR (- Z.of_nat k + Z.of_nat x * 1) - d) * NP.hamming_tap M x)%R) (seq 0 (S k + k))) with U.
  apply div_all_ok. lra.
Qed.

Lemma sinc_kernel_one_tap (d : R) :
  (0 < d < 1)%R ->
  PulseShaper.sinc_kernel 1 d = Ok [1%R].
Proof.
  intros Hd. pose proof (sinc_0_taps_sum_pos d Hd) as Hs.
  unfold PulseShaper.sinc_kernel. simpl np_arange. cbn [bind map].
  unfold NP.hamming. simpl. unfold NP.zip_with. simpl. unfold NP.sum. simpl.
  destruct (Req_dec_T (NP.sinc (0 - d) * 1 + 0) 0) as [E|E].
  - exfalso. change (IZR 0) with 0%R in Hs. lra.
  - f_equal. f_equal. change (IZR 0) with 0%R in Hs. field. lra.
Qed.

(** In the exact-arithmetic model, for every odd tap count and every delay
    in (0, 1) the kernel exists and its coefficients sum to 1. *)
Lemma sinc_kernel_sums_to_one (M : Z) (d : R) :
  Z.odd M = true -> 0 < M -> (0 < d < 1)%R ->
  exists kernel,
    PulseShaper.sinc_kernel M d = Ok kernel
    /\ len kernel = M
    /\ NP.sum kernel = 1%R.
Proof.
  intros Hodd HM Hd.
  destruct (odd_half M Hodd) as [k [Hk _]].
  destruct (Z.eq_dec k 0) as [E|E].
  - subst k. simpl in Hk. subst M. exists [1%R].
    split; [apply sinc_kernel_one_tap; exact Hd|].
    split; [reflexivity|]. unfold NP.sum. simpl. lra.
  - assert (Hk1 : (1 <= Z.to_nat k)%nat) by lia.
    destruct (sinc_kernel_form (Z.to_nat k) d Hk1 Hd) as [Hpos Hker].
    replace (2 * Z.of_nat (Z.to_nat k) + 1) with M in Hker by lia.
    eexists. split; [exact Hker|]. split.
    + unfold len. rewrite !length_map, length_seq. lia.
    + rewrite sum_map_div. field. lra.
Qed.

Lemma nth_repeat_lt {A : Type} (c d0 : A) (n i : nat) :
  (i < n)%nat -> nth i (repeat c n) d0 = c.
Proof.
  intros Hi. rewrite (nth_indep _ d0 c) by (rewrite repeat_length; exact Hi).
  apply nth_repeat.
Qed.

Lemma nth_skipn_firstn {A : Type} (l : list A) (d0 : A) (k n i : nat) :
  (i < n)%nat -> nth i (firstn n (skipn k l)) d0 = nth (k + i) l d0.
Proof.
  intros Hi. rewrite nth_firstn_lt by exact Hi. apply nth_skipn.
Qed.


(* ===================================================================== *)
(** * TimingErrorDetector: what a run records *)
(* ===================================================================== *)

Lemma py_index_in {A : Type} (l : list A) (i : Z) (x : A) :
  py_index l i = Ok x -> In x l.
Proof.
  unfold py_index. destruct (_ && _); [|discriminate].
  destruct (nth_error l _) eqn:E; [|discriminate].
  intros H. inversion H; subst. eapply nth_error_In. exact E.
Qed.

Lemma unknown_detector_no_result hypot pow self num_samples sps error_eq tau
    gain Kp Ki delta symbol_prev use_pi r :
  known_eq error_eq = false ->
  0 < sps < num_samples ->
  main hypot pow self num_samples sps error_eq tau gain Kp Ki delta symbol_prev
       use_pi <> Ok r.
Proof.
  intros Hunknown Hs H. unfold main in H.
  bind_inv H. bind_inv H. bind_inv H. inversion H; subst; clear H.
  assert (Hinv0 : trace_inv sps num_samples error_eq symbol_prev
            (mkLoop sps tau 0%float symbol_prev [] [] [symbol_prev] [a0]) O).
  { constructor; simpl; try reflexivity; try lia. }
  destruct (main_loop_inv _ _ _ _ _ _ _ _ _ _ _ _ _ _ _ _ _ Hstep1 Hinv0)
    as [k [[Hi Hb Hk He Ho Hsy Hout Hf] Hexit]].
  assert (Hk0 : k <> O).
  { intros E. subst k. rewrite Hi in Hexit. simpl in Hexit. lia. }
  apply Hk in Hk0. congruence.
Qed.

(** X1.  A detector name other than ['mueller'], ['gardner'] and
    ['earlylategate'] appends no error, so the first iteration fails on
    [error[-1]] at the latest: a run that enters the loop with such a name
    ends in an exception. *)
Theorem main_rejects_unknown_detector hypot pow self num_samples sps error_eq tau
    gain Kp Ki delta symbol_prev use_pi :
  known_eq error_eq = false ->
  0 < sps < num_samples ->
  exists e, main hypot pow self num_samples sps error_eq tau gain Kp Ki delta
                 symbol_prev use_pi = Raise e.
Proof.
  intros Hunknown Hs.
  destruct (main hypot pow self num_samples sps error_eq tau gain Kp Ki delta
                 symbol_prev use_pi) as [r|e|] eqn:E.
  - exfalso. revert E. apply unknown_detector_no_result; assumption.
  - exists e. reflexivity.
  - exfalso. revert E. apply main_enough_fuel. lia.
Qed.

Lemma main_rejects_unknown_detector_witness :
  exists e, main (fun _ _ => 0%float) pow_on_integers ted_small 6 2 "zero_crossing"
                 default_tau default_gain default_Kp default_Ki
                 default_delta default_symbol_prev false = Raise e.
Proof.
  apply (main_rejects_unknown_detector (fun _ _ => 0%float) pow_on_integers ted_small 6 2
           "zero_crossing").
  - reflexivity.
  - lia.
Defined.

Lemma main_body_decisions hypot pow self buf sps error_eq gain Kp Ki delta use_pi
    st st' :
  main_body hypot pow self buf sps error_eq gain Kp Ki delta use_pi st = Ok st' ->
  decisions_inv buf st -> decisions_inv buf st'.
Proof.
  unfold main_body. intros H [H1 [H2 [H3 H4]]].
  repeat bind_inv H. inversion H; subst st'; clear H.
  unfold decisions_inv. simpl. unfold append.
  destruct (symbols_pred_l st) as [|s0 sy]; [congruence|].
  destruct (out_signal_l st) as [|o0 ou]; [congruence|].
  simpl in *. split; [|split; [|split; discriminate]].
  - rewrite H1, map_app. reflexivity.
  - intros s [E|Hin].
    + apply H2. left. exact E.
    + apply in_app_or in Hin. destruct Hin as [Hin|[E|[]]].
      * apply H2. right. exact Hin.
      * subst s. eapply py_index_in. exact Hstep0.
Qed.

Lemma main_loop_decisions hypot pow self buf num_samples sps error_eq gain Kp Ki
    delta use_pi :
  forall fuel st st',
    main_loop hypot pow fuel self buf num_samples sps error_eq gain Kp Ki delta
              use_pi st = Ok st' ->
    decisions_inv buf st -> decisions_inv buf st'.
Proof.
  induction fuel as [|fuel IH]; intros st st' H Hinv; simpl in H.
  - destruct (i_cur st <? num_samples); [discriminate|].
    inversion H; subst. exact Hinv.
  - destruct (i_cur st <? num_samples).
    + bind_inv H. eapply IH; [exact H|]. eapply main_body_decisions; eauto.
    + inversion H; subst. exact Hinv.
Qed.

(** [np.sign] yields 1, -1, 0 or a NaN. *)
Lemma sign_cases (x : float) :
  F64.sign x = 1%float \/ F64.sign x = (-1)%float \/ F64.sign x = 0%float
  \/ is_nan (F64.sign x) = true.
Proof.
  unfold F64.sign.
  destruct (0 <? x)%float eqn:E1; [left; reflexivity|].
  destruct (x <? 0)%float eqn:E2; [right; left; reflexivity|].
  destruct (x =? 0)%float eqn:E3; [right; right; left; reflexivity|].
  right; right; right.
  unfold is_nan. rewrite ltb_spec in E1, E2. rewrite eqb_spec in *.
  change (Prim2SF 0) with (S754_zero false) in *.
  destruct (Prim2SF x) as [s| s| |s m e]; try reflexivity;
    destruct s; try discriminate.
Qed.

(** X2.  Whenever [main] returns, every recorded symbol after the initial one
    is the sign of the real part of the recorded sample at the same position,
    hence 1, -1, 0 or a NaN, and every recorded sample is an entry of the
    interpolated buffer. *)
Theorem main_records_decisions hypot pow self num_samples sps error_eq tau gain
    Kp Ki delta symbol_prev use_pi self' off err syms out buf :
  self.(interpolated_pulse) = Some buf ->
  main hypot pow self num_samples sps error_eq tau gain Kp Ki delta symbol_prev
       use_pi = Ok (self', (off, err, syms, out)) ->
  tl syms = map decision (tl out)
  /\ (forall s, In s out -> In s buf)
  /\ (forall y, In y (tl syms) ->
        y = 1%float \/ y = (-1)%float \/ y = 0%float \/ is_nan y = true).
Proof.
  intros Hbuf H. unfold main in H. rewrite Hbuf in H. cbn [attr bind] in H.
  bind_inv H. bind_inv H. inversion H; subst; clear H.
  assert (Hinv0 : decisions_inv buf
            (mkLoop sps tau 0%float symbol_prev [] [] [symbol_prev] [a])).
  { unfold decisions_inv. simpl. split; [reflexivity|].
    split; [|split; discriminate].
    intros s [E|[]]. subst. eapply py_index_in. exact Hstep. }
  destruct (main_loop_decisions _ _ _ _ _ _ _ _ _ _ _ _ _ _ _ Hstep0 Hinv0)
    as [H1 [H2 _]].
  split; [exact H1|]. split; [exact H2|].
  intros y Hy. rewrite H1 in Hy. apply in_map_iff in Hy.
  destruct Hy as [s [E _]]. subst y. apply sign_cases.
Qed.

Lemma main_records_decisions_witness :
  exists self' off err syms out,
    main (fun _ _ => 0%float) pow_on_integers ted_small 6 2 "gardner" default_tau default_gain
         default_Kp default_Ki default_delta default_symbol_prev true
      = Ok (self', (off, err, syms, out))
    /\ tl syms = map decision (tl out)
    /\ (forall s, In s out -> In s (repeat (F64 1) 6))
    /\ (forall y, In y (tl syms) ->
          y = 1%float \/ y = (-1)%float \/ y = 0%float \/ is_nan y = true).
Proof.
  eexists; eexists; eexists; eexists; eexists.
  split; [vm_compute; reflexivity|].
  eapply (main_records_decisions (fun _ _ => 0%float) pow_on_integers ted_small 6 2 "gardner"
            default_tau default_gain default_Kp default_Ki default_delta
            default_symbol_prev true).
  - reflexivity.
  - vm_compute; reflexivity.
Defined.

Lemma nth_cons_snoc {A : Type} (a x d : A) (l : list A) (j : nat) :
  (j <= List.length l)%nat -> nth j (a :: l ++ [x]) d = nth j (a :: l) d.
Proof.
  intros Hj. destruct j as [|j]; [reflexivity|]. cbn [nth].
  apply app_nth1. lia.
Qed.

Lemma nth_snoc_last {A : Type} (x d : A) (l : list A) :
  nth (List.length l) (l ++ [x]) d = x.
Proof. rewrite app_nth2 by lia. rewrite Nat.sub_diag. reflexivity. Qed.

Lemma py_index_last_value {A : Type} (l : list A) (x d : A) :
  py_index l (-1) = Ok x ->
  (0 < List.length l)%nat /\ x = nth (List.length l - 1) l d.
Proof.
  intros H. pose proof (py_index_nonempty _ _ _ H) as Hne.
  rewrite (py_index_last l d Hne) in H. inversion H; subst x.
  split; [destruct l; [congruence | simpl; lia]|].
  symmetry. apply nth_length_pred.
Qed.

(** What one call of the selected detector appends. *)
Lemma append_error_entry hypot pow self buf sps error_eq delta idx cur prev st e' :
  append_error hypot pow self buf sps error_eq delta idx cur prev st = Ok e' ->
  (known_eq error_eq = false /\ e' = st.(error_l))
  \/ (known_eq error_eq = true
      /\ (exists x, e' = st.(error_l) ++ [x])
      /\ error_entry hypot pow self buf sps error_eq delta idx cur prev
           st.(symbol_prev) (List.length st.(error_l)) e').
Proof.
  unfold append_error, known_eq, error_entry, append. intros H.
  destruct (String.eqb_spec error_eq "mueller") as [E1|E1].
  { inversion H; subst e' error_eq. right. split; [reflexivity|].
    split; [eexists; reflexivity|].
    split; [intros _; apply nth_snoc_last|].
    split; intros E; discriminate E. }
  destruct (String.eqb_spec error_eq "gardner") as [E2|E2].
  { repeat bind_inv H. inversion H; subst e' error_eq. right.
    split; [reflexivity|]. split; [eexists; reflexivity|].
    split; [intros E; discriminate E|].
    split; [|intros E; discriminate E].
    intros _. eexists. eexists. eexists.
    split; [eassumption|]. split; [eassumption|]. split; [eassumption|].
    apply nth_snoc_last. }
  destruct (String.eqb_spec error_eq "earlylategate") as [E3|E3].
  { right. split; [reflexivity|]. subst error_eq.
    bind_inv H. bind_inv H. bind_inv H.
    destruct (idx + a1 >? len buf) eqn:Eg.
    - bind_inv H. inversion H; subst e'.
      split; [eexists; reflexivity|].
      split; [intros E; discriminate E|].
      split; [intros E; discriminate E|].
      intros _. exists a, a0, a1.
      split; [assumption|]. split; [assumption|]. split; [assumption|].
      rewrite Eg.
      destruct (py_index_last_value _ _ 0%float Hstep2) as [Hpos Hval].
      split; [exact Hpos|].
      rewrite nth_snoc_last. rewrite app_nth1 by lia. exact Hval.
    - bind_inv H. bind_inv H. inversion H; subst e'.
      split; [eexists; reflexivity|].
      split; [intros E; discriminate E|].
      split; [intros E; discriminate E|].
      intros _. exists a, a0, a1.
      split; [assumption|]. split; [assumption|]. split; [assumption|].
      rewrite Eg. exists a2, a3.
      split; [assumption|]. split; [assumption|]. apply nth_snoc_last. }
  left. inversion H. split; reflexivity.
Qed.

(** An entry of the error trace is not changed by later iterations. *)
Lemma error_entry_snoc hypot pow self buf sps error_eq delta idx cur prev sp j
    err x :
  (j < List.length err)%nat ->
  error_entry hypot pow self buf sps error_eq delta idx cur prev sp j err ->
  error_entry hypot pow self buf sps error_eq delta idx cur prev sp j (err ++ [x]).
Proof.
  intros Hj [H1 [H2 H3]]. unfold error_entry.
  rewrite !(app_nth1 err [x]) by lia.
  split; [exact H1|]. split; [exact H2|]. exact H3.
Qed.

Lemma main_body_metric hypot pow self buf sps error_eq gain Kp Ki delta use_pi
    tau0 st st' :
  main_body hypot pow self buf sps error_eq gain Kp Ki delta use_pi st = Ok st' ->
  metric_inv hypot pow self buf sps error_eq delta tau0 st ->
  metric_inv hypot pow self buf sps error_eq delta tau0 st'.
Proof.
  unfold main_body.
  intros H [k [Hi [Ho [Hout [Hsy [He [Htau [Hsp [Hk Hj]]]]]]]]].
  bind_inv H. rename a into offset_cur, Hstep into Hoff.
  bind_inv H. rename a into val_cur, Hstep into Hcur.
  bind_inv H. rename a into val_prev, Hstep into Hprev.
  bind_inv H. rename a into error', Hstep into Herr.
  bind_inv H. rename a into e, Hstep into Hlast.
  bind_inv H. inversion H; subst st'; clear H.
  assert (Hknown : known_eq error_eq = true
            /\ (exists x, error' = error_l st ++ [x])
            /\ error_entry hypot pow self buf sps error_eq delta offset_cur
                 val_cur val_prev (symbol_prev st) k error').
  { destruct (append_error_entry _ _ _ _ _ _ _ _ _ _ _ _ Herr)
      as [[E1 E2]|[E1 [E2 E3]]].
    - subst error'. apply py_index_nonempty in Hlast.
      assert (Hk0 : k <> O)
        by (destruct (error_l st); [congruence | simpl in He; lia]).
      rewrite (Hk Hk0) in E1. discriminate.
    - rewrite He in E3. split; [exact E1|]. split; [exact E2 | exact E3]. }
  destruct Hknown as [Hknown [[x Hx] Hentry]]. subst error'.
  exists (S k). cbn [i_cur offset_l out_signal_l symbols_pred_l error_l tau
                     symbol_prev]. unfold append.
  split; [lia|]. split; [rewrite length_app; simpl; lia|].
  split; [rewrite length_app; simpl; lia|].
  split; [rewrite length_app; simpl; lia|].
  split; [rewrite length_app; simpl; lia|].
  split.
  { cbn [nth]. rewrite <- Ho. symmetry. apply nth_snoc_last. }
  split.
  { rewrite <- Hsy. symmetry. apply nth_snoc_last. }
  split; [intros _; exact Hknown|].
  intros j Hlt. rewrite nth_cons_snoc by lia.
  rewrite (app_nth1 (symbols_pred_l st)) by lia.
  destruct (Nat.eq_dec j k) as [E|E].
  - subst j. exists offset_cur, val_prev.
    rewrite <- Hout at 1 2. rewrite nth_snoc_last.
    rewrite <- Htau, <- Hi, <- Hsp.
    split; [exact Hoff|]. split; [exact Hcur|]. split; [exact Hprev|].
    exact Hentry.
  - destruct (Hj j ltac:(lia)) as [idx [prev [H1 [H2 [H3 H4]]]]].
    exists idx, prev. rewrite (app_nth1 (out_signal_l st)) by lia.
    split; [exact H1|]. split; [exact H2|]. split; [exact H3|].
    apply error_entry_snoc; [lia | exact H4].
Qed.

Lemma main_loop_metric hypot pow self buf num_samples sps error_eq gain Kp Ki
    delta use_pi tau0 :
  forall fuel st st',
    main_loop hypot pow fuel self buf num_samples sps error_eq gain Kp Ki delta
              use_pi st = Ok st' ->
    metric_inv hypot pow self buf sps error_eq delta tau0 st ->
    metric_inv hypot pow self buf sps error_eq delta tau0 st'.
Proof.
  induction fuel as [|fuel IH]; intros st st' H Hinv; simpl in H.
  - destruct (i_cur st <? num_samples); [discriminate|].
    inversion H; subst. exact Hinv.
  - destruct (i_cur st <? num_samples).
    + bind_inv H. eapply IH; [exact H|]. eapply main_body_metric; eauto.
    + inversion H; subst. exact Hinv.
Qed.

Lemma main_metric hypot pow self num_samples sps error_eq tau gain Kp Ki delta
    symbol_prev use_pi self' off err syms out buf :
  self.(interpolated_pulse) = Some buf ->
  main hypot pow self num_samples sps error_eq tau gain Kp Ki delta symbol_prev
       use_pi = Ok (self', (off, err, syms, out)) ->
  List.length out = S (List.length off)
  /\ List.length err = List.length off
  /\ forall j, (j < List.length off)%nat ->
       exists idx prev,
         offset_index self (sps * (Z.of_nat j + 1))
                      (nth j (tau :: off) 0%float) = Ok idx
         /\ py_index buf idx = Ok (nth (S j) out (F64 0))
         /\ py_index buf (idx - sps * self.(upsample)) = Ok prev
         /\ error_entry hypot pow self buf sps error_eq delta idx
              (nth (S j) out (F64 0)) prev (nth j syms 0%float) j err.
Proof.
  intros Hbuf H. unfold main in H. rewrite Hbuf in H. cbn [attr bind] in H.
  bind_inv H. bind_inv H. inversion H; subst; clear H.
  assert (Hinv0 : metric_inv hypot pow self buf sps error_eq delta tau
            (mkLoop sps tau 0%float symbol_prev [] [] [symbol_prev] [a])).
  { exists O. cbn. repeat split; try reflexivity; try lia; congruence. }
  destruct (main_loop_metric _ _ _ _ _ _ _ _ _ _ _ _ _ _ _ _ Hstep0 Hinv0)
    as [k [_ [Ho [Hout [_ [He [_ [_ [_ Hj]]]]]]]]].
  split; [lia|]. split; [lia|]. rewrite Ho. exact Hj.
Qed.

(** X3.  Each recorded offset is the phase at which the next symbol is
    sampled: whenever [main] returns, entry [j + 1] of the sample trace is the
    buffer entry at [sps*(j+1)*upsample + int(t*upsample)], where [t] is the
    initial [tau] for [j = 0] and entry [j - 1] of the offset trace
    otherwise. *)
Theorem main_samples_at_recorded_offsets hypot pow self num_samples sps error_eq
    tau gain Kp Ki delta symbol_prev use_pi self' off err syms out buf :
  self.(interpolated_pulse) = Some buf ->
  main hypot pow self num_samples sps error_eq tau gain Kp Ki delta symbol_prev
       use_pi = Ok (self', (off, err, syms, out)) ->
  List.length out = S (List.length off)
  /\ forall j, (j < List.length off)%nat ->
       exists idx,
         offset_index self (sps * (Z.of_nat j + 1))
                      (nth j (tau :: off) 0%float) = Ok idx
         /\ py_index buf idx = Ok (nth (S j) out (F64 0)).
Proof.
  intros Hbuf H.
  destruct (main_metric _ _ _ _ _ _ _ _ _ _ _ _ _ _ _ _ _ _ _ Hbuf H)
    as [Hlen [_ Hj]].
  split; [exact Hlen|]. intros j Hlt.
  destruct (Hj j Hlt) as [idx [_ [H1 [H2 _]]]].
  exists idx. split; assumption.
Qed.

Lemma main_samples_at_recorded_offsets_witness :
  exists self' off err syms out,
    main (fun _ _ => 0%float) pow_on_integers ted_small 6 2 "mueller" default_tau default_gain
         default_Kp default_Ki default_delta default_symbol_prev false
      = Ok (self', (off, err, syms, out))
    /\ List.length out = S (List.length off)
    /\ forall j, (j < List.length off)%nat ->
         exists idx,
           offset_index ted_small (2 * (Z.of_nat j + 1))
                        (nth j (default_tau :: off) 0%float) = Ok idx
           /\ py_index (repeat (F64 1) 6) idx = Ok (nth (S j) out (F64 0)).
Proof.
  eexists; eexists; eexists; eexists; eexists.
  split; [vm_compute; reflexivity|].
  eapply (main_samples_at_recorded_offsets (fun _ _ => 0%float) pow_on_integers ted_small 6 2
            "mueller" default_tau default_gain default_Kp default_Ki
            default_delta default_symbol_prev false).
  - reflexivity.
  - vm_compute; reflexivity.
Defined.

(** X4.  The error trace against the three detectors. Whenever [main] returns,
    entry [j] of the error trace is what the selected detector gives on the
    samples of iteration [j + 1]: the Mueller-Muller value on the current
    sample, the sample one symbol period earlier and the previous decision;
    minus the Gardner value on the current, the earlier and the half-period
    sample; minus the Early-Late Gate value on the samples [shift] before and
    after the current one, or, where the late index [idx + shift] exceeds the
    buffer length, the entry before it. *)
Theorem main_error_trace hypot pow self num_samples sps error_eq tau gain Kp Ki
    delta symbol_prev use_pi self' off err syms out buf :
  self.(interpolated_pulse) = Some buf ->
  main hypot pow self num_samples sps error_eq tau gain Kp Ki delta symbol_prev
       use_pi = Ok (self', (off, err, syms, out)) ->
  List.length err = List.length off
  /\ forall j, (j < List.length err)%nat ->
       exists idx prev,
         offset_index self (sps * (Z.of_nat j + 1))
                      (nth j (tau :: off) 0%float) = Ok idx
         /\ py_index buf (idx - sps * self.(upsample)) = Ok prev
         /\ error_entry hypot pow self buf sps error_eq delta idx
              (nth (S j) out (F64 0)) prev (nth j syms 0%float) j err.
Proof.
  intros Hbuf H.
  destruct (main_metric _ _ _ _ _ _ _ _ _ _ _ _ _ _ _ _ _ _ _ Hbuf H)
    as [_ [Hlen Hj]].
  split; [exact Hlen|]. intros j Hlt. rewrite Hlen in Hlt.
  destruct (Hj j Hlt) as [idx [prev [H1 [_ [H3 H4]]]]].
  exists idx, prev. split; [exact H1|]. split; assumption.
Qed.

Lemma main_error_trace_witness :
  exists self' off err syms out,
    main (fun _ _ => 0%float) pow_on_integers ted_small 6 2 "earlylategate"
         default_tau default_gain default_Kp default_Ki default_delta
         default_symbol_prev false
      = Ok (self', (off, err, syms, out))
    /\ List.length err = List.length off
    /\ forall j, (j < List.length err)%nat ->
         exists idx prev,
           offset_index ted_small (2 * (Z.of_nat j + 1))
                        (nth j (default_tau :: off) 0%float) = Ok idx
           /\ py_index (repeat (F64 1) 6) (idx - 2 * ted_small.(upsample))
              = Ok prev
           /\ error_entry (fun _ _ => 0%float) pow_on_integers ted_small
                (repeat (F64 1) 6) 2 "earlylategate" default_delta idx
                (nth (S j) out (F64 0)) prev (nth j syms 0%float) j err.
Proof.
  eexists; eexists; eexists; eexists; eexists.
  split; [vm_compute; reflexivity|].
  eapply (main_error_trace (fun _ _ => 0%float) pow_on_integers ted_small 6 2
            "earlylategate" default_tau default_gain default_Kp default_Ki
            default_delta default_symbol_prev false).
  - reflexivity.
  - vm_compute; reflexivity.
Defined.

Lemma len_py_slice_from {A : Type} (l : list A) (a : Z) :
  0 <= a -> len (py_slice l (Some a) None) = Z.max 0 (len l - a).
Proof.
  intros Ha. unfold py_slice, slice_bound.
  assert (E : (a <? 0) = false) by (apply Z.ltb_ge; exact Ha).
  rewrite E. unfold len. rewrite length_firstn, length_skipn. lia.
Qed.

Lemma np_sum_eq_same_length (pred : list float) (symbols : list Z) :
  len pred = len symbols -> exists c, np_sum_eq pred symbols = Ok c.
Proof.
  intros H. unfold np_sum_eq. rewrite H, Z.eqb_refl. eexists. reflexivity.
Qed.

(** With as many recorded decisions as true symbols and at least one
    recorded offset, [results] returns, in both modes, and its third value
    is the last offset. *)
Lemma results_returns (self : TED) (symbols : list Z) (pred off : list float)
    (keep_all : bool) :
  self.(symbols_pred) = Some pred ->
  self.(offset) = Some off ->
  off <> [] ->
  len pred = len symbols ->
  exists perc_correct ber,
    results self symbols keep_all = Ok (perc_correct, ber, last off 0%float).
Proof.
  intros Hp Ho Hne Hlen. unfold results. rewrite Hp, Ho. cbn [attr bind].
  rewrite (py_index_last off 0%float Hne).
  destruct keep_all.
  - destruct (np_sum_eq_same_length pred symbols Hlen) as [c Hc].
    rewrite Hc. cbn [bind]. eexists. eexists. reflexivity.
  - assert (Hs : len (py_slice pred (Some 30) None)
                 = len (py_slice symbols (Some 30) None)).
    { rewrite !len_py_slice_from by lia. rewrite Hlen. reflexivity. }
    destruct (np_sum_eq_same_length _ _ Hs) as [c Hc].
    rewrite Hc. cbn [bind]. eexists. eexists. reflexivity.
Qed.

(** X5.  [main] followed by [results]. A run over the [n * sps] samples of [n
    >= 2] symbols records [n] decisions and [n - 1] offsets, so [results] on
    the [n] true symbols returns, with or without the preamble, and its third
    value is the last recorded offset. *)
Theorem main_then_results_returns hypot pow self n sps error_eq tau gain Kp Ki
    delta symbol_prev use_pi self' off err syms out (symbols : list Z)
    (keep_all : bool) :
  0 < sps -> 2 <= n -> len symbols = n ->
  main hypot pow self (n * sps) sps error_eq tau gain Kp Ki delta symbol_prev
       use_pi = Ok (self', (off, err, syms, out)) ->
  len syms = n /\ len off = n - 1
  /\ exists perc_correct ber,
       results self' symbols keep_all
       = Ok (perc_correct, ber, last off 0%float).
Proof.
  intros Hsps Hn Hlen H. unfold main in H.
  bind_inv H. bind_inv H. bind_inv H. inversion H; subst; clear H.
  assert (Hinv0 : trace_inv sps (len symbols * sps) error_eq symbol_prev
            (mkLoop sps tau 0%float symbol_prev [] [] [symbol_prev] [a0]) O).
  { constructor; simpl; try reflexivity; try lia; nia. }
  destruct (main_loop_inv _ _ _ _ _ _ _ _ _ _ _ _ _ _ _ _ _ Hstep1 Hinv0)
    as [k [[Hi Hb Hk He Ho Hsy Hout Hf] Hexit]].
  assert (Hk1 : Z.of_nat k = len symbols - 1) by nia.
  split; [unfold len at 1; rewrite Hsy; lia|].
  split; [unfold len at 1; rewrite Ho; lia|].
  apply (results_returns _ symbols (symbols_pred_l a1) (offset_l a1)).
  - reflexivity.
  - reflexivity.
  - destruct (offset_l a1); [simpl in Ho; lia | discriminate].
  - unfold len at 1. rewrite Hsy. lia.
Qed.

Lemma main_then_results_returns_witness :
  exists self' off err syms out,
    main (fun _ _ => 0%float) pow_on_integers ted_small (3 * 2) 2 "mueller" default_tau
         default_gain default_Kp default_Ki default_delta default_symbol_prev
         false
      = Ok (self', (off, err, syms, out))
    /\ len syms = 3 /\ len off = 3 - 1
    /\ exists perc_correct ber,
         results self' [1; -1; 1] false
         = Ok (perc_correct, ber, last off 0%float).
Proof.
  eexists; eexists; eexists; eexists; eexists.
  split; [vm_compute; reflexivity|].
  eapply (main_then_results_returns (fun _ _ => 0%float) pow_on_integers ted_small 3 2
            "mueller" default_tau default_gain default_Kp default_Ki
            default_delta default_symbol_prev false).
  - lia.
  - lia.
  - reflexivity.
  - vm_compute; reflexivity.
Defined.

(** X6.  A run without an iteration. When [num_samples <= sps] the loop body
    of [main] never runs: on a non-empty buffer [main] returns empty error
    and offset traces, [symbols_pred = [symbol_prev]] and
    [out_signal = [interpolated_pulse[0]]].  [results] on such a run raises:
    with [keep_all], or with at most 31 symbols, the comparison broadcasts
    and [self.offset[-1]] raises [IndexError]; without [keep_all] and with
    32 symbols or more, the empty tail of the predictions meets a tail of two
    symbols or more and the comparison raises [ValueError]. *)
Theorem main_without_iteration hypot pow self num_samples sps error_eq tau gain
    Kp Ki delta symbol_prev use_pi buf symbols :
  self.(interpolated_pulse) = Some buf ->
  buf <> [] ->
  num_samples <= sps ->
  exists first,
    py_index buf 0 = Ok first
    /\ main hypot pow self num_samples sps error_eq tau gain Kp Ki delta
            symbol_prev use_pi
       = Ok (set_traces self [] [] [symbol_prev] [first],
             ([], [], [symbol_prev], [first]))
    /\ forall keep_all,
         results (set_traces self [] [] [symbol_prev] [first]) symbols keep_all
         = Raise (if keep_all || (len symbols <=? 31) then IndexError
                  else ValueError).
Proof.
  intros Hbuf Hne Hle.
  exists (nth 0 buf (F64 0)). pose proof (py_index_0 buf (F64 0) Hne) as H0.
  split; [exact H0|]. split.
  - unfold main. rewrite Hbuf. cbn [attr bind]. rewrite H0. cbn [bind].
    assert (E : (sps <? num_samples) = false) by (apply Z.ltb_ge; exact Hle).
    destruct (Z.to_nat num_samples); simpl; rewrite E; reflexivity.
  - intros [|]; unfold results; cbn [set_traces symbols_pred offset attr bind].
    + unfold np_sum_eq.
      destruct (len [symbol_prev] =? len symbols); [reflexivity|].
      change (len [symbol_prev] =? 1) with true. reflexivity.
    + change (py_slice [symbol_prev] (Some 30) None) with (@nil float).
      pose proof (len_py_slice_from symbols 30 ltac:(lia)) as Hl.
      unfold np_sum_eq. change (len (@nil float)) with 0.
      change (0 =? 1) with false. cbn [orb].
      destruct (Z.leb_spec (len symbols) 31) as [H31|H31].
      * destruct (Z.eqb_spec 0 (len (py_slice symbols (Some 30) None)))
          as [E0|E0]; [reflexivity|].
        destruct (Z.eqb_spec (len (py_slice symbols (Some 30) None)) 1)
          as [E1|E1]; [reflexivity|]. lia.
      * destruct (Z.eqb_spec 0 (len (py_slice symbols (Some 30) None)))
          as [E0|E0]; [lia|].
        destruct (Z.eqb_spec (len (py_slice symbols (Some 30) None)) 1)
          as [E1|E1]; [lia|]. reflexivity.
Qed.

Lemma main_without_iteration_witness :
  exists first,
    py_index (repeat (F64 1) 6) 0 = Ok first
    /\ main (fun _ _ => 0%float) pow_on_integers ted_small 6 8 "gardner"
            default_tau default_gain default_Kp default_Ki default_delta
            default_symbol_prev false
       = Ok (set_traces ted_small [] [] [default_symbol_prev] [first],
             ([], [], [default_symbol_prev], [first]))
    /\ forall keep_all,
         results (set_traces ted_small [] [] [default_symbol_prev] [first])
                 (repeat 1 32) keep_all
         = Raise (if keep_all || (len (repeat 1 32) <=? 31) then IndexError
                  else ValueError).
Proof.
  apply (main_without_iteration (fun _ _ => 0%float) pow_on_integers ted_small
           6 8 "gardner" default_tau default_gain default_Kp default_Ki
           default_delta default_symbol_prev false (repeat (F64 1) 6)
           (repeat 1 32)).
  - reflexivity.
  - discriminate.
  - lia.
Defined.

(* ===================================================================== *)
(** * Marker plots: positions against values *)
(* ===================================================================== *)

Lemma filter_all {A : Type} (p : A -> bool) (l : list A) :
  (forall x, In x l -> p x = true) -> filter p l = l.
Proof.
  induction l as [|a l IH]; intros H; [reflexivity|].
  simpl. rewrite (H a) by (left; reflexivity).
  rewrite IH; [reflexivity|]. intros x Hx. apply H. right. exact Hx.
Qed.

Lemma nth_map_seq_from {A : Type} (f : nat -> A) (d : A) (s n i : nat) :
  (i < n)%nat -> nth i (map f (seq s n)) d = f (s + i)%nat.
Proof.
  intros Hi.
  rewrite (nth_indep _ d (f 0%nat))
    by (rewrite length_map, length_seq; exact Hi).
  rewrite map_nth, seq_nth by exact Hi. reflexivity.
Qed.

(** [-(-a // b)] is the quotient rounded up. *)
Lemma neg_floordiv_neg (a b : Z) :
  0 < b -> - ((- a) / b) = a / b + (if a mod b =? 0 then 0 else 1).
Proof.
  intros Hb. destruct (Z.eqb_spec (a mod b) 0) as [E|E].
  - rewrite Z_div_zero_opp_full by exact E. lia.
  - rewrite Z_div_nz_opp_full by (try lia; exact E). lia.
Qed.

(** [indexes[indexes >= 0]] drops the first entry of
    [arange(0 - r, ..., step)] exactly when [r] is not zero. *)
Lemma arange_nonneg_part (r step : Z) (n : nat) :
  0 < step -> 0 <= r < step -> (r = 0 \/ (0 < n)%nat) ->
  let j0 := if r =? 0 then 0%nat else 1%nat in
  filter (fun z => 0 <=? z)
         (map (fun k => 0 - r + Z.of_nat k * step) (seq 0 n))
  = map (fun k => 0 - r + Z.of_nat k * step) (seq j0 (n - j0)).
Proof.
  intros Hstep Hr Hn j0. subst j0.
  destruct (Z.eqb_spec r 0) as [E|E].
  - rewrite Nat.sub_0_r. apply filter_all. intros x Hx.
    apply in_map_iff in Hx. destruct Hx as [k [<- _]]. apply Z.leb_le. nia.
  - destruct n as [|n]; [lia|].
    cbn [seq map filter].
    assert (E0 : (0 <=? 0 - r + Z.of_nat 0 * step) = false)
      by (apply Z.leb_gt; lia).
    rewrite E0. replace (S n - 1)%nat with n by lia.
    apply filter_all. intros x Hx.
    apply in_map_iff in Hx. destruct Hx as [k [<- Hk]].
    apply in_seq in Hk. apply Z.leb_le. nia.
Qed.

(** For a window inside the signal the two arguments of the marker plot
    agree: as many positions as values, every position [x] is a window
    index whose signal index [start_idx + x] is a multiple of [step], the
    value plotted there is entry [(start_idx + x) / step] of the marker
    data, and no such multiple of the window is left out. *)
Lemma marker_points_aligned {A : Type} (d : A) (data : list A)
    (step start_idx end_idx : Z) :
  0 < step -> 0 <= start_idx -> start_idx <= end_idx ->
  end_idx <= len data * step ->
  exists xs ys,
    marker_points data step start_idx end_idx = Ok (xs, ys)
    /\ List.length xs = List.length ys
    /\ (forall j, (j < List.length xs)%nat ->
          0 <= nth j xs 0 < end_idx - start_idx
          /\ (start_idx + nth j xs 0) mod step = 0
          /\ nth j ys d
             = nth (Z.to_nat ((start_idx + nth j xs 0) / step)) data d)
    /\ (forall x, 0 <= x < end_idx - start_idx ->
          (start_idx + x) mod step = 0 -> In x xs).
Proof.
  intros Hstep Hs Hse He.
  unfold marker_points, np_arange.
  assert (E1 : (step =? 0) = false) by (apply Z.eqb_neq; lia).
  assert (E2 : (0 <? step) = true) by (apply Z.ltb_lt; lia).
  rewrite E1, E2. cbn [bind].
  set (q := start_idx / step). set (r := start_idx mod step).
  assert (Hqr : start_idx = step * q + r) by (apply Z.div_mod; lia).
  assert (Hr : 0 <= r < step) by (apply Z.mod_pos_bound; lia).
  assert (Hq : 0 <= q) by (apply Z.div_pos; lia).
  set (e := (end_idx - 1) / step + 1).
  assert (Hcnt : (end_idx - start_idx - (0 - r) + step - 1) / step = e - q).
  { replace (end_idx - start_idx - (0 - r) + step - 1)
      with (end_idx - 1 + (1 - q) * step) by lia.
    rewrite Z.div_add by lia. unfold e. lia. }
  rewrite Hcnt.
  rewrite neg_floordiv_neg by exact Hstep. fold q r.
  set (j0 := if r =? 0 then 0 else 1).
  assert (Hj0 : j0 = 0 /\ r = 0 \/ j0 = 1 /\ 0 < r).
  { unfold j0. destruct (Z.eqb_spec r 0); lia. }
  assert (Hj0n : (if r =? 0 then 0%nat else 1%nat) = Z.to_nat j0).
  { unfold j0. destruct (r =? 0); reflexivity. }
  assert (He_le : e <= len data).
  { unfold e. assert ((end_idx - 1) / step < len data); [|lia].
    apply Z.div_lt_upper_bound; lia. }
  assert (Hce : q + j0 <= e).
  { unfold e. assert (q + j0 - 1 <= (end_idx - 1) / step); [|lia].
    apply Z.div_le_lower_bound; [lia|]. nia. }
  rewrite arange_nonneg_part; [|exact Hstep|exact Hr|lia].
  rewrite Hj0n.
  replace (Z.to_nat (e - q) - Z.to_nat j0)%nat
    with (Z.to_nat (e - (q + j0))) by lia.
  unfold py_slice, slice_bound.
  assert (E3 : (q + j0 <? 0) = false) by (apply Z.ltb_ge; lia).
  assert (E4 : (e <? 0) = false) by (apply Z.ltb_ge; lia).
  rewrite E3, E4, !Z.min_l by lia.
  eexists. eexists. split; [reflexivity|].
  assert (Hlen_data : Z.of_nat (List.length data) = len data) by reflexivity.
  split; [|split].
  - rewrite length_map, length_seq, length_firstn, length_skipn. lia.
  - intros j Hj. rewrite length_map, length_seq in Hj.
    rewrite nth_map_seq_from by exact Hj.
    rewrite nth_skipn_firstn by exact Hj.
    replace (start_idx + (0 - r + Z.of_nat (Z.to_nat j0 + j) * step))
      with ((q + j0 + Z.of_nat j) * step) by lia.
    rewrite Z.mod_mul, Z.div_mul by lia.
    split; [|split; [reflexivity|f_equal; lia]].
    assert (Hup : (q + j0 + Z.of_nat j) * step <= end_idx - 1).
    { assert (Hj' : q + j0 + Z.of_nat j <= (end_idx - 1) / step)
        by (unfold e in Hj; lia).
      pose proof (Z.mul_div_le (end_idx - 1) step Hstep). nia. }
    nia.
  - intros x Hx Hmod.
    apply Z.mod_divide in Hmod; [|lia]. destruct Hmod as [m Hm].
    apply in_map_iff. exists (Z.to_nat (m - q)).
    assert (Hmq : q + j0 <= m) by nia.
    assert (Hme : m < e).
    { unfold e. assert (m <= (end_idx - 1) / step); [|lia].
      apply Z.div_le_lower_bound; lia. }
    split; [rewrite Z2Nat.id by lia; lia|]. apply in_seq. lia.
Qed.

(** X8.  [plot_interpolated] with the signal before upsampling: for a window
    inside the interpolated buffer, the ['Original'] markers sit on the window
    positions whose buffer index is a multiple of [self.upsample], on all of
    them, and the marker at buffer index [m * self.upsample] shows
    [original[m]]. *)
Theorem plot_interpolated_original_aligned (self : TED)
    (original buf : list scalar) (start_idx end_idx : option Z) :
  self.(interpolated_pulse) = Some buf ->
  0 < self.(upsample) ->
  let s := match start_idx with Some s => s | None => 0 end in
  let e := match end_idx with Some e => e | None => len buf end in
  0 <= s -> s <= e -> e <= len original * self.(upsample) ->
  exists xs ys,
    plot_interpolated_original self start_idx end_idx original = Ok (xs, ys)
    /\ List.length xs = List.length ys
    /\ (forall j, (j < List.length xs)%nat ->
          0 <= nth j xs 0 < e - s
          /\ (s + nth j xs 0) mod self.(upsample) = 0
          /\ nth j ys (F64 0)
             = nth (Z.to_nat ((s + nth j xs 0) / self.(upsample)))
                   original (F64 0))
    /\ (forall x, 0 <= x < e - s ->
          (s + x) mod self.(upsample) = 0 -> In x xs).
Proof.
  intros Hbuf Hup s e Hs Hse He.
  unfold plot_interpolated_original. fold s.
  assert (E : match end_idx with
              | Some e0 => Ok e0
              | None => p <- attr self.(interpolated_pulse) ;; Ok (len p)
              end = Ok e).
  { unfold e. destruct end_idx; [reflexivity|]. rewrite Hbuf. reflexivity. }
  rewrite E. cbn [bind].
  assert (E1 : (self.(upsample) =? 0) = false) by (apply Z.eqb_neq; lia).
  rewrite E1, Hbuf. cbn [attr bind].
  apply marker_points_aligned; assumption.
Qed.

Lemma plot_interpolated_original_aligned_witness :
  exists xs ys,
    plot_interpolated_original
      (set_interpolated_pulse (TED_init 4) (repeat (F64 1) 12))
      (Some 2) None [F64 1; F64 2; F64 3] = Ok (xs, ys)
    /\ List.length xs = List.length ys
    /\ (forall j, (j < List.length xs)%nat ->
          0 <= nth j xs 0 < 12 - 2
          /\ (2 + nth j xs 0) mod 4 = 0
          /\ nth j ys (F64 0)
             = nth (Z.to_nat ((2 + nth j xs 0) / 4))
                   [F64 1; F64 2; F64 3] (F64 0))
    /\ (forall x, 0 <= x < 12 - 2 -> (2 + x) mod 4 = 0 -> In x xs).
Proof.
  apply (plot_interpolated_original_aligned
           (set_interpolated_pulse (TED_init 4) (repeat (F64 1) 12))
           [F64 1; F64 2; F64 3] (repeat (F64 1) 12) (Some 2) None).
  - reflexivity.
  - reflexivity.
  - discriminate.
  - discriminate.
  - discriminate.
Defined.

(* ===================================================================== *)
(** * SymbolGenerator: symbols, bits and the pulse train *)
(* ===================================================================== *)

Lemma nth_map_seq0_gen {A : Type} (f : nat -> A) (d : A) (n i : nat) :
  (i < n)%nat -> nth i (map f (seq 0 n)) d = f i.
Proof. intros Hi. rewrite nth_map_seq_from by exact Hi. reflexivity. Qed.

Lemma nth_repeat_any {A : Type} (c : A) (n i : nat) : nth i (repeat c n) c = c.
Proof.
  destruct (Nat.lt_ge_cases i n) as [H|H].
  - apply nth_repeat_lt. exact H.
  - apply nth_overflow. rewrite repeat_length. exact H.
Qed.

Lemma symbolstream_value (choice : nat -> bool) (self : SymbolGenerator.t) :
  0 <= SymbolGenerator.num_symbols self ->
  let symbols := map (fun k => if choice k then 1 else -1)
                     (seq 0 (Z.to_nat (SymbolGenerator.num_symbols self))) in
  SymbolGenerator.symbolstream choice self
  = Ok (SymbolGenerator.mk (SymbolGenerator.num_symbols self)
          (SymbolGenerator.sps self) (Some symbols)
          (Some (map (fun s => if 0 <? s then 1 else 0) symbols))
          (SymbolGenerator.pulse_stream self), symbols).
Proof.
  intros Hn symbols.
  unfold SymbolGenerator.symbolstream, SymbolGenerator.np_random_choice.
  assert (E : (SymbolGenerator.num_symbols self <? 0) = false)
    by (apply Z.ltb_ge; exact Hn).
  rewrite E. reflexivity.
Qed.

Lemma pulsestream_value (self : SymbolGenerator.t) (symbols : list Z) :
  SymbolGenerator.symbol_stream self = Some symbols ->
  len symbols = SymbolGenerator.num_symbols self ->
  0 < SymbolGenerator.sps self ->
  let n := SymbolGenerator.num_symbols self in
  let s := SymbolGenerator.sps self in
  let pulses :=
    map (fun i : nat =>
           if Z.of_nat i mod s =? 0
           then IZR (nth (Z.to_nat (Z.of_nat i / s)) symbols 0) else 0%R)
        (seq 0 (Z.to_nat (n * s))) in
  SymbolGenerator.pulsestream self
  = Ok (SymbolGenerator.mk n s (Some symbols)
          (SymbolGenerator.bit_stream self) (Some pulses), pulses).
Proof.
  intros Hsym Hlen Hsps n s pulses.
  pose proof (len_nonneg symbols) as Hn0. rewrite Hlen in Hn0. fold n in Hn0.
  unfold SymbolGenerator.pulsestream. fold n s. unfold NP.zeros.
  assert (E0 : (n * s <? 0) = false) by (apply Z.ltb_ge; nia).
  rewrite E0. cbn [bind]. rewrite Hsym. cbn [attr bind].
  unfold set_strided.
  assert (E1 : (s =? 0) = false) by (apply Z.eqb_neq; lia).
  assert (E2 : (0 <? s) = true) by (apply Z.ltb_lt; lia).
  assert (Hrep : len (repeat 0%R (Z.to_nat (n * s))) = n * s).
  { unfold len. rewrite repeat_length. nia. }
  assert (Hcount : strided_count (n * s) s = n).
  { unfold strided_count. rewrite E2.
    replace (n * s + s - 1) with (s - 1 + n * s) by lia.
    rewrite Z.div_add by lia. rewrite Z.div_small by lia. lia. }
  assert (Hvals : len (map IZR symbols) = n).
  { unfold len. rewrite length_map. exact Hlen. }
  rewrite E1, Hrep, Hcount, Hvals, Z.eqb_refl, E2. cbn [orb bind].
  rewrite Z.abs_eq by lia. rewrite repeat_length.
  assert (Hmap : map (fun i : nat =>
             if Z.of_nat i mod s =? 0
             then nth (Z.to_nat (Z.of_nat i / s)) (map IZR symbols) 0%R
             else nth i (repeat 0%R (Z.to_nat (n * s))) 0%R)
           (seq 0 (Z.to_nat (n * s))) = pulses).
  { unfold pulses. apply map_ext. intros i.
    destruct (Z.of_nat i mod s =? 0).
    - change 0%R with (IZR 0). apply map_nth.
    - apply nth_repeat_any. }
  rewrite Hmap. reflexivity.
Qed.

(** X9.  [symbolstream]: for a count that is not negative it returns that many
    symbols, each 1 or -1, and stores with them the bit stream, of the same
    length, whose entry is 1 where the symbol is 1 and 0 where it is -1. *)
Theorem symbolstream_symbols_and_bits (choice : nat -> bool)
    (self : SymbolGenerator.t) :
  0 <= SymbolGenerator.num_symbols self ->
  exists self' symbols bits,
    SymbolGenerator.symbolstream choice self = Ok (self', symbols)
    /\ SymbolGenerator.symbol_stream self' = Some symbols
    /\ SymbolGenerator.bit_stream self' = Some bits
    /\ len symbols = SymbolGenerator.num_symbols self
    /\ Forall2 (fun s b => (s = 1 \/ s = -1) /\ (b = 0 \/ b = 1)
                           /\ s = 2 * b - 1)
               symbols bits.
Proof.
  intros Hn. rewrite symbolstream_value by exact Hn.
  eexists. eexists. eexists. split; [reflexivity|].
  split; [reflexivity|]. split; [reflexivity|]. split.
  - unfold len. rewrite length_map, length_seq. lia.
  - induction (seq 0 (Z.to_nat (SymbolGenerator.num_symbols self)))
      as [|k l IH];
      simpl; constructor; [|exact IH].
    destruct (choice k); simpl; lia.
Qed.

Lemma symbolstream_symbols_and_bits_witness :
  exists self' symbols bits,
    SymbolGenerator.symbolstream Nat.even
      (SymbolGenerator.mk 3 2 None None None) = Ok (self', symbols)
    /\ SymbolGenerator.symbol_stream self' = Some symbols
    /\ SymbolGenerator.bit_stream self' = Some bits
    /\ len symbols = 3
    /\ Forall2 (fun s b => (s = 1 \/ s = -1) /\ (b = 0 \/ b = 1)
                           /\ s = 2 * b - 1)
               symbols bits.
Proof.
  apply (symbolstream_symbols_and_bits Nat.even
           (SymbolGenerator.mk 3 2 None None None)).
  discriminate.
Defined.

(** X10.  [pulsestream]: with [sps > 0] and a symbol stream of [num_symbols]
    entries, the pulse train has [num_symbols * sps] samples; sample [k * sps]
    is symbol [k] and every other sample is zero. *)
Theorem pulsestream_places_symbols (self : SymbolGenerator.t)
    (symbols : list Z) :
  SymbolGenerator.symbol_stream self = Some symbols ->
  len symbols = SymbolGenerator.num_symbols self ->
  0 < SymbolGenerator.sps self ->
  exists self' pulses,
    SymbolGenerator.pulsestream self = Ok (self', pulses)
    /\ SymbolGenerator.pulse_stream self' = Some pulses
    /\ len pulses
       = SymbolGenerator.num_symbols self * SymbolGenerator.sps self
    /\ (forall k, 0 <= k < SymbolGenerator.num_symbols self ->
          nth (Z.to_nat (k * SymbolGenerator.sps self)) pulses 0%R
          = IZR (nth (Z.to_nat k) symbols 0))
    /\ (forall i, 0 <= i < len pulses ->
          i mod SymbolGenerator.sps self <> 0 ->
          nth (Z.to_nat i) pulses 0%R = 0%R).
Proof.
  intros Hsym Hlen Hsps.
  rewrite (pulsestream_value self symbols Hsym Hlen Hsps).
  set (n := SymbolGenerator.num_symbols self) in *.
  set (s := SymbolGenerator.sps self) in *.
  pose proof (len_nonneg symbols) as Hn0. rewrite Hlen in Hn0.
  eexists. eexists. split; [reflexivity|]. split; [reflexivity|].
  assert (Hl : len (map (fun i : nat =>
             if Z.of_nat i mod s =? 0
             then IZR (nth (Z.to_nat (Z.of_nat i / s)) symbols 0) else 0%R)
           (seq 0 (Z.to_nat (n * s)))) = n * s).
  { unfold len. rewrite length_map, length_seq. nia. }
  split; [exact Hl|]. split.
  - intros k Hk. rewrite nth_map_seq0_gen by nia.
    rewrite Z2Nat.id by nia. rewrite Z.mod_mul, Z.div_mul by lia.
    reflexivity.
  - intros i Hi Hmod. rewrite Hl in Hi. rewrite nth_map_seq0_gen by lia.
    rewrite Z2Nat.id by lia.
    destruct (Z.eqb_spec (i mod s) 0); [contradiction | reflexivity].
Qed.

Lemma pulsestream_places_symbols_witness :
  exists self' pulses,
    SymbolGenerator.pulsestream
      (SymbolGenerator.mk 2 3 (Some [1; -1]) (Some [1; 0]) None)
    = Ok (self', pulses)
    /\ SymbolGenerator.pulse_stream self' = Some pulses
    /\ len pulses = 2 * 3
    /\ (forall k, 0 <= k < 2 ->
          nth (Z.to_nat (k * 3)) pulses 0%R
          = IZR (nth (Z.to_nat k) [1; -1] 0))
    /\ (forall i, 0 <= i < len pulses -> i mod 3 <> 0 ->
          nth (Z.to_nat i) pulses 0%R = 0%R).
Proof.
  apply (pulsestream_places_symbols
           (SymbolGenerator.mk 2 3 (Some [1; -1]) (Some [1; 0]) None)
           [1; -1]).
  - reflexivity.
  - reflexivity.
  - reflexivity.
Defined.

(** X11.  The constructor: it returns exactly when the symbol count is not
    negative and [sps] is positive (or there is no symbol and [sps] is
    negative), with the three streams set and [num_symbols * sps] pulse
    samples; in every other case it raises [ValueError]. *)
Theorem symbolgenerator_init_returns_or_raises (choice : nat -> bool)
    (n s : Z) :
  if (0 <=? n) && ((0 <? s) || ((n =? 0) && (s <? 0)))
  then exists g symbols bits pulses,
         SymbolGenerator.init choice n s = Ok g
         /\ SymbolGenerator.symbol_stream g = Some symbols
         /\ SymbolGenerator.bit_stream g = Some bits
         /\ SymbolGenerator.pulse_stream g = Some pulses
         /\ len symbols = n /\ len bits = n /\ len pulses = n * s
  else SymbolGenerator.init choice n s = Raise ValueError.
Proof.
  unfold SymbolGenerator.init.
  destruct (Z.leb_spec 0 n) as [Hn|Hn]; cbn [andb].
  2:{ unfold SymbolGenerator.symbolstream, SymbolGenerator.np_random_choice.
      cbn [SymbolGenerator.num_symbols].
      assert (E : (n <? 0) = true) by (apply Z.ltb_lt; exact Hn).
      rewrite E. reflexivity. }
  rewrite symbolstream_value by exact Hn.
  cbn [bind SymbolGenerator.num_symbols SymbolGenerator.sps
       SymbolGenerator.pulse_stream].
  set (symbols := map (fun k : nat => if choice k then 1 else -1)
                      (seq 0 (Z.to_nat n))).
  assert (Hlen : len symbols = n).
  { unfold symbols, len. rewrite length_map, length_seq. lia. }
  destruct (Z.ltb_spec 0 s) as [Hs|Hs]; cbn [orb].
  - rewrite (pulsestream_value _ symbols) by (try reflexivity; assumption).
    cbn [bind SymbolGenerator.num_symbols SymbolGenerator.sps
         SymbolGenerator.bit_stream].
    eexists. eexists. eexists. eexists.
    split; [reflexivity|]. split; [reflexivity|]. split; [reflexivity|].
    split; [reflexivity|]. split; [exact Hlen|].
    split; unfold len, symbols; rewrite !length_map, length_seq; [lia | nia].
  - unfold SymbolGenerator.pulsestream.
    cbn [SymbolGenerator.num_symbols SymbolGenerator.sps
         SymbolGenerator.symbol_stream SymbolGenerator.bit_stream].
    unfold NP.zeros.
    destruct (Z.eqb_spec n 0) as [Hn0|Hn0]; cbn [andb].
    + destruct (Z.ltb_spec s 0) as [Hs0|Hs0].
      * clear Hlen. subst symbols. subst n. change (0 * s) with 0.
        change (0 <? 0) with false. change (Z.to_nat 0) with O.
        cbn [bind attr repeat seq map]. unfold set_strided.
        assert (E1 : (s =? 0) = false) by (apply Z.eqb_neq; lia).
        assert (Hc : strided_count (len (@nil R)) s = 0).
        { unfold strided_count.
          assert (E2 : (0 <? s) = false) by (apply Z.ltb_ge; lia).
          rewrite E2. apply Z.div_small. unfold len. simpl. lia. }
        rewrite E1, Hc. simpl.
        eexists. eexists. eexists. eexists.
        repeat (split; [reflexivity|]). reflexivity.
      * assert (s = 0) by lia. clear Hlen. subst symbols. subst s n.
        simpl. reflexivity.
    + assert (Hneg : n * s <= 0) by nia.
      destruct (Z.eq_dec s 0) as [Hs0|Hs0].
      * subst s. rewrite Z.mul_0_r. simpl (0 <? 0). cbn [bind attr].
        unfold set_strided. simpl (0 =? 0). reflexivity.
      * assert (E : (n * s <? 0) = true) by (apply Z.ltb_lt; nia).
        rewrite E. reflexivity.
Qed.

(** X12.  [plot_symbols]: for a window inside the pulse train of a generator
    whose bit stream has one bit per [sps] pulse samples, the ['Bits'] markers
    sit on the window positions whose pulse index is a multiple of [sps], on
    all of them, and the marker at pulse index [k * sps] shows bit [k]. *)
Theorem plot_symbols_bits_aligned (self : SymbolGenerator.t)
    (bits : list Z) (pulses : list R) (start_idx end_idx : option Z) :
  SymbolGenerator.bit_stream self = Some bits ->
  SymbolGenerator.pulse_stream self = Some pulses ->
  len pulses = len bits * SymbolGenerator.sps self ->
  0 < SymbolGenerator.sps self ->
  let s := match start_idx with Some s => s | None => 0 end in
  let e := match end_idx with Some e => e | None => len pulses end in
  0 <= s -> s <= e -> e <= len pulses ->
  exists xs ys,
    SymbolGenerator.plot_symbols_bits self start_idx end_idx = Ok (xs, ys)
    /\ List.length xs = List.length ys
    /\ (forall j, (j < List.length xs)%nat ->
          0 <= nth j xs 0 < e - s
          /\ (s + nth j xs 0) mod SymbolGenerator.sps self = 0
          /\ nth j ys 0
             = nth (Z.to_nat ((s + nth j xs 0) / SymbolGenerator.sps self))
                   bits 0)
    /\ (forall x, 0 <= x < e - s ->
          (s + x) mod SymbolGenerator.sps self = 0 -> In x xs).
Proof.
  intros Hbits Hpulses Hlen Hsps s e Hs Hse He.
  unfold SymbolGenerator.plot_symbols_bits. fold s.
  assert (E : match end_idx with
              | Some e0 => Ok e0
              | None => p <- attr (SymbolGenerator.pulse_stream self) ;;
                        Ok (len p)
              end = Ok e).
  { unfold e. destruct end_idx; [reflexivity|]. rewrite Hpulses. reflexivity. }
  rewrite E. cbn [bind]. rewrite Hpulses. cbn [attr bind].
  assert (E1 : (SymbolGenerator.sps self =? 0) = false)
    by (apply Z.eqb_neq; lia).
  rewrite E1, Hbits. cbn [attr bind].
  apply marker_points_aligned; try assumption. lia.
Qed.

Lemma plot_symbols_bits_aligned_witness :
  exists xs ys,
    SymbolGenerator.plot_symbols_bits
      (SymbolGenerator.mk 2 3 (Some [1; -1]) (Some [1; 0])
         (Some [1; 0; 0; -1; 0; 0]%R))
      (Some 1) None = Ok (xs, ys)
    /\ List.length xs = List.length ys
    /\ (forall j, (j < List.length xs)%nat ->
          0 <= nth j xs 0 < 6 - 1
          /\ (1 + nth j xs 0) mod 3 = 0
          /\ nth j ys 0 = nth (Z.to_nat ((1 + nth j xs 0) / 3)) [1; 0] 0)
    /\ (forall x, 0 <= x < 6 - 1 -> (1 + x) mod 3 = 0 -> In x xs).
Proof.
  apply (plot_symbols_bits_aligned
           (SymbolGenerator.mk 2 3 (Some [1; -1]) (Some [1; 0])
              (Some [1; 0; 0; -1; 0; 0]%R))
           [1; 0] [1; 0; 0; -1; 0; 0]%R (Some 1) None).
  - reflexivity.
  - reflexivity.
  - reflexivity.
  - reflexivity.
  - discriminate.
  - discriminate.
  - discriminate.
Defined.

(* ===================================================================== *)
(** * PulseShaper: the zero crossings *)
(* ===================================================================== *)

Section ZeroCrossings.

Variable rcosfilter : Z -> R -> R -> R -> list R * list R.

(** The list [createrc] stores: the multiples of [sps] below the centre in
    increasing order, then those above it. *)
Lemma createrc_zero_crossings_value (self self' : PulseShaper.t) (rc : list R) :
  0 < PulseShaper.sps self ->
  0 < PulseShaper.rc_taps self ->
  PulseShaper.createrc rcosfilter self = Ok (self', rc) ->
  let N := PulseShaper.rc_taps self in
  let s := PulseShaper.sps self in
  PulseShaper.rc_taps self' = N /\ PulseShaper.sps self' = s
  /\ PulseShaper.zero_crossings self'
     = Some (rev (map (fun k => N / 2 - s + Z.of_nat k * - s)
                      (seq 0 (Z.to_nat (N / 2 / s))))
             ++ map (fun k => N / 2 + Z.of_nat k * s)
                    (seq 1 (Z.to_nat ((N - N / 2 + s - 1) / s) - 1))).
Proof.
  intros Hsps Htaps H N s. unfold PulseShaper.createrc in H.
  destruct (rcosfilter _ _ _ _) as [time_idx h_rc].
  fold N s in H. unfold np_arange in H.
  assert (E1 : (- s =? 0) = false) by (apply Z.eqb_neq; lia).
  assert (E2 : (s =? 0) = false) by (apply Z.eqb_neq; lia).
  assert (E3 : (0 <? s) = true) by (apply Z.ltb_lt; lia).
  assert (E3' : (0 <? - s) = false) by (apply Z.ltb_ge; lia).
  rewrite E1, E2, E3, E3' in H. cbn [bind] in H.
  replace ((N / 2 - s - -1 - - s - 1) / - - s) with (N / 2 / s) in H
    by (f_equal; lia).
  set (m := Z.to_nat (N / 2 / s)) in *.
  set (nr := Z.to_nat ((N - N / 2 + s - 1) / s)) in *.
  assert (Hc : 0 <= N / 2) by (apply Z.div_pos; lia).
  assert (Hc' : 2 * (N / 2) <= N < 2 * (N / 2) + 2).
  { pose proof (Z.div_mod N 2 ltac:(lia)).
    pose proof (Z.mod_pos_bound N 2 ltac:(lia)). lia. }
  assert (Hm : 0 <= N / 2 / s) by (apply Z.div_pos; lia).
  assert (Hms : s * (N / 2 / s) <= N / 2 < s * (N / 2 / s) + s).
  { pose proof (Z.div_mod (N / 2) s ltac:(lia)).
    pose proof (Z.mod_pos_bound (N / 2) s ltac:(lia)). lia. }
  assert (Hnr : (m <= nr <= m + 1)%nat /\ (1 <= nr)%nat).
  { unfold m, nr.
    assert (N / 2 / s <= (N - N / 2 + s - 1) / s <= N / 2 / s + 1).
    { split.
      - apply Z.div_le_lower_bound; [lia|]. nia.
      - assert ((N - N / 2 + s - 1) / s < N / 2 / s + 2); [|lia].
        apply Z.div_lt_upper_bound; [lia|]. nia. }
    assert (1 <= (N - N / 2 + s - 1) / s)
      by (apply Z.div_le_lower_bound; lia).
    lia. }
  set (left := map (fun k => N / 2 - s + Z.of_nat k * - s) (seq 0 m)) in *.
  set (f := fun k => N / 2 + Z.of_nat k * s) in *.
  assert (Hll : List.length (rev left) = m).
  { unfold left. rewrite length_rev, length_map, length_seq. reflexivity. }
  unfold NP.delete in H.
  assert (Hidx : len (rev left ++ map f (seq 0 nr)) / 2 = Z.of_nat m).
  { unfold len. rewrite length_app, Hll, length_map, length_seq.
    symmetry. apply Z.div_unique with (r := Z.of_nat (nr - m)); lia. }
  rewrite Hidx in H.
  assert (E4 : (Z.of_nat m <? 0) = false) by (apply Z.ltb_ge; lia).
  assert (E5 : (0 <=? Z.of_nat m) = true) by (apply Z.leb_le; lia).
  assert (E6 : (Z.of_nat m <? len (rev left ++ map f (seq 0 nr))) = true).
  { apply Z.ltb_lt. unfold len.
    rewrite length_app, Hll, length_map, length_seq. lia. }
  rewrite E4, E5, E6 in H. cbn [andb bind] in H.
  rewrite Nat2Z.id in H.
  rewrite firstn_app, skipn_app, Hll in H.
  rewrite <- Hll in H at 1. rewrite firstn_all in H.
  rewrite Nat.sub_diag in H. cbn [firstn] in H. rewrite app_nil_r in H.
  rewrite skipn_all2 in H by lia.
  replace (S m - m)%nat with 1%nat in H by lia.
  destruct nr as [|nr']; [lia|]. cbn [seq map skipn] in H.
  inversion H; subst self' rc. cbn [PulseShaper.set_kernel
    PulseShaper.rc_taps PulseShaper.sps PulseShaper.zero_crossings].
  split; [reflexivity|]. split; [reflexivity|].
  replace (S nr' - 1)%nat with nr' by lia. reflexivity.
Qed.

End ZeroCrossings.

(** The members of that list. *)
Lemma zero_crossings_members (N s z : Z) :
  0 < s -> 0 < N ->
  In z (rev (map (fun k => N / 2 - s + Z.of_nat k * - s)
                 (seq 0 (Z.to_nat (N / 2 / s))))
        ++ map (fun k => N / 2 + Z.of_nat k * s)
               (seq 1 (Z.to_nat ((N - N / 2 + s - 1) / s) - 1)))
  <-> 0 <= z < N /\ z <> N / 2 /\ (z - N / 2) mod s = 0.
Proof.
  intros Hsps Htaps.
  assert (Hc : 0 <= N / 2) by (apply Z.div_pos; lia).
  assert (Hc' : 2 * (N / 2) <= N < 2 * (N / 2) + 2).
  { pose proof (Z.div_mod N 2 ltac:(lia)).
    pose proof (Z.mod_pos_bound N 2 ltac:(lia)). lia. }
  assert (Hm : 0 <= N / 2 / s) by (apply Z.div_pos; lia).
  assert (Hms : s * (N / 2 / s) <= N / 2 < s * (N / 2 / s) + s).
  { pose proof (Z.div_mod (N / 2) s ltac:(lia)).
    pose proof (Z.mod_pos_bound (N / 2) s ltac:(lia)). lia. }
  set (W := (N - N / 2 + s - 1) / s).
  assert (HW : s * W <= N - N / 2 + s - 1 < s * W + s).
  { unfold W. pose proof (Z.div_mod (N - N / 2 + s - 1) s ltac:(lia)).
    pose proof (Z.mod_pos_bound (N - N / 2 + s - 1) s ltac:(lia)). lia. }
  assert (HW1 : 1 <= W) by nia.
  rewrite in_app_iff, <- in_rev, !in_map_iff. split.
  - intros [[k [<- Hk]] | [k [<- Hk]]]; apply in_seq in Hk.
    + replace (N / 2 - s + Z.of_nat k * - s - N / 2)
        with ((- (Z.of_nat k + 1)) * s) by lia.
      rewrite Z.mod_mul by lia.
      assert (Z.of_nat k + 1 <= N / 2 / s) by lia.
      repeat split; nia.
    + replace (N / 2 + Z.of_nat k * s - N / 2) with (Z.of_nat k * s) by lia.
      rewrite Z.mod_mul by lia.
      assert (Z.of_nat k < W) by lia.
      repeat split; nia.
  - intros [Hz [Hne Hmod]].
    apply Z.mod_divide in Hmod; [|lia]. destruct Hmod as [t Ht].
    destruct (Z.lt_ge_cases t 0) as [Hneg|Hpos].
    + left. exists (Z.to_nat (- t - 1)). split.
      * rewrite Z2Nat.id by lia. lia.
      * apply in_seq. assert (- t <= N / 2 / s); [|lia].
        apply Z.div_le_lower_bound; [lia|]. nia.
    + right.
      assert (Ht0 : 0 < t) by (destruct (Z.eq_dec t 0); [subst; lia|lia]).
      exists (Z.to_nat t). split.
      * rewrite Z2Nat.id by lia. lia.
      * apply in_seq. assert (t < W); [|lia]. nia.
Qed.

(** X13.  [createrc] and the zero crossings: for positive [sps] and tap count
    the stored positions are exactly the taps at a non-zero multiple of [sps]
    from the centre tap [rc_taps // 2]; the centre itself is the entry that
    [np.delete] removes. *)
Theorem createrc_zero_crossings
    (rcosfilter : Z -> R -> R -> R -> list R * list R)
    (self self' : PulseShaper.t) (rc : list R) :
  0 < PulseShaper.sps self ->
  0 < PulseShaper.rc_taps self ->
  PulseShaper.createrc rcosfilter self = Ok (self', rc) ->
  exists zc,
    PulseShaper.zero_crossings self' = Some zc
    /\ forall z, In z zc <->
         0 <= z < PulseShaper.rc_taps self
         /\ z <> PulseShaper.rc_taps self / 2
         /\ (z - PulseShaper.rc_taps self / 2) mod PulseShaper.sps self = 0.
Proof.
  intros Hsps Htaps H.
  destruct (createrc_zero_crossings_value rcosfilter self self' rc Hsps Htaps H)
    as [_ [_ Hzc]].
  eexists. split; [exact Hzc|].
  intros z. apply zero_crossings_members; assumption.
Qed.

Lemma createrc_zero_crossings_witness :
  exists zc,
    PulseShaper.zero_crossings
      (PulseShaper.set_kernel
         (PulseShaper.mk 5 (3 / 10)%R 2 None None None None None None None
                         None None)
         [0; 0; 1; 0; 0]%R [0; 4]) = Some zc
    /\ forall z, In z zc <-> 0 <= z < 5 /\ z <> 5 / 2 /\ (z - 5 / 2) mod 2 = 0.
Proof.
  apply (createrc_zero_crossings
           (fun _ _ _ _ => ([], [0; 0; 0; 1; 0; 0]%R))
           (PulseShaper.mk 5 (3 / 10)%R 2 None None None None None None None
                           None None)
           _ [0; 0; 1; 0; 0]%R).
  - reflexivity.
  - reflexivity.
  - reflexivity.
Defined.

(* ===================================================================== *)
(** * PulseShaper: the two delay stages together *)
(* ===================================================================== *)

(** The integer-delay stage keeps the length for a delay within the
    signal. *)
Lemma integer_delay_length (self : PulseShaper.t) (x : list R) :
  PulseShaper.pulse_shaped self = Some x ->
  (forall d, PulseShaper.int_delay self = Some d -> 0 <= d <= len x) ->
  exists y, PulseShaper.integer_delay self = Ok y /\ len y = len x.
Proof.
  intros Hx Hd. unfold PulseShaper.integer_delay, PulseShaper.truthy_int.
  destruct (PulseShaper.int_delay self) as [d|].
  - specialize (Hd d eq_refl). destruct (Z.eqb_spec d 0) as [E|E].
    + exists x. rewrite Hx. split; reflexivity.
    + unfold NP.zeros.
      assert (E1 : (d <? 0) = false) by (apply Z.ltb_ge; lia).
      rewrite E1. cbn [bind]. rewrite Hx. cbn [attr bind].
      eexists. split; [reflexivity|].
      rewrite py_slice_drop_last by lia.
      rewrite len_app. unfold len. rewrite repeat_length, length_firstn.
      unfold len in Hd. lia.
  - exists x. rewrite Hx. split; reflexivity.
Qed.

(** The slice [[(M-1)//2 : -(M-1)//2]] removes [M - 1] samples for an odd
    [M >= 3]. *)
Lemma trimmed_length {A : Type} (full : list A) (M : Z) :
  Z.odd M = true -> 3 <= M -> M - 1 <= len full ->
  len (py_slice full (Some ((M - 1) / 2)) (Some ((- (M - 1)) / 2)))
  = len full - (M - 1).
Proof.
  intros Hodd HM Hlen. destruct (odd_half M Hodd) as [k [HMk [Hk1 Hk2]]].
  rewrite Hk1, Hk2. rewrite py_slice_trim by lia.
  unfold len in *. rewrite length_firstn, length_skipn. lia.
Qed.

Lemma pulseshaping_value (self : PulseShaper.t) (pulses rc full : list R)
    (keep_edges : bool) :
  PulseShaper.raised_cosine self = Some rc ->
  NP.convolve pulses rc = Ok full ->
  let shaped :=
    if negb keep_edges
    then py_slice full (Some ((PulseShaper.rc_taps self - 1) / 2))
                       (Some ((- (PulseShaper.rc_taps self - 1)) / 2))
    else full in
  PulseShaper.pulseshaping self pulses keep_edges
  = Ok (PulseShaper.set_pulse_shaped self shaped, shaped).
Proof.
  intros Hrc Hconv shaped. unfold PulseShaper.pulseshaping.
  rewrite Hrc. cbn [attr bind]. rewrite Hconv. reflexivity.
Qed.

Lemma fractionaldelay_value (self : PulseShaper.t) (y kernel full : list R)
    (M : Z) (d : R) (keep_edges : bool) :
  PulseShaper.integer_delay self = Ok y ->
  PulseShaper.frac_delay self = Some d ->
  d <> 0%R ->
  PulseShaper.sinc_taps self = Some M ->
  PulseShaper.sinc_kernel M d = Ok kernel ->
  NP.convolve y kernel = Ok full ->
  let out :=
    if negb keep_edges
    then py_slice full (Some ((M - 1) / 2)) (Some ((- (M - 1)) / 2))
    else full in
  PulseShaper.fractionaldelay self keep_edges
  = Ok (PulseShaper.set_pulse_shaped_delayed self out, out).
Proof.
  intros Hy Hfrac Hd Htaps Hker Hconv out.
  unfold PulseShaper.fractionaldelay. rewrite Hy. cbn [bind].
  unfold PulseShaper.truthy_float. rewrite Hfrac.
  destruct (Req_dec_T d 0) as [E|_]; [contradiction|].
  rewrite Htaps. cbn [bind]. rewrite Hker. cbn [bind].
  rewrite Hconv. reflexivity.
Qed.

(** The two delay stages on a non-empty signal: what [fractionaldelay]
    computes and how long it is. *)
Lemma fractionaldelay_length (self : PulseShaper.t) (x : list R)
    (M : Z) (d : R) :
  PulseShaper.pulse_shaped self = Some x ->
  x <> [] ->
  (forall i, PulseShaper.int_delay self = Some i -> 0 <= i <= len x) ->
  PulseShaper.frac_delay self = Some d ->
  (0 < d < 1)%R ->
  PulseShaper.sinc_taps self = Some M ->
  Z.odd M = true -> 3 <= M ->
  exists full,
    len full = len x + M - 1
    /\ forall keep_edges,
         let out :=
           if negb keep_edges
           then py_slice full (Some ((M - 1) / 2)) (Some ((- (M - 1)) / 2))
           else full in
         PulseShaper.fractionaldelay self keep_edges
         = Ok (PulseShaper.set_pulse_shaped_delayed self out, out).
Proof.
  intros Hx Hne Hint Hfrac Hd Htaps Hodd HM.
  destruct (integer_delay_length self x Hx Hint) as [y [Hy Hleny]].
  destruct (sinc_kernel_sums_to_one M d Hodd ltac:(lia) Hd)
    as [kernel [Hker [Hlenk _]]].
  assert (Hyne : y <> []).
  { intros E. subst y. pose proof (len_pos x Hne). unfold len in Hleny at 1.
    simpl in Hleny. lia. }
  assert (Hkne : kernel <> []).
  { intros E. subst kernel. unfold len in Hlenk. simpl in Hlenk. lia. }
  destruct (convolve_length y kernel Hyne Hkne) as [full [Hconv Hfull]].
  exists full. split; [lia|]. intros keep_edges.
  apply (fractionaldelay_value self y kernel full M d keep_edges);
    try assumption. lra.
Qed.

(** X16.  Both delay stages together. With an integer delay within the signal
    (or none), a fractional delay in (0,1) and an odd number of at least three
    sinc taps, [fractionaldelay] returns a signal as long as the shaped one;
    with [keep_edges=True] it is [sinc_taps - 1] samples longer. *)
Theorem fractionaldelay_keeps_length (self : PulseShaper.t) (x : list R)
    (M : Z) (d : R) :
  PulseShaper.pulse_shaped self = Some x ->
  x <> [] ->
  (forall i, PulseShaper.int_delay self = Some i -> 0 <= i <= len x) ->
  PulseShaper.frac_delay self = Some d ->
  (0 < d < 1)%R ->
  PulseShaper.sinc_taps self = Some M ->
  Z.odd M = true -> 3 <= M ->
  exists out full,
    PulseShaper.fractionaldelay self false
      = Ok (PulseShaper.set_pulse_shaped_delayed self out, out)
    /\ PulseShaper.fractionaldelay self true
       = Ok (PulseShaper.set_pulse_shaped_delayed self full, full)
    /\ len out = len x
    /\ len full = len x + M - 1.
Proof.
  intros Hx Hne Hint Hfrac Hd Htaps Hodd HM.
  destruct (fractionaldelay_length self x M d Hx Hne Hint Hfrac Hd Htaps
              Hodd HM) as [full [Hfull Hstep]].
  pose proof (len_pos x Hne) as Hxpos.
  eexists. exists full.
  split; [apply (Hstep false)|]. split; [apply (Hstep true)|].
  cbn [negb]. split; [|exact Hfull].
  rewrite trimmed_length by (try assumption; lia). lia.
Qed.

Lemma fractionaldelay_keeps_length_witness :
  exists out full,
    PulseShaper.fractionaldelay ps_constant false
      = Ok (PulseShaper.set_pulse_shaped_delayed ps_constant out, out)
    /\ PulseShaper.fractionaldelay ps_constant true
       = Ok (PulseShaper.set_pulse_shaped_delayed ps_constant full, full)
    /\ len out = len [1%R; 1%R; 1%R]
    /\ len full = len [1%R; 1%R; 1%R] + 3 - 1.
Proof.
  apply (fractionaldelay_keeps_length ps_constant [1%R; 1%R; 1%R] 3 (1 / 2)%R).
  - reflexivity.
  - discriminate.
  - intros i Hi. discriminate Hi.
  - reflexivity.
  - lra.
  - reflexivity.
  - reflexivity.
  - discriminate.
Defined.

(** X18.  The two shaping stages of the test bench with default trimming,
    [pulseshaping] then [fractionaldelay]: for a kernel of an odd number
    [rc_taps >= 3] of taps, a non-empty pulse train, an integer delay within
    it, a fractional delay in (0, 1) and an odd number [sinc_taps >= 3] of
    sinc taps, both stages return, both keep the number of samples, and the
    delayed signal is stored in [pulse_shaped_delayed]. *)
Theorem shaping_chain_keeps_length (ps : PulseShaper.t)
    (pulses rc : list R) (M : Z) (d : R) :
  PulseShaper.raised_cosine ps = Some rc ->
  len rc = PulseShaper.rc_taps ps ->
  Z.odd (PulseShaper.rc_taps ps) = true -> 3 <= PulseShaper.rc_taps ps ->
  pulses <> [] ->
  (forall i, PulseShaper.int_delay ps = Some i -> 0 <= i <= len pulses) ->
  PulseShaper.frac_delay ps = Some d -> (0 < d < 1)%R ->
  PulseShaper.sinc_taps ps = Some M -> Z.odd M = true -> 3 <= M ->
  exists ps1 shaped ps2 delayed,
    PulseShaper.pulseshaping ps pulses false = Ok (ps1, shaped)
    /\ PulseShaper.fractionaldelay ps1 false = Ok (ps2, delayed)
    /\ len shaped = len pulses
    /\ len delayed = len pulses
    /\ PulseShaper.pulse_shaped_delayed ps2 = Some delayed.
Proof.
  intros Hrc Hlenrc Hodd H3 Hp Hint Hfrac Hd Htaps HoddM HM.
  pose proof (len_pos pulses Hp) as Hpp.
  assert (Hrcne : rc <> []).
  { intros E. subst rc. unfold len in Hlenrc. simpl in Hlenrc. lia. }
  destruct (convolve_length pulses rc Hp Hrcne) as [full1 [Hconv1 Hfull1]].
  pose proof (pulseshaping_value ps pulses rc full1 false Hrc Hconv1) as H1.
  cbn [negb] in H1. cbv zeta in H1.
  set (shaped := py_slice full1 (Some ((PulseShaper.rc_taps ps - 1) / 2))
                   (Some ((- (PulseShaper.rc_taps ps - 1)) / 2))) in *.
  assert (Hshaped : len shaped = len pulses).
  { unfold shaped. rewrite trimmed_length by (try assumption; lia). lia. }
  set (ps1 := PulseShaper.set_pulse_shaped ps shaped) in *.
  assert (Hsne : shaped <> []).
  { intros E. rewrite E in Hshaped. unfold len in Hshaped at 1.
    simpl in Hshaped. lia. }
  destruct (fractionaldelay_length ps1 shaped M d) as [full2 [Hfull2 H2]];
    try assumption; try reflexivity.
  { intros i Hi. rewrite Hshaped. apply Hint. exact Hi. }
  specialize (H2 false). cbn [negb] in H2. cbv zeta in H2.
  set (delayed := py_slice full2 (Some ((M - 1) / 2))
                    (Some ((- (M - 1)) / 2))) in *.
  assert (Hdelayed : len delayed = len pulses).
  { unfold delayed. rewrite trimmed_length by (try assumption; lia). lia. }
  eexists. eexists. eexists. eexists.
  split; [exact H1|]. split; [exact H2|].
  split; [exact Hshaped|]. split; [exact Hdelayed|]. reflexivity.
Qed.

Lemma shaping_chain_keeps_length_witness :
  exists ps1 shaped ps2 delayed,
    PulseShaper.pulseshaping
      (PulseShaper.mk 3 (3 / 10)%R 1 (Some [0; 1; 0]%R) (Some [0; 2])
         (Some 1) (Some (1 / 2)%R) (Some 3) (Some 15%R) None None None)
      [1; -1]%R false = Ok (ps1, shaped)
    /\ PulseShaper.fractionaldelay ps1 false = Ok (ps2, delayed)
    /\ len shaped = len [1; -1]%R
    /\ len delayed = len [1; -1]%R
    /\ PulseShaper.pulse_shaped_delayed ps2 = Some delayed.
Proof.
  apply (shaping_chain_keeps_length
           (PulseShaper.mk 3 (3 / 10)%R 1 (Some [0; 1; 0]%R) (Some [0; 2])
              (Some 1) (Some (1 / 2)%R) (Some 3) (Some 15%R) None None None)
           [1; -1]%R [0; 1; 0]%R 3 (1 / 2)%R).
  - reflexivity.
  - reflexivity.
  - reflexivity.
  - discriminate.
  - discriminate.
  - intros i Hi. inversion Hi; subst i. split; discriminate.
  - reflexivity.
  - lra.
  - reflexivity.
  - reflexivity.
  - discriminate.
Defined.

(* ===================================================================== *)
(** * Rejected configurations *)
(* ===================================================================== *)

Lemma zero_delta_no_result hypot pow self num_samples sps tau gain Kp Ki
    symbol_prev use_pi r :
  0 < sps < num_samples ->
  main hypot pow self num_samples sps "earlylategate" tau gain Kp Ki 0
       symbol_prev use_pi <> Ok r.
Proof.
  intros Hs H. unfold main in H.
  bind_inv H. bind_inv H. bind_inv H. clear H.
  destruct (Z.to_nat num_samples) as [|fuel] eqn:Hfuel; [lia|].
  simpl in Hstep1.
  assert (E : (sps <? num_samples) = true) by (apply Z.ltb_lt; lia).
  rewrite E in Hstep1. bind_inv Hstep1. clear Hstep1.
  match goal with
  | Hb : main_body _ _ _ _ _ _ _ _ _ _ _ _ = Ok _ |- _ =>
      unfold main_body in Hb; bind_inv Hb; bind_inv Hb; bind_inv Hb;
      bind_inv Hb; clear Hb
  end.
  match goal with
  | He : append_error _ _ _ _ _ _ _ _ _ _ _ = Ok _ |- _ =>
      unfold append_error in He;
      change (String.eqb "earlylategate" "mueller") with false in He;
      change (String.eqb "earlylategate" "gardner") with false in He;
      change (String.eqb "earlylategate" "earlylategate") with true in He;
      cbn iota in He; unfold F64.int_truediv in He;
      change (0 =? 0) with true in He; cbn iota in He;
      discriminate He
  end.
Qed.

(** X19.  The Early-Late Gate metric with [delta = 0]: the first iteration
    divides [sps] by zero, so a run that enters the loop ends in an
    exception. *)
Theorem earlylategate_zero_delta_raises hypot pow self num_samples sps tau
    gain Kp Ki symbol_prev use_pi :
  0 < sps < num_samples ->
  exists e, main hypot pow self num_samples sps "earlylategate" tau gain Kp Ki
                 0 symbol_prev use_pi = Raise e.
Proof.
  intros Hs.
  destruct (main hypot pow self num_samples sps "earlylategate" tau gain Kp Ki
                 0 symbol_prev use_pi) as [r|e|] eqn:E.
  - exfalso. revert E. apply zero_delta_no_result. exact Hs.
  - exists e. reflexivity.
  - exfalso. revert E. apply main_enough_fuel. lia.
Qed.

Lemma earlylategate_zero_delta_raises_witness :
  exists e, main (fun _ _ => 0%float) pow_on_integers ted_small 6 2 "earlylategate"
                 default_tau default_gain default_Kp default_Ki 0
                 default_symbol_prev false = Raise e.
Proof.
  apply (earlylategate_zero_delta_raises (fun _ _ => 0%float) pow_on_integers ted_small 6 2).
  lia.
Defined.

(** X20.  [createrc] with an [sps] that is not positive: a zero [sps] is a
    zero step of [np.arange], which raises [ZeroDivisionError]; a negative
    [sps] leaves both ranges empty, and [np.delete] raises [IndexError] on the
    empty position list. *)
Theorem createrc_rejects_bad_sps
    (rcosfilter : Z -> R -> R -> R -> list R * list R)
    (self : PulseShaper.t) :
  PulseShaper.sps self <= 0 ->
  0 <= PulseShaper.rc_taps self ->
  PulseShaper.createrc rcosfilter self
  = Raise (if PulseShaper.sps self =? 0 then ZeroDivisionError
           else IndexError).
Proof.
  intros Hs HN. unfold PulseShaper.createrc.
  destruct (rcosfilter _ _ _ _) as [time_idx h_rc].
  set (N := PulseShaper.rc_taps self) in *.
  set (s := PulseShaper.sps self) in *.
  unfold np_arange.
  destruct (Z.eqb_spec s 0) as [E|E].
  - rewrite E. reflexivity.
  - assert (E1 : (- s =? 0) = false) by (apply Z.eqb_neq; lia).
    assert (E2 : (0 <? - s) = true) by (apply Z.ltb_lt; lia).
    assert (E3 : (0 <? s) = false) by (apply Z.ltb_ge; lia).
    rewrite E1, E2, E3. cbn [bind].
    assert (Hc : 0 <= N / 2) by (apply Z.div_pos; lia).
    assert (Hc' : N / 2 <= N) by (apply Z.div_le_upper_bound; lia).
    assert (Hl : Z.to_nat ((-1 - (N / 2 - s) + - s - 1) / - s) = O).
    { assert ((-1 - (N / 2 - s) + - s - 1) / - s < 0); [|lia].
      apply Z.div_lt_upper_bound; lia. }
    assert (Hr : Z.to_nat ((N / 2 - N - s - 1) / - s) = O).
    { assert ((N / 2 - N - s - 1) / - s < 1); [|lia].
      apply Z.div_lt_upper_bound; lia. }
    rewrite Hl, Hr. reflexivity.
Qed.

Lemma createrc_rejects_bad_sps_witness :
  PulseShaper.createrc commpy_rcosfilter
    (PulseShaper.mk 3 (3 / 10)%R (-8) None None None None None None None None
                    None)
  = Raise (if -8 =? 0 then ZeroDivisionError else IndexError).
Proof.
  apply (createrc_rejects_bad_sps commpy_rcosfilter
           (PulseShaper.mk 3 (3 / 10)%R (-8) None None None None None None
                           None None None)).
  - discriminate.
  - discriminate.
Defined.

(** X21.  [fractionaldelay] with an even number of sinc taps: the index range
    [arange(-(M-1)//2, M//2 + 1)] has [M + 1] entries against the [M] of the
    Hamming window, and their product raises [ValueError]. *)
Theorem fractionaldelay_even_taps_rejected (self : PulseShaper.t)
    (y : list R) (M : Z) (d : R) (keep_edges : bool) :
  PulseShaper.integer_delay self = Ok y ->
  PulseShaper.frac_delay self = Some d ->
  d <> 0%R ->
  PulseShaper.sinc_taps self = Some M ->
  Z.even M = true -> 2 <= M ->
  PulseShaper.sinc_kernel M d = Raise ValueError
  /\ PulseShaper.fractionaldelay self keep_edges = Raise ValueError.
Proof.
  intros Hy Hfrac Hd Htaps Heven HM.
  assert (Hker : PulseShaper.sinc_kernel M d = Raise ValueError).
  { rewrite Z.even_spec in Heven. destruct Heven as [k Hk].
    unfold PulseShaper.sinc_kernel, np_arange.
    replace (1 =? 0) with false by reflexivity.
    replace (0 <? 1) with true by reflexivity.
    assert (E1 : (- (M - 1)) / 2 = - k).
    { symmetry. apply Z.div_unique with (r := 1); lia. }
    assert (E2 : M / 2 = k).
    { symmetry. apply Z.div_unique with (r := 0); lia. }
    rewrite E1, E2, Z.div_1_r. cbn [bind].
    unfold NP.hamming.
    assert (E3 : (M <? 1) = false) by (apply Z.ltb_ge; lia).
    assert (E4 : (M =? 1) = false) by (apply Z.eqb_neq; lia).
    rewrite E3, E4. unfold NP.zip_with.
    set (a := map _ (map _ _)). set (b := map _ (seq 0 (Z.to_nat M))).
    assert (Ha : len a = M + 1).
    { unfold a, len. rewrite !length_map, length_seq. lia. }
    assert (Hb : len b = M).
    { unfold b, len. rewrite length_map, length_seq. lia. }
    rewrite Ha, Hb.
    assert (E5 : (M + 1 =? M) = false) by (apply Z.eqb_neq; lia).
    assert (E6 : (M + 1 =? 1) = false) by (apply Z.eqb_neq; lia).
    rewrite E5, E6, E4. reflexivity. }
  split; [exact Hker|].
  unfold PulseShaper.fractionaldelay. rewrite Hy. cbn [bind].
  unfold PulseShaper.truthy_float. rewrite Hfrac.
  destruct (Req_dec_T d 0) as [E|_]; [contradiction|].
  rewrite Htaps. cbn [bind]. rewrite Hker. reflexivity.
Qed.

Lemma fractionaldelay_even_taps_rejected_witness :
  PulseShaper.sinc_kernel 4 (1 / 2) = Raise ValueError
  /\ PulseShaper.fractionaldelay
       (PulseShaper.mk 1 (3 / 10)%R 8 (Some [1%R]) (Some []) None
          (Some (1 / 2)%R) (Some 4) None (Some [1%R; 1%R; 1%R]) None None)
       false = Raise ValueError.
Proof.
  apply (fractionaldelay_even_taps_rejected
           (PulseShaper.mk 1 (3 / 10)%R 8 (Some [1%R]) (Some []) None
              (Some (1 / 2)%R) (Some 4) None (Some [1%R; 1%R; 1%R]) None None)
           [1%R; 1%R; 1%R] 4 (1 / 2)%R false).
  - reflexivity.
  - reflexivity.
  - lra.
  - reflexivity.
  - reflexivity.
  - discriminate.
Defined.

(* ===================================================================== *)
(** * PulseShaper: the constructor *)
(* ===================================================================== *)

Lemma createrc_rolloff (rcosfilter : Z -> R -> R -> R -> list R * list R)
    (self self' : PulseShaper.t) (rc : list R) :
  PulseShaper.createrc rcosfilter self = Ok (self', rc) ->
  PulseShaper.rolloff self' = PulseShaper.rolloff self.
Proof.
  unfold PulseShaper.createrc. intros H.
  destruct (rcosfilter _ _ _ _) as [t h]. repeat bind_inv H.
  inversion H. reflexivity.
Qed.

(** X22.  The constructor with positive [sps] and tap count: it returns an
    object that holds the kernel [createrc] built (the library's samples
    without the first) and the stored positions, keeps its seven arguments,
    and has no shaped, delayed or noisy signal yet. *)
Theorem pulseshaper_init_stores_configuration
    (rcosfilter : Z -> R -> R -> R -> list R * list R)
    (rc_taps : Z) (rolloff : R) (sps : Z) (int_delay : option Z)
    (frac_delay : option R) (sinc_taps : option Z) (snr : option R) :
  0 < sps -> 0 < rc_taps ->
  exists self zc,
    PulseShaper.init rcosfilter rc_taps rolloff sps int_delay frac_delay
                     sinc_taps snr = Ok self
    /\ self
       = PulseShaper.mk rc_taps rolloff sps
           (Some (skipn 1 (snd (rcosfilter (rc_taps + 1) rolloff (IZR sps)
                                           1%R))))
           (Some zc) int_delay frac_delay sinc_taps snr None None None
    /\ forall z, In z zc <->
         0 <= z < rc_taps /\ z <> rc_taps / 2 /\ (z - rc_taps / 2) mod sps = 0.
Proof.
  intros Hsps Htaps. unfold PulseShaper.init.
  set (self0 := PulseShaper.mk rc_taps rolloff sps None None None None None
                               None None None None).
  destruct (createrc_returns rcosfilter self0 Hsps Htaps) as [[self1 rc] Hc].
  rewrite Hc. cbn [bind].
  destruct (createrc_kernel _ _ _ _ Hc) as [Hrc Hset].
  destruct (createrc_zero_crossings_value rcosfilter self0 self1 rc Hsps
              Htaps Hc) as [HN [Hs Hzc]].
  cbn [self0 PulseShaper.rc_taps PulseShaper.sps PulseShaper.rolloff]
    in Hrc, HN, Hs, Hzc.
  eexists. eexists. split; [reflexivity|].
  pose proof (createrc_rolloff _ _ _ _ Hc) as Hrolloff.
  cbn [self0 PulseShaper.rolloff] in Hrolloff.
  rewrite HN, Hs, Hset, Hzc, Hrolloff, Hrc.
  split; [reflexivity|].
  intros z. apply zero_crossings_members; assumption.
Qed.

Lemma pulseshaper_init_stores_configuration_witness :
  exists self zc,
    PulseShaper.init commpy_rcosfilter 5 (3 / 10)%R 2 (Some 5)
                     (Some (7 / 10)%R) (Some 21) None = Ok self
    /\ self
       = PulseShaper.mk 5 (3 / 10)%R 2
           (Some (skipn 1 (snd (commpy_rcosfilter (5 + 1) (3 / 10)%R (IZR 2)
                                                  1%R))))
           (Some zc) (Some 5) (Some (7 / 10)%R) (Some 21) None None None None
    /\ forall z, In z zc <->
         0 <= z < 5 /\ z <> 5 / 2 /\ (z - 5 / 2) mod 2 = 0.
Proof.
  apply (pulseshaper_init_stores_configuration commpy_rcosfilter 5 (3 / 10)%R
           2 (Some 5)
           (Some (7 / 10)%R) (Some 21) None).
  - reflexivity.
  - reflexivity.
Defined.
